(** * DNS Intelligence Engine: zone health, propagation analysis and
      subdomain discovery

    A shallow embedding of the three service modules of dnsinfo.lol
    ([services/dnsResolver.ts], [services/zoneHealth.ts] and
    [services/subdomainEnum.ts]) together with the properties their
    specification states about them.

    Conventions of the embedding.
    - A JavaScript string is a [string]: a sequence of 8-bit code units.
      Ordinal comparison is [String.compare].
    - A JavaScript number is an IEEE-754 binary64 value.  Counters, TTLs,
      scores and record type codes only ever hold small integers, on which
      binary64 arithmetic is exact, and are kept in [Z].  The one quotient
      the code computes (the propagation percentage) is evaluated with the
      binary64 operations of [SpecFloat].
    - Network I/O is an oracle handed to the function; the order in which
      concurrently running callbacks complete is an explicit argument. *)

From Stdlib Require Import ZArith String Ascii List SpecFloat DecimalString.
From Stdlib Require Import Sorting.Sorted Sorting.Permutation Lia.
From stdpp Require Import gmap strings list.

Local Open Scope Z_scope.

(* ================================================================== *)
(** * Part I: the program                                             *)
(* ================================================================== *)

(** ** JavaScript built-ins used by the services *)
Module JS.

(** [s.startsWith(p)] *)
Definition startsWith (s p : string) : bool := String.prefix p s.

(** [s.includes(p)] *)
Fixpoint includes (s p : string) : bool :=
  String.prefix p s ||
  match s with
  | EmptyString => false
  | String _ s' => includes s' p
  end.

(** [s.slice(n)] *)
Fixpoint skip (n : nat) (s : string) : string :=
  match n, s with
  | S n', String _ s' => skip n' s'
  | _, _ => s
  end.

(** [s.replace(p, r)] for a string pattern [p]: the first occurrence
    only ([r] without replacement patterns). *)
Fixpoint replace (s p r : string) : string :=
  if String.prefix p s then r +:+ skip (String.length p) s
  else
    match s with
    | EmptyString => EmptyString
    | String c s' => String c (replace s' p r)
    end.

(** [xs.join(sep)] *)
Definition join (sep : string) (xs : list string) : string :=
  String.concat sep xs.

(** [`${n}`] for an integral number (below 1e21, where JavaScript
    switches to exponent notation). *)
Definition Number_toString (n : Z) : string :=
  NilZero.string_of_int (Z.to_int n).

(** [xs.length] *)
Definition len {A} (xs : list A) : Z := Z.of_nat (length xs).

(** [xs.sort(cmp)]: the sort is stable; [cmp a b] is the sign of the
    comparator's result. *)
Section Sort.
Context {A : Type} (cmp : A -> A -> comparison).

Fixpoint insert (x : A) (l : list A) : list A :=
  match l with
  | [] => [x]
  | y :: l' =>
    match cmp x y with
    | Gt => y :: insert x l'
    | _ => x :: l
    end
  end.

Definition sortBy (l : list A) : list A := foldr insert [] l.
End Sort.

(** [xs.sort()] on strings: ascending code-unit order. *)
Definition sort (xs : list string) : list string := sortBy String.compare xs.

(** [[...new Set(xs)]]: first occurrences, in insertion order. *)
Definition uniq (xs : list string) : list string :=
  fold_left (fun acc x => if decide (x ∈ acc) then acc else acc ++ [x]) xs [].

(** *** JSON.stringify on an array of strings *)

Definition quoteChar : ascii := "034"%char.
Definition backslash : ascii := "\"%char.

Definition hexDigit (n : N) : ascii :=
  match n with
  | 0 => "0" | 1 => "1" | 2 => "2" | 3 => "3" | 4 => "4" | 5 => "5"
  | 6 => "6" | 7 => "7" | 8 => "8" | 9 => "9" | 10 => "a" | 11 => "b"
  | 12 => "c" | 13 => "d" | 14 => "e" | _ => "f"
  end%N%char.

(** QuoteJSONString on one code unit. *)
Definition escapeChar (c : ascii) : string :=
  let n := N_of_ascii c in
  if (n =? 8)%N then "\b"
  else if (n =? 9)%N then "\t"
  else if (n =? 10)%N then "\n"
  else if (n =? 12)%N then "\f"
  else if (n =? 13)%N then "\r"
  else if (n =? 34)%N then String backslash (String quoteChar EmptyString)
  else if (n =? 92)%N then String backslash (String backslash EmptyString)
  else if (n <? 32)%N then
    "\u00" +:+ String (hexDigit (n / 16)) (String (hexDigit (n mod 16)) EmptyString)
  else String c EmptyString.

Fixpoint escape (s : string) : string :=
  match s with
  | EmptyString => EmptyString
  | String c s' => escapeChar c +:+ escape s'
  end.

Definition quoteJSON (s : string) : string :=
  String quoteChar (escape s +:+ String quoteChar EmptyString).

Definition JSON_stringify (xs : list string) : string :=
  "[" +:+ join "," (map quoteJSON xs) +:+ "]".

(** A reader for [quoteJSON]: from the text after the opening quote,
    the string that was quoted and the text after the closing quote. *)
Definition hexValue (c : ascii) : N :=
  let n := N_of_ascii c in
  if (n <? 58)%N then (n - 48)%N else (n - 87)%N.

Definition unescapeChar (e : ascii) : ascii :=
  let n := N_of_ascii e in
  if (n =? 98)%N then "008"%char
  else if (n =? 116)%N then "009"%char
  else if (n =? 110)%N then "010"%char
  else if (n =? 102)%N then "012"%char
  else if (n =? 114)%N then "013"%char
  else e.

Definition consFst (c : ascii) (r : option (string * string)) : option (string * string) :=
  match r with
  | Some (s, rest) => Some (String c s, rest)
  | None => None
  end.

Fixpoint unquoteJSON (s : string) : option (string * string) :=
  match s with
  | EmptyString => None
  | String c s1 =>
    if Ascii.eqb c quoteChar then Some (EmptyString, s1)
    else if Ascii.eqb c backslash then
      match s1 with
      | String e s2 =>
        if Ascii.eqb e "u" then
          match s2 with
          | String _ (String _ (String h (String l s3))) =>
            consFst (ascii_of_N (16 * hexValue h + hexValue l)) (unquoteJSON s3)
          | _ => None
          end
        else consFst (unescapeChar e) (unquoteJSON s2)
      | EmptyString => None
      end
    else consFst c (unquoteJSON s1)
  end.

(** The text [JSON_stringify] writes after the opening bracket. *)
Definition items (xs : list string) : string :=
  join "," (map quoteJSON xs) +:+ "]".

(** *** Numbers: the binary64 quotient and [Math.round] *)

Definition prec : Z := 53.
Definition emax : Z := 1024.

(** The number that holds the integer [z]. *)
Definition ofInt (z : Z) : spec_float := binary_normalize prec emax z 0 false.
Definition fdiv : spec_float -> spec_float -> spec_float := SFdiv prec emax.
Definition fmul : spec_float -> spec_float -> spec_float := SFmul prec emax.

(** What [Math.round] can return: NaN, an infinity, or an integer
    (the sign of a zero result is not kept). *)
Inductive rounded := RNaN | RInf (negative : bool) | RInt (z : Z).

(** [Math.round(x)]: the integer closest to [x], ties towards
    +Infinity, that is the floor of [x + 1/2]. *)
Definition Math_round (x : spec_float) : rounded :=
  match x with
  | S754_nan => RNaN
  | S754_infinity s => RInf s
  | S754_zero _ => RInt 0
  | S754_finite s m e =>
    let n := if s then Z.neg m else Z.pos m in
    if 0 <=? e then RInt (n * 2 ^ e)
    else RInt ((2 * n + 2 ^ (- e)) / 2 ^ (1 - e))
  end.

(** [x >= k] for an integer literal [k]. *)
Definition geInt (x : rounded) (k : Z) : bool :=
  match x with
  | RNaN => false
  | RInf negative => negb negative
  | RInt z => z >=? k
  end.

(** [x < k] for an integer literal [k]. *)
Definition ltInt (x : rounded) (k : Z) : bool :=
  match x with
  | RNaN => false
  | RInf negative => negative
  | RInt z => z <? k
  end.

(** [`${x}`] *)
Definition rounded_toString (x : rounded) : string :=
  match x with
  | RNaN => "NaN"
  | RInf false => "Infinity"
  | RInf true => "-Infinity"
  | RInt z => Number_toString z
  end.

End JS.

(** ** services/dnsResolver.ts: records *)

Record DNSRecord := {
  name : string;
  type : Z;
  typeName : string;
  TTL : Z;
  data : string
}.

Module DnsResolver.

(** [DNS_RECORD_TYPES], in the order of its keys. *)
Definition DNS_RECORD_TYPES : list (string * Z) :=
  [ ("A", 1); ("AAAA", 28); ("CNAME", 5); ("MX", 15); ("NS", 2);
    ("TXT", 16); ("SOA", 6); ("PTR", 12); ("SRV", 33); ("CAA", 257);
    ("DNSKEY", 48); ("DS", 43) ].

Record Resolver := {
  resolver_name : string;
  resolver_region : string;
  endpoint : string;
  resolver_location : string
}.

Definition google_us : Resolver :=
  {| resolver_name := "Google Public DNS"; resolver_region := "North America";
     endpoint := "https://dns.google/resolve";
     resolver_location := "United States" |}.
Definition cloudflare_us : Resolver :=
  {| resolver_name := "Cloudflare DNS"; resolver_region := "North America";
     endpoint := "https://cloudflare-dns.com/dns-query";
     resolver_location := "United States (Anycast)" |}.
Definition quad9_eu : Resolver :=
  {| resolver_name := "Quad9 DNS"; resolver_region := "Europe";
     endpoint := "https://dns.quad9.net:5053/dns-query";
     resolver_location := "Europe" |}.
Definition dns_sb_asia : Resolver :=
  {| resolver_name := "DNS.SB"; resolver_region := "Asia Pacific";
     endpoint := "https://doh.dns.sb/dns-query";
     resolver_location := "Asia" |}.
Definition adguard : Resolver :=
  {| resolver_name := "AdGuard DNS"; resolver_region := "Global (Anycast)";
     endpoint := "https://dns.adguard-dns.com/dns-query";
     resolver_location := "Anycast" |}.
Definition nextdns : Resolver :=
  {| resolver_name := "NextDNS"; resolver_region := "Global (Anycast)";
     endpoint := "https://dns.nextdns.io/dns-query";
     resolver_location := "Anycast" |}.
Definition control_d : Resolver :=
  {| resolver_name := "Control D"; resolver_region := "Global (Anycast)";
     endpoint := "https://freedns.controld.com/p0";
     resolver_location := "Anycast" |}.

(** [Object.entries(GLOBAL_RESOLVERS)]: the registry in key order. *)
Definition GLOBAL_RESOLVERS : list (string * Resolver) :=
  [ ("google_us", google_us); ("cloudflare_us", cloudflare_us);
    ("quad9_eu", quad9_eu); ("dns_sb_asia", dns_sb_asia);
    ("adguard", adguard); ("nextdns", nextdns); ("control_d", control_d) ].

Record Question := { q_name : string; q_type : Z }.

Record DNSResponse := {
  status : Z;
  statusText : string;
  question : list Question;
  answer : list DNSRecord;
  authority : option (list DNSRecord);
  additional : option (list DNSRecord);
  AD : bool;
  CD : bool;
  TC : bool;
  RD : bool;
  RA : bool
}.

Inductive Status := success | error | timeout.

Record PropagationResult := {
  resolver : string;
  region : string;
  location : string;
  result_status : Status;
  response : option DNSResponse;
  latencyMs : Z;
  result_error : option string;
  timestamp : string
}.

Definition getRecordTypeName (typeNum : Z) : string :=
  match List.find (fun entry => snd entry =? typeNum) DNS_RECORD_TYPES with
  | Some entry => fst entry
  | None => "TYPE" +:+ JS.Number_toString typeNum
  end.

(** *** The DoH JSON payload

    A member of the decoded payload is missing ([undefined]), [null],
    or holds a value of the type the DoH JSON convention gives it. *)
Inductive member (T : Type) := Missing | Null | Present (v : T).
Arguments Missing {T}.
Arguments Null {T}.
Arguments Present {T} v.

Record JsonAnswer := {
  json_name : string;
  json_type : Z;
  json_TTL : Z;
  json_data : string
}.

Record DoHJson := {
  json_Status : member Z;
  json_Question : member (list Question);
  json_Answer : member (list JsonAnswer);
  json_Authority : member (list JsonAnswer);
  json_Additional : member (list JsonAnswer);
  json_AD : member bool;
  json_CD : member bool;
  json_TC : member bool;
  json_RD : member bool;
  json_RA : member bool
}.

(** [x ?? d] *)
Definition orElse {T} (x : member T) (d : T) : T :=
  match x with
  | Present v => v
  | Missing | Null => d
  end.

(** [xs?.map(f)]: [undefined] when [xs] is nullish. *)
Definition optMap {T U} (xs : member (list T)) (f : T -> U) : option (list U) :=
  match xs with
  | Present l => Some (map f l)
  | Missing | Null => None
  end.

Definition toRecord (a : JsonAnswer) : DNSRecord :=
  {| name := json_name a;
     type := json_type a;
     typeName := getRecordTypeName (json_type a);
     TTL := json_TTL a;
     data := json_data a |}.

Definition statusTexts : list (Z * string) :=
  [ (0, "NOERROR"); (1, "FORMERR"); (2, "SERVFAIL"); (3, "NXDOMAIN");
    (4, "NOTIMP"); (5, "REFUSED") ].

(** [statusTexts[data.Status] ?? `UNKNOWN(${data.Status})`] *)
Definition statusTextOf (st : member Z) : string :=
  match st with
  | Present n =>
    match List.find (fun entry => fst entry =? n) statusTexts with
    | Some entry => snd entry
    | None => "UNKNOWN(" +:+ JS.Number_toString n +:+ ")"
    end
  | Null => "UNKNOWN(null)"
  | Missing => "UNKNOWN(undefined)"
  end.

(** The object literal [queryDoHResolver] returns for a decoded
    payload. *)
Definition parseResponse (d : DoHJson) : DNSResponse :=
  {| status := orElse (json_Status d) 0;
     statusText := statusTextOf (json_Status d);
     question := default [] (optMap (json_Question d)
                   (fun q => {| q_name := q_name q; q_type := q_type q |}));
     answer := default [] (optMap (json_Answer d) toRecord);
     authority := optMap (json_Authority d) toRecord;
     additional := optMap (json_Additional d) toRecord;
     AD := orElse (json_AD d) false;
     CD := orElse (json_CD d) false;
     TC := orElse (json_TC d) false;
     RD := orElse (json_RD d) true;
     RA := orElse (json_RA d) true |}.

(** *** The network

    What the [fetch] of one DoH query comes to: the timer aborts it,
    it throws, the server answers with a non-2xx status, or it
    delivers a payload. *)
Inductive FetchOutcome :=
| Aborted
| Failed (msg : string)
| NotOk (code : Z) (reason : string)
| Delivered (body : DoHJson).

Record Network := {
  (** endpoint, name, type, timeout *)
  fetch : string -> string -> string -> Z -> FetchOutcome;
  (** [Date.now() - startTime] when the query to an endpoint settles *)
  elapsed : string -> Z;
  (** [new Date().toISOString()] at that moment *)
  clock : string -> string
}.

(** [typeof recordType === 'string' ? recordType :
    getRecordTypeName(recordType)] *)
Definition mnemonicOf (recordType : string + Z) : string :=
  match recordType with
  | inl mnemonic => mnemonic
  | inr code => getRecordTypeName code
  end.

(** [queryDoHResolver]: the thrown error's message, or the response. *)
Definition queryDoHResolver (net : Network) (endpoint domain : string)
    (recordType : string + Z) (timeout : Z) : string + DNSResponse :=
  let type := mnemonicOf recordType in
  match fetch net endpoint domain type timeout with
  | Aborted => inl "Request timeout"
  | Failed msg => inl msg
  | NotOk code reason =>
    inl ("HTTP " +:+ JS.Number_toString code +:+ ": " +:+ reason)
  | Delivered body => inr (parseResponse body)
  end.

(** The callback [checkPropagation] maps over the registry, from the
    moment its query has settled. *)
Definition probe (net : Network) (domain recordType : string)
    (entry : string * Resolver) : PropagationResult :=
  let resolver := snd entry in
  match queryDoHResolver net (endpoint resolver) domain (inl recordType) 8000 with
  | inr response =>
    {| resolver := resolver_name resolver;
       region := resolver_region resolver;
       location := resolver_location resolver;
       result_status := success;
       response := Some response;
       latencyMs := elapsed net (endpoint resolver);
       result_error := None;
       timestamp := clock net (endpoint resolver) |}
  | inl msg =>
    {| resolver := resolver_name resolver;
       region := resolver_region resolver;
       location := resolver_location resolver;
       result_status := if JS.includes msg "timeout" then timeout else error;
       response := None;
       latencyMs := elapsed net (endpoint resolver);
       result_error := Some msg;
       timestamp := clock net (endpoint resolver) |}
  end.

(** [checkPropagation].  All seven queries are started at once and
    each callback pushes its result when its own query settles:
    [completion] lists the registry positions in the order in which
    the queries settle. *)
Definition checkPropagation (net : Network) (completion : list nat)
    (domain recordType : string) : list PropagationResult :=
  omap (fun i => probe net domain recordType <$> GLOBAL_RESOLVERS !! i) completion.

(** The results in registry order. *)
Definition registryResults (net : Network) (domain recordType : string)
    : list PropagationResult :=
  map (probe net domain recordType) GLOBAL_RESOLVERS.

(** A completion order in which every query settles exactly once. *)
Definition settlesOnce (completion : list nat) : Prop :=
  completion ≡ₚ seq 0 (length GLOBAL_RESOLVERS).

(** *** analyzePropagation *)

Record PropagationAnalysis := {
  propagated : bool;
  percentage : JS.rounded;
  consistentRecords : bool;
  summary : string;
  ipAddresses : list string;
  discrepancies : list string
}.

Definition isSuccess (r : PropagationResult) : bool :=
  match result_status r with
  | success => true
  | _ => false
  end.

(** [r.response?.answer] is truthy *)
Definition hasAnswer (r : PropagationResult) : bool :=
  match response r with
  | Some _ => true
  | None => false
  end.

Definition isAddress (a : DNSRecord) : bool :=
  String.eqb (typeName a) "A" || String.eqb (typeName a) "AAAA".

(** The callback of the [map] that builds [ipSets]. *)
Definition sortedIPs (r : PropagationResult) : list string :=
  match response r with
  | Some resp => JS.sort (map data (List.filter isAddress (answer resp)))
  | None => []
  end.

(** One turn of the consistency loop at index [i]; [None] is the
    TypeError of reading a member of [undefined]. *)
Definition compareAt (successful : list PropagationResult)
    (ipSets : list (list string)) (firstSet : string)
    (st : bool * list string) (i : nat) : option (bool * list string) :=
  ips ← ipSets !! i;
  if negb (String.eqb (JS.JSON_stringify ips) firstSet) then
    r ← successful !! i;
    Some (false,
          snd st ++ [resolver r +:+ " returned different IPs: " +:+ JS.join ", " ips])
  else Some st.

Fixpoint forEach {S} (body : S -> nat -> option S) (idx : list nat) (st : S)
    : option S :=
  match idx with
  | [] => Some st
  | i :: idx' => st' ← body st i; forEach body idx' st'
  end.

(** The block under [// Check consistency]: the final values of
    [consistentRecords] and [discrepancies]. *)
Definition checkConsistency (successful : list PropagationResult)
    (ipSets : list (list string)) : option (bool * list string) :=
  if JS.len ipSets >? 1 then
    first ← ipSets !! 0%nat;
    forEach (compareAt successful ipSets (JS.JSON_stringify first))
            (seq 1 (length ipSets - 1)) (true, [])
  else Some (true, []).

(** The three-way choice of the summary text. *)
Definition summaryText (propagated : bool) (percentage : JS.rounded) : string :=
  if propagated then
    "DNS records have propagated to " +:+ JS.rounded_toString percentage
    +:+ "% of global resolvers with consistent results."
  else if JS.ltInt percentage 70 then
    "DNS records have only propagated to " +:+ JS.rounded_toString percentage
    +:+ "% of global resolvers. Propagation may still be in progress."
  else
    "DNS records show inconsistencies across global resolvers. This may indicate ongoing propagation or configuration issues.".

(** [analyzePropagation]; [None] stands for a TypeError thrown by
    the consistency loop. *)
Definition analyzePropagation (results : list PropagationResult)
    : option PropagationAnalysis :=
  let successful := List.filter isSuccess results in
  let percentage :=
    JS.Math_round
      (JS.fmul (JS.fdiv (JS.ofInt (JS.len successful)) (JS.ofInt (JS.len results)))
               (JS.ofInt 100)) in
  let ipSets := map sortedIPs (List.filter hasAnswer successful) in
  let allIPs := JS.uniq (concat ipSets) in
  st ← checkConsistency successful ipSets;
  let consistentRecords := fst st in
  let discrepancies := snd st in
  let propagated := JS.geInt percentage 70 && consistentRecords in
  Some {| propagated := propagated;
          percentage := percentage;
          consistentRecords := consistentRecords;
          summary := summaryText propagated percentage;
          ipAddresses := allIPs;
          discrepancies := discrepancies |}.

End DnsResolver.

(** ** The consistency loop of [analyzePropagation], read as a whole *)
Module Consistency.
Import DnsResolver.

Definition successfulOf (results : list PropagationResult) : list PropagationResult :=
  List.filter isSuccess results.

(** The successful results that carry a response: [ipSets] has one
    entry for each of them. *)
Definition answeredOf (results : list PropagationResult) : list PropagationResult :=
  List.filter hasAnswer (successfulOf results).

(** At index [i] the loop takes the name from [successful[i]] and the
    address list from [ipSets[i]]: the pairs it looks at from index
    [k] on. *)
Definition pairsFrom (k : nat) (results : list PropagationResult)
    : list (PropagationResult * PropagationResult) :=
  zip (drop k (successfulOf results)) (drop k (answeredOf results)).

Definition differsFrom (first : list string)
    (p : PropagationResult * PropagationResult) : bool :=
  negb (bool_decide (sortedIPs (snd p) = first)).

Definition discrepancyText (p : PropagationResult * PropagationResult) : string :=
  resolver (fst p) +:+ " returned different IPs: " +:+ JS.join ", " (sortedIPs (snd p)).

Definition isEmpty {T} (l : list T) : bool :=
  match l with
  | [] => true
  | _ :: _ => false
  end.

Definition discrepanciesFrom (k : nat) (first : list string)
    (results : list PropagationResult) : list string :=
  map discrepancyText (List.filter (differsFrom first) (pairsFrom k results)).

(** The address list every later one is compared with. *)
Definition firstSet (results : list PropagationResult) : list string :=
  match answeredOf results with
  | r0 :: _ => sortedIPs r0
  | [] => []
  end.

(** The message that names a resolver with its own address list. *)
Definition discrepancyOf (r : PropagationResult) : string :=
  discrepancyText (r, r).

(** The successful resolvers after the first whose address list
    differs from the first one's. *)
Definition deviatingFromFirst (results : list PropagationResult)
    : list PropagationResult :=
  List.filter (fun r => negb (bool_decide (sortedIPs r = firstSet results)))
              (drop 1 (successfulOf results)).

(** [r] is the one resolver whose address list differs from the list
    all the others report. *)
Definition oddOneOut (results : list PropagationResult) (r : PropagationResult)
    : Prop :=
  In r (answeredOf results) /\
  exists common,
    common <> sortedIPs r /\
    forall r', In r' (answeredOf results) -> r' <> r -> sortedIPs r' = common.

(** The percentage as the code computes it. *)
Definition percentageOf (results : list PropagationResult) : JS.rounded :=
  JS.Math_round
    (JS.fmul (JS.fdiv (JS.ofInt (JS.len (successfulOf results)))
                      (JS.ofInt (JS.len results)))
             (JS.ofInt 100)).

End Consistency.

(** ** services/zoneHealth.ts *)
Module ZoneHealth.

Inductive severity := critical | warning | info.
Inductive category := SOA | NS | A | MX | CNAME | TXT | General.

Record ZoneHealthIssue := {
  issue_severity : severity;
  issue_category : category;
  message : string;
  recommendation : option string
}.

Record Summary := {
  hasSOA : bool;
  hasNS : bool;
  hasA : bool;
  hasMX : bool;
  hasSPF : bool;
  hasDKIM : bool;
  hasDMARC : bool;
  nsCount : Z;
  mxCount : Z;
  ttlConsistent : bool
}.

(** The predicate of the [privateIPs] filter in [validateA]. *)
Definition isPrivateIP (ip : string) : bool :=
  JS.startsWith ip "10." ||
  JS.startsWith ip "172.16." ||
  JS.startsWith ip "172.17." ||
  JS.startsWith ip "172.18." ||
  JS.startsWith ip "172.19." ||
  JS.startsWith ip "172.2" ||
  JS.startsWith ip "172.30." ||
  JS.startsWith ip "172.31." ||
  JS.startsWith ip "192.168." ||
  JS.startsWith ip "127.".

Definition validateA (records : list DNSRecord) : list ZoneHealthIssue :=
  if JS.len records =? 0 then
    [ {| issue_severity := info; issue_category := A;
         message := "No A records found for root domain";
         recommendation := Some "If this domain should resolve to a web server, add an A record." |} ]
  else
    let privateIPs := List.filter (fun r => isPrivateIP (data r)) records in
    let issues1 :=
      if JS.len privateIPs >? 0 then
        [ {| issue_severity := critical; issue_category := A;
             message := "A record(s) point to private IP address(es): "
                        +:+ JS.join ", " (map data privateIPs);
             recommendation := Some "Replace with public IP addresses. Private IPs are not reachable from the internet." |} ]
      else [] in
    let lowTTL := List.filter (fun r => TTL r <? 60) records in
    let issues2 :=
      match lowTTL with
      | r0 :: _ =>
        [ {| issue_severity := info; issue_category := A;
             message := "Very low TTL (" +:+ JS.Number_toString (TTL r0)
                        +:+ "s) on A records";
             recommendation := Some "Low TTL increases DNS load. Use 300+ seconds unless frequent changes expected." |} ]
      | [] => []
      end in
    issues1 ++ issues2.

(** One turn of the [for (const issue of issues)] loop of
    [calculateScore]. *)
Definition deduct (score : Z) (issue : ZoneHealthIssue) : Z :=
  match issue_severity issue with
  | critical => score - 20
  | warning => score - 10
  | info => score - 2
  end.

Definition calculateScore (issues : list ZoneHealthIssue) (summary : Summary) : Z :=
  let score := fold_left deduct issues 100 in
  let score := if nsCount summary >=? 2 then score + 5 else score in
  let score := if hasSPF summary then score + 5 else score in
  let score := if hasDMARC summary then score + 5 else score in
  let score := if mxCount summary >=? 2 then score + 3 else score in
  Z.max 0 (Z.min 100 score).

Inductive grade := gradeA | gradeB | gradeC | gradeD | gradeF.

Definition scoreToGrade (score : Z) : grade :=
  if score >=? 90 then gradeA
  else if score >=? 80 then gradeB
  else if score >=? 70 then gradeC
  else if score >=? 60 then gradeD
  else gradeF.

(** The private ranges as the specification lists them: [10.],
    [172.16.] to [172.31.], [192.168.] and [127.]. *)
Definition specPrivatePrefixes : list string :=
  [ "10."; "172.16."; "172.17."; "172.18."; "172.19.";
    "172.20."; "172.21."; "172.22."; "172.23."; "172.24.";
    "172.25."; "172.26."; "172.27."; "172.28."; "172.29.";
    "172.30."; "172.31."; "192.168."; "127." ].

Definition matchesPrivatePrefix (ip : string) : bool :=
  existsb (JS.startsWith ip) specPrivatePrefixes.

Definition isCriticalA (i : ZoneHealthIssue) : bool :=
  match issue_severity i, issue_category i with
  | critical, A => true
  | _, _ => false
  end.

End ZoneHealth.

(** ** services/subdomainEnum.ts *)
Module SubdomainEnum.
Import DnsResolver.

Definition COMMON_SUBDOMAINS : list string :=
  [ "www"; "mail"; "webmail"; "ftp"; "smtp"; "pop"; "imap";
    "admin"; "portal"; "api"; "dev"; "staging"; "test"; "demo";
    "blog"; "shop"; "store"; "cdn"; "static"; "assets"; "images";
    "app"; "mobile"; "m"; "vpn"; "remote"; "secure"; "login";
    "auth"; "sso"; "id"; "accounts"; "support"; "help"; "docs";
    "ns1"; "ns2"; "dns"; "dns1"; "dns2"; "mx"; "mx1"; "mx2";
    "cpanel"; "whm"; "plesk"; "server"; "host"; "cloud";
    "status"; "monitor"; "metrics"; "analytics"; "tracking";
    "git"; "gitlab"; "github"; "bitbucket"; "jenkins"; "ci";
    "db"; "database"; "mysql"; "postgres"; "redis"; "mongo";
    "backup"; "bak"; "old"; "new"; "beta"; "alpha"; "stage";
    "internal"; "intranet"; "extranet"; "private"; "public" ].

Record SslDetails := { expired : option bool }.

Record SubdomainResult := {
  subdomain : string;
  fullDomain : string;
  source : string;
  hasSSL : bool;
  sslDetails : option SslDetails;
  resolves : bool;
  ipAddresses : option (list string)
}.

Record Sources := {
  certificateTransparency : Z;
  commonSubdomains : Z
}.

Record SubdomainEnumerationResult := {
  domain : string;
  enumeration_timestamp : string;
  totalFound : Z;
  subdomains : list SubdomainResult;
  sources : Sources
}.

Record Options := {
  checkSSL : bool;
  checkResolution : bool;
  includeCommon : bool;
  maxResults : Z
}.

(** The destructuring defaults of [enumerateSubdomains]. *)
Definition defaultOptions : Options :=
  {| checkSSL := true; checkResolution := true; includeCommon := true;
     maxResults := 100 |}.

(** What the HEAD request of [checkSSLCertificate] comes to: a
    response, or an error thrown with its [code], if it has one. *)
Inductive HeadOutcome :=
| Responded
| Threw (code : option string).

(** The host the enumeration runs on. *)
Record Host := {
  net : Network;
  (** the names [queryCertificateTransparency] returns for a domain *)
  certificateNames : string -> list string;
  (** the HEAD request to [https://<name>] *)
  head : string -> HeadOutcome;
  (** the sign of [a.localeCompare(b)] in the host's locale *)
  localeCompare : string -> string -> comparison;
  (** [new Date().toISOString()] when the enumeration returns *)
  now : string
}.

Definition checkSubdomainResolution (h : Host) (fullDomain : string)
    : bool * list string :=
  match queryDoHResolver (net h) (endpoint cloudflare_us) fullDomain (inl "A") 3000 with
  | inr response =>
    let ips := map data (List.filter (fun r => String.eqb (typeName r) "A")
                                     (answer response)) in
    (JS.len ips >? 0, ips)
  | inl _ => (false, [])
  end.

Definition checkSSLCertificate (h : Host) (fullDomain : string)
    : bool * option SslDetails :=
  match head h fullDomain with
  | Responded => (true, Some {| expired := None |})
  | Threw (Some code) =>
    if String.eqb code "UNABLE_TO_VERIFY_LEAF_SIGNATURE"
       || String.eqb code "CERT_HAS_EXPIRED"
       || String.eqb code "ERR_TLS_CERT_ALTNAME_INVALID"
    then (true, Some {| expired := Some (String.eqb code "CERT_HAS_EXPIRED") |})
    else (false, None)
  | Threw None => (false, None)
  end.

(** The variables of [enumerateSubdomains] that its loops update. *)
Record State := {
  found : list SubdomainResult;
  seenDomains : gset string;
  ctCount : Z
}.

(** One turn of the loop over the certificate-transparency names. *)
Definition visitCertificateName (h : Host) (domain : string) (o : Options)
    (st : State) (sub : string) : State :=
  if bool_decide (sub ∈ seenDomains st) || (JS.len (found st) >=? maxResults o)
  then st
  else
    let label :=
      if String.eqb sub domain then "@"
      else JS.replace sub ("." +:+ domain) EmptyString in
    let resolution :=
      if checkResolution o then Some (checkSubdomainResolution h sub) else None in
    let resolves := from_option fst false resolution in
    let ssl :=
      if checkSSL o && resolves then Some (checkSSLCertificate h sub) else None in
    {| found := found st ++
         [ {| subdomain := label;
              fullDomain := sub;
              source := "Certificate Transparency";
              hasSSL := from_option fst false ssl;
              sslDetails := ssl ≫= snd;
              resolves := resolves;
              ipAddresses := snd <$> resolution |} ];
       seenDomains := {[ sub ]} ∪ seenDomains st;
       ctCount := ctCount st + 1 |}.

Definition certificatePhase (h : Host) (domain : string) (o : Options) : State :=
  fold_left (visitCertificateName h domain o) (certificateNames h domain)
            {| found := []; seenDomains := ∅; ctCount := 0 |}.

(** The part of the word-list callback that runs before its first
    [await]: the callbacks run it one after the other, in word-list
    order.  The state is the set of seen names and the labels whose
    probe was started. *)
Definition startProbe (domain : string) (st : gset string * list string)
    (sub : string) : gset string * list string :=
  let fullDomain := sub +:+ "." +:+ domain in
  if bool_decide (fullDomain ∈ fst st) then st
  else ({[ fullDomain ]} ∪ fst st, snd st ++ [sub]).

(** The rest of the callback, once its probes have answered: the
    entry it pushes, if the name resolves. *)
Definition finishProbe (h : Host) (domain : string) (o : Options)
    (sub : string) : option SubdomainResult :=
  let fullDomain := sub +:+ "." +:+ domain in
  let resolution := checkSubdomainResolution h fullDomain in
  if fst resolution then
    let ssl :=
      if checkSSL o then Some (checkSSLCertificate h fullDomain) else None in
    Some {| subdomain := sub;
            fullDomain := fullDomain;
            source := "Common Subdomain List";
            hasSSL := from_option fst false ssl;
            sslDetails := ssl ≫= snd;
            resolves := true;
            ipAddresses := Some (snd resolution) |}
  else None.

(** The labels the word-list phase maps over:
    [COMMON_SUBDOMAINS.slice(0, maxResults - subdomains.length)]
    when the phase runs at all. *)
Definition wordlistSlice (o : Options) (st : State) : list string :=
  if includeCommon o && (JS.len (found st) <? maxResults o) then
    take (Z.to_nat (maxResults o - JS.len (found st))) COMMON_SUBDOMAINS
  else [].

(** The labels whose probe the word-list phase starts. *)
Definition startedProbes (domain : string) (o : Options) (st : State) : list string :=
  snd (fold_left (startProbe domain) (wordlistSlice o st) (seenDomains st, [])).

(** [enumerateSubdomains].  The word-list probes run concurrently and
    each pushes its entry when it is done: [completion] lists the
    positions of the started probes in the order in which they
    finish. *)
Definition enumerateSubdomains (h : Host) (completion : list nat)
    (domain : string) (o : Options) : SubdomainEnumerationResult :=
  let st := certificatePhase h domain o in
  let started := startedProbes domain o st in
  let pushed := omap (fun i => started !! i ≫= finishProbe h domain o) completion in
  let all := found st ++ pushed in
  let sorted := JS.sortBy (fun a b => localeCompare h (subdomain a) (subdomain b)) all in
  {| domain := domain;
     enumeration_timestamp := now h;
     totalFound := JS.len sorted;
     subdomains := sorted;
     sources := {| certificateTransparency := ctCount st;
                   commonSubdomains := JS.len pushed |} |}.

(** The entries a run has collected when it reaches the sort: those
    of the certificate loop, then those the word-list probes pushed. *)
Definition collectedEntries (h : Host) (completion : list nat)
    (domain : string) (o : Options) : list SubdomainResult :=
  let st := certificatePhase h domain o in
  found st ++
  omap (fun i => startedProbes domain o st !! i ≫= finishProbe h domain o) completion.

(** The full names the word-list phase produces in a run. *)
Definition wordlistNames (h : Host) (domain : string) (o : Options) : list string :=
  map (fun sub => sub +:+ "." +:+ domain)
      (wordlistSlice o (certificatePhase h domain o)).

(** Ascending order of the labels under ordinal (code-unit)
    comparison. *)
Definition ordinalSorted (l : list SubdomainResult) : Prop :=
  Sorted (fun a b => String.compare (subdomain a) (subdomain b) <> Gt) l.

(** Ascending order of the labels under a comparator. *)
Definition sortedBy (cmp : string -> string -> comparison)
    (l : list SubdomainResult) : Prop :=
  Sorted (fun a b => cmp (subdomain a) (subdomain b) <> Gt) l.

End SubdomainEnum.

(** ** The invariant of the certificate loop *)
Module EnumerationInv.
Import SubdomainEnum.

(** The entries found so far all come from the certificate log,
    carry distinct names, and their names are the seen names. *)
Record certificateInv (st : State) : Prop := {
  inv_source : Forall (fun e => source e = "Certificate Transparency") (found st);
  inv_seen : forall d, d ∈ seenDomains st <-> In d (map fullDomain (found st));
  inv_nodup : NoDup (map fullDomain (found st))
}.

End EnumerationInv.

(** ** A collation for [localeCompare]

    [localeCompare] orders strings by the collation of the host's
    locale.  Node compares with ICU; for the default locale ICU uses
    the CLDR root collation, which orders the ASCII characters as:
    white space, punctuation, symbols, the currency sign, digits,
    letters (a lower-case letter just before its capital).  Code units
    outside ASCII are not covered by this table; they are placed after
    the letters.  The examples below rely on one fact of this order
    only: punctuation, the at sign included, sorts before the digits. *)
Module Collation.

(** The ASCII characters that sort before the digits, in order:
    TAB LF VT FF CR SPACE _ - , ; : ! ? . ' QUOTE ( ) [ ] { } @ * / \ & #
    % ` ^ + < = > | ~ $ *)
Definition beforeDigits : list N :=
  [ 9; 10; 11; 12; 13; 32; 95; 45; 44; 59; 58; 33; 63; 46; 39; 34; 40; 41;
    91; 93; 123; 125; 64; 42; 47; 92; 38; 35; 37; 96; 94; 43; 60; 61; 62;
    124; 126; 36 ]%N.

Fixpoint position (n : N) (l : list N) (k : N) : option N :=
  match l with
  | [] => None
  | x :: l' => if (x =? n)%N then Some k else position n l' (k + 1)%N
  end.

(** The primary weight: equal for a letter and its capital. *)
Definition primary (c : ascii) : N :=
  let n := N_of_ascii c in
  (if (48 <=? n) && (n <=? 57) then 100 + (n - 48)
   else if (97 <=? n) && (n <=? 122) then 200 + (n - 97)
   else if (65 <=? n) && (n <=? 90) then 200 + (n - 65)
   else match position n beforeDigits 0 with
        | Some k => k
        | None => 1000 + n
        end)%N.

(** The tertiary weight: lower case before upper case. *)
Definition tertiary (c : ascii) : N :=
  let n := N_of_ascii c in
  (if (65 <=? n) && (n <=? 90) then 1 else 0)%N.

Fixpoint lexicographic (a b : list N) : comparison :=
  match a, b with
  | [], [] => Eq
  | [], _ :: _ => Lt
  | _ :: _, [] => Gt
  | x :: a', y :: b' =>
    match (x ?= y)%N with
    | Eq => lexicographic a' b'
    | c => c
    end
  end.

Definition weights (w : ascii -> N) (s : string) : list N :=
  map w (list_ascii_of_string s).

(** Primary weights decide; on a tie the tertiary weights do. *)
Definition compare (a b : string) : comparison :=
  match lexicographic (weights primary a) (weights primary b) with
  | Eq => lexicographic (weights tertiary a) (weights tertiary b)
  | c => c
  end.

End Collation.

(** ** The score and the grade as the specification words them *)
Module ZoneHealthSpec.
Import ZoneHealth.

Definition severity_eqb (a b : severity) : bool :=
  match a, b with
  | critical, critical | warning, warning | info, info => true
  | _, _ => false
  end.

(** The number of issues of one severity. *)
Definition countOf (s : severity) (issues : list ZoneHealthIssue) : Z :=
  JS.len (List.filter (fun i => severity_eqb (issue_severity i) s) issues).

(** Start at 100; critical -20, warning -10, info -2; +5 if NS count
    is at least 2, +5 if SPF is present, +5 if the DMARC flag is set,
    +3 if MX count is at least 2. *)
Definition rawScore (issues : list ZoneHealthIssue) (summary : Summary) : Z :=
  100 - 20 * countOf critical issues - 10 * countOf warning issues
      - 2 * countOf info issues
  + (if 2 <=? nsCount summary then 5 else 0)
  + (if hasSPF summary then 5 else 0)
  + (if hasDMARC summary then 5 else 0)
  + (if 2 <=? mxCount summary then 3 else 0).

(** Clamped to [0,100]. *)
Definition clamp (x : Z) : Z :=
  if x <? 0 then 0 else if 100 <? x then 100 else x.

(** A from 90, B from 80, C from 70, D from 60, else F. *)
Definition gradeOf (score : Z) : grade :=
  if 90 <=? score then gradeA
  else if 80 <=? score then gradeB
  else if 70 <=? score then gradeC
  else if 60 <=? score then gradeD
  else gradeF.

End ZoneHealthSpec.

(** ** The percentage as the specification words it, and bounds on
       binary64 values *)
Module Share.

(** [round(100 * s / n)]: the integer nearest to the exact quotient,
    a tie going up. *)
Definition roundedShare (s n : Z) : Z := (200 * s + n) / (2 * n).

(** [Math.round((s / n) * 100)] in binary64. *)
Definition computedShare (s n : Z) : JS.rounded :=
  JS.Math_round (JS.fmul (JS.fdiv (JS.ofInt s) (JS.ofInt n)) (JS.ofInt 100)).

Definition rounded_eqb (a b : JS.rounded) : bool :=
  match a, b with
  | JS.RNaN, JS.RNaN => true
  | JS.RInf x, JS.RInf y => Bool.eqb x y
  | JS.RInt x, JS.RInt y => x =? y
  | _, _ => false
  end.

(** The computed share is the rounded share for every [s <= n] with
    [0 < n < bound]. *)
Definition agreesBelow (bound : nat) : bool :=
  forallb (fun n =>
             forallb (fun s =>
                        rounded_eqb (computedShare (Z.of_nat s) (Z.of_nat n))
                                    (JS.RInt (roundedShare (Z.of_nat s) (Z.of_nat n))))
                     (seq 0 (S n)))
          (seq 1 (bound - 1)).

(** A binary64 value that is finite, not negative, and at most the
    integer [B]. *)
Definition atMost (B : Z) (x : spec_float) : Prop :=
  match x with
  | S754_zero _ => True
  | S754_finite false m e => e <= 0 /\ Z.pos m <= B * 2 ^ (- e)
  | _ => False
  end.

(** A number between 0 and 100 inclusive. *)
Definition inPercentRange (x : JS.rounded) : Prop :=
  exists k, x = JS.RInt k /\ 0 <= k <= 100.

(** A shift record whose round and sticky bits are clear. *)
Definition exact (mrs : shr_record) : Prop :=
  shr_r mrs = false /\ shr_s mrs = false.

End Share.

(** ** Inputs of the examples *)
Module Inputs.
Import DnsResolver SubdomainEnum.

Definition aRecord (ip : string) : DNSRecord :=
  {| name := "example.com"; type := 1; typeName := "A"; TTL := 300; data := ip |}.

Definition answerWith (ips : list string) : DNSResponse :=
  {| status := 0; statusText := "NOERROR"; question := [];
     answer := map aRecord ips; authority := None; additional := None;
     AD := false; CD := false; TC := false; RD := true; RA := true |}.

(** A successful result of resolver [r] with the given A records. *)
Definition succeeded (r : Resolver) (ips : list string) : PropagationResult :=
  {| resolver := resolver_name r; region := resolver_region r;
     location := resolver_location r; result_status := success;
     response := Some (answerWith ips); latencyMs := 20;
     result_error := None; timestamp := "2026-01-25T12:00:00.000Z" |}.

(** A failed result of resolver [r]. *)
Definition failed (r : Resolver) : PropagationResult :=
  {| resolver := resolver_name r; region := resolver_region r;
     location := resolver_location r; result_status := error;
     response := None; latencyMs := 20;
     result_error := Some "HTTP 502: Bad Gateway";
     timestamp := "2026-01-25T12:00:00.000Z" |}.

(** [s] successful results followed by [f] failed ones. *)
Definition mixed (s f : nat) : list PropagationResult :=
  repeat (succeeded google_us ["203.0.113.5"]) s ++ repeat (failed quad9_eu) f.

(** A result marked successful that carries no response. *)
Definition silent (r : Resolver) : PropagationResult :=
  {| resolver := resolver_name r; region := resolver_region r;
     location := resolver_location r; result_status := success;
     response := None; latencyMs := 20;
     result_error := None; timestamp := "2026-01-25T12:00:00.000Z" |}.

(** Google without a response, then Cloudflare and Quad9 with
    different addresses. *)
Definition silentFirst : list PropagationResult :=
  [ silent google_us;
    succeeded cloudflare_us ["203.0.113.5"];
    succeeded quad9_eu ["203.0.113.9"] ].

(** Three successful resolvers; the first one alone reports another
    address. *)
Definition oddFirst : list PropagationResult :=
  [ succeeded google_us ["203.0.113.9"];
    succeeded cloudflare_us ["203.0.113.5"];
    succeeded quad9_eu ["203.0.113.5"] ].

(** The payload [{}]: every member is missing. *)
Definition emptyPayload : DoHJson :=
  {| json_Status := Missing; json_Question := Missing; json_Answer := Missing;
     json_Authority := Missing; json_Additional := Missing;
     json_AD := Missing; json_CD := Missing; json_TC := Missing;
     json_RD := Missing; json_RA := Missing |}.

(** A network on which every query is answered with [{}]. *)
Definition quietNet : Network :=
  {| fetch := fun _ _ _ _ => Delivered emptyPayload;
     elapsed := fun _ => 20;
     clock := fun _ => "2026-01-25T12:00:00.000Z" |}.

(** The payload of a name that resolves to one address. *)
Definition onePayload : DoHJson :=
  {| json_Status := Present 0; json_Question := Missing;
     json_Answer := Present [ {| json_name := "example.com"; json_type := 1;
                                 json_TTL := 300; json_data := "203.0.113.5" |} ];
     json_Authority := Missing; json_Additional := Missing;
     json_AD := Missing; json_CD := Missing; json_TC := Missing;
     json_RD := Missing; json_RA := Missing |}.

(** A network on which every name resolves. *)
Definition liveNet : Network :=
  {| fetch := fun _ _ _ _ => Delivered onePayload;
     elapsed := fun _ => 20;
     clock := fun _ => "2026-01-25T12:00:00.000Z" |}.

(** A host whose certificate-transparency query returns [names], and
    on which no HTTPS request succeeds. *)
Definition hostWith (network : Network) (names : list string) : Host :=
  {| net := network;
     certificateNames := fun _ => names;
     head := fun _ => Threw None;
     localeCompare := Collation.compare;
     now := "2026-01-25T12:00:00.000Z" |}.

(** The word-list probes finish in the order in which they start. *)
Definition inOrder : list nat := seq 0 (length COMMON_SUBDOMAINS).

(** Cloudflare answers before Google; the others follow in registry
    order. *)
Definition cloudflareFirst : list nat := [1; 0; 2; 3; 4; 5; 6]%nat.

(** An A record with a public address in 172.200.0.0/16. *)
Definition publicRecord : DNSRecord :=
  {| name := "example.com"; type := 1; typeName := "A"; TTL := 300;
     data := "172.200.1.1" |}.

End Inputs.

(* ================================================================== *)
(** * Part I, continued: the other functions of the services, the
      domain validator and the route options                          *)
(* ================================================================== *)

(** The functions of [services/zoneHealth.ts], [services/dnsResolver.ts]
    and [services/subdomainEnum.ts] that are not embedded above, together
    with [validateDomain] of [utils/domainValidator.ts] and the options
    that [routes/api.ts] computes for the subdomain enumeration.

    Conventions, in addition to those above.
    - [parseInt] returns the integer that the digits denote, or NaN.
      JavaScript returns the same number as long as its magnitude is
      below 2^53; statements that depend on the value of a larger
      number say so.
    - The regular expressions of the code are embedded as the
      recognisers of their languages. *)

From Stdlib Require DecimalPos.
From stdpp Require sorting.

(** ** More JavaScript built-ins: text *)
Module Text.

(** White space and line terminators among the 8-bit code units:
    TAB, LF, VT, FF, CR, SPACE and NBSP.  This is the class [\s] of
    a regular expression, what [trim] removes and what [parseInt]
    skips. *)
Definition isWhiteSpace (c : ascii) : bool :=
  let n := N_of_ascii c in
  ((9 <=? n) && (n <=? 13) || (n =? 32) || (n =? 160))%N.

(** The class [\d]. *)
Definition isDigit (c : ascii) : bool :=
  let n := N_of_ascii c in
  ((48 <=? n) && (n <=? 57))%N.

(** [c.toLowerCase()] on one code unit: A to Z, and the capital
    letters of Latin-1 (U+00C0 to U+00DE without the multiplication
    sign U+00D7). *)
Definition lowerChar (c : ascii) : ascii :=
  let n := N_of_ascii c in
  if ((65 <=? n) && (n <=? 90)
      || (192 <=? n) && (n <=? 222) && negb (n =? 215))%N
  then ascii_of_N (n + 32)
  else c.

(** [s.toLowerCase()] *)
Fixpoint toLowerCase (s : string) : string :=
  match s with
  | EmptyString => EmptyString
  | String c s' => String (lowerChar c) (toLowerCase s')
  end.

(** [s.trimStart()] *)
Fixpoint trimStart (s : string) : string :=
  match s with
  | EmptyString => EmptyString
  | String c s' => if isWhiteSpace c then trimStart s' else s
  end.

(** [s.trimEnd()] *)
Fixpoint trimEnd (s : string) : string :=
  match s with
  | EmptyString => EmptyString
  | String c s' =>
    match trimEnd s' with
    | EmptyString => if isWhiteSpace c then EmptyString else String c EmptyString
    | t => String c t
    end
  end.

(** [s.trim()] *)
Definition trim (s : string) : string := trimEnd (trimStart s).

(** [s.endsWith(p)] *)
Definition endsWith (s p : string) : bool :=
  (String.length p <=? String.length s)%nat
  && String.eqb (JS.skip (String.length s - String.length p) s) p.

(** The loop of [s.split(sep)] for a separator of one code unit;
    [cur] is the piece being read. *)
Fixpoint splitFrom (sep : ascii) (cur s : string) : list string :=
  match s with
  | EmptyString => [cur]
  | String c s' =>
    if Ascii.eqb c sep then cur :: splitFrom sep EmptyString s'
    else splitFrom sep (cur +:+ String c EmptyString) s'
  end.

(** [s.split(sep)] for a separator of one code unit. *)
Definition split (sep : ascii) (s : string) : list string :=
  splitFrom sep EmptyString s.

(** The loop of [s.split(/\s+/)]; [inRun] tells that the code unit
    before was white space. *)
Fixpoint splitWhiteSpaceFrom (inRun : bool) (cur s : string) : list string :=
  match s with
  | EmptyString => [cur]
  | String c s' =>
    if isWhiteSpace c then
      if inRun then splitWhiteSpaceFrom true cur s'
      else cur :: splitWhiteSpaceFrom true EmptyString s'
    else splitWhiteSpaceFrom false (cur +:+ String c EmptyString) s'
  end.

(** [s.split(/\s+/)]: the pieces between the runs of white space; a
    run at the start or at the end leaves an empty piece there. *)
Definition splitWhiteSpace (s : string) : list string :=
  splitWhiteSpaceFrom false EmptyString s.

(** The value of a digit in a radix up to 16, if it is one. *)
Definition digitValue (radix : Z) (c : ascii) : option Z :=
  let n := Z.of_N (N_of_ascii c) in
  let v :=
    if (48 <=? n) && (n <=? 57) then Some (n - 48)
    else if (97 <=? n) && (n <=? 102) then Some (n - 87)
    else if (65 <=? n) && (n <=? 70) then Some (n - 55)
    else None in
  match v with
  | Some d => if d <? radix then Some d else None
  | None => None
  end.

(** The longest prefix of digits, read as a number; [acc] holds the
    digits read so far, if any. *)
Fixpoint readDigits (radix : Z) (acc : option Z) (s : string) : option Z :=
  match s with
  | EmptyString => acc
  | String c s' =>
    match digitValue radix c with
    | Some d => readDigits radix (Some (radix * default 0 acc + d)) s'
    | None => acc
    end
  end.

(** The sign step of [parseInt]. *)
Definition readSigned (read : string -> option Z) (s : string) : option Z :=
  match s with
  | String "-" s' => Z.opp <$> read s'
  | String "+" s' => read s'
  | _ => read s
  end.

(** [parseInt(s, 10)]; [None] is NaN.  (The result is the integer
    that the digits denote; JavaScript keeps it exactly below
    2^53.) *)
Definition parseInt10 (s : string) : option Z :=
  readSigned (readDigits 10 None) (trimStart s).

(** [parseInt(s)]: as above, and a prefix 0x or 0X selects radix
    16. *)
Definition parseInt (s : string) : option Z :=
  readSigned
    (fun t =>
       match t with
       | String "0" (String x t') =>
         if Ascii.eqb x "x" || Ascii.eqb x "X" then readDigits 16 None t'
         else readDigits 10 None t
       | _ => readDigits 10 None t
       end)
    (trimStart s).

(** [xs.slice(-n)] *)
Definition lastN {T} (n : nat) (xs : list T) : list T :=
  drop (length xs - n) xs.

(** [[...new Set(xs)]] for numbers. *)
Definition uniqZ (xs : list Z) : list Z :=
  fold_left (fun acc x => if decide (x ∈ acc) then acc else acc ++ [x]) xs [].

End Text.

(** ** services/dnsResolver.ts: getAllDNSRecords *)
Module DnsRecords.
Import DnsResolver.

Definition recordTypes : list string :=
  [ "A"; "AAAA"; "CNAME"; "MX"; "NS"; "TXT"; "SOA"; "CAA" ].

(** The callback [getAllDNSRecords] maps over the record types, from
    the moment its query has settled: it stores a non-empty answer
    under the type, or pushes an error message.  The state is the
    [records] object and the [errors] array. *)
Definition collect (net : Network) (domain : string)
    (st : gmap string (list DNSRecord) * list string) (type : string)
    : gmap string (list DNSRecord) * list string :=
  match queryDoHResolver net (endpoint cloudflare_us) domain (inl type) 5000 with
  | inr response =>
    if JS.len (answer response) >? 0
    then (<[ type := answer response ]> (fst st), snd st)
    else st
  | inl msg =>
    (fst st, snd st ++ [ "Failed to fetch " +:+ type +:+ " records: " +:+ msg ])
  end.

(** [getAllDNSRecords]: the eight queries run concurrently;
    [completion] lists the positions of the record types in the
    order in which their queries settle. *)
Definition getAllDNSRecords (net : Network) (completion : list nat)
    (domain : string) : gmap string (list DNSRecord) * list string :=
  fold_left (fun st i =>
               match recordTypes !! i with
               | Some type => collect net domain st type
               | None => st
               end)
            completion (∅, []).

(** A completion order in which each of the eight queries settles
    exactly once. *)
Definition allSettle (completion : list nat) : Prop :=
  completion ≡ₚ seq 0 (length recordTypes).

(** What the query for a record type comes to. *)
Definition lookupOf (net : Network) (domain type : string) : string + DNSResponse :=
  queryDoHResolver net (endpoint cloudflare_us) domain (inl type) 5000.

(** The answer of a record type whose query delivers records. *)
Definition storedOf (net : Network) (domain type : string)
    : option (list DNSRecord) :=
  match lookupOf net domain type with
  | inr response =>
    if JS.len (answer response) >? 0 then Some (answer response) else None
  | inl _ => None
  end.

(** The error message of a record type whose query fails. *)
Definition failureOf (net : Network) (domain type : string) : option string :=
  match lookupOf net domain type with
  | inl msg => Some ("Failed to fetch " +:+ type +:+ " records: " +:+ msg)
  | inr _ => None
  end.

End DnsRecords.

(** ** analyzePropagation: the addresses of a result *)
Module Addresses.
Import DnsResolver.

(** The data of the A and AAAA records of a result, in the order of
    its answer: what [sortedIPs] sorts. *)
Definition addressData (r : PropagationResult) : list string :=
  match response r with
  | Some resp => map data (List.filter isAddress (answer resp))
  | None => []
  end.

(** The analysis of results none of which is successful. *)
Definition nothingPropagated : PropagationAnalysis :=
  {| propagated := false;
     percentage := JS.RInt 0;
     consistentRecords := true;
     summary := "DNS records have only propagated to 0% of global resolvers. Propagation may still be in progress.";
     ipAddresses := [];
     discrepancies := [] |}.

End Addresses.

(** ** services/zoneHealth.ts: the other validators and the report *)
Module ZoneReport.
Import DnsResolver ZoneHealth DnsRecords.

(** The text of a double quote inside a message. *)
Definition dq : string := String JS.quoteChar EmptyString.

Definition issueOf (s : severity) (c : category) (msg rec : string)
    : ZoneHealthIssue :=
  {| issue_severity := s; issue_category := c;
     message := msg; recommendation := Some rec |}.

(** *** validateSOA *)

(** The check of the refresh interval; [None] is the NaN that
    [parseInt] returns for a field that does not start with a number,
    for which both comparisons are false. *)
Definition refreshIssues (refreshInt : option Z) : list ZoneHealthIssue :=
  match refreshInt with
  | Some n =>
    if n <? 1200 then
      [ issueOf warning SOA
          ("SOA refresh interval (" +:+ JS.Number_toString n +:+ "s) is too low")
          "Increase refresh interval to at least 1200 seconds (20 minutes) to reduce DNS traffic." ]
    else if n >? 43200 then
      [ issueOf info SOA
          ("SOA refresh interval (" +:+ JS.Number_toString n +:+ "s) is quite high")
          "Consider reducing refresh interval for faster propagation of changes." ]
    else []
  | None => []
  end.

Definition validateSOA (records : list DNSRecord) : list ZoneHealthIssue :=
  match records with
  | [] =>
    [ issueOf critical SOA "No SOA record found"
        "Add a Start of Authority record. This is required for proper DNS operation." ]
  | soa :: _ =>
    let parts := Text.splitWhiteSpace (data soa) in
    if JS.len parts >=? 7 then
      let rname := nth 1 parts EmptyString in
      let refresh := nth 3 parts EmptyString in
      let issues1 := refreshIssues (Text.parseInt refresh) in
      let issues2 :=
        if TTL soa <? 300 then
          [ issueOf warning SOA
              ("SOA TTL (" +:+ JS.Number_toString (TTL soa) +:+ "s) is very low")
              "Low TTL increases DNS query load. Consider 300-3600 seconds for production." ]
        else [] in
      let issues3 :=
        if String.eqb rname EmptyString || negb (JS.includes rname ".") then
          [ issueOf warning SOA "SOA administrator email appears malformed"
              "Ensure admin email is in DNS format: admin.example.com (replace @ with .)" ]
        else [] in
      issues1 ++ issues2 ++ issues3
    else []
  end.

(** *** validateNS *)

(** The callback that maps a name server to its network: the last
    three labels of the name. *)
Definition networkOf (ns : string) : string :=
  JS.join "." (Text.lastN 3 (Text.split "." ns)).

Definition validateNS (records : list DNSRecord) (domain : string)
    : list ZoneHealthIssue :=
  if JS.len records =? 0 then
    [ issueOf critical NS "No NS records found"
        "Add at least two nameserver records for redundancy." ]
  else
    let issues1 :=
      if JS.len records <? 2 then
        [ issueOf warning NS
            ("Only " +:+ JS.Number_toString (JS.len records) +:+ " NS record(s) found")
            "Add at least 2 nameserver records for redundancy. RFC 1034 recommends at least 2." ]
      else [] in
    let nsHosts := map (fun r => Text.toLowerCase (data r)) records in
    let networks := JS.uniq (map networkOf nsHosts) in
    let issues2 :=
      if (JS.len networks =? 1) && (JS.len records >? 1) then
        [ issueOf warning NS "All nameservers appear to be on the same network"
            "Consider using nameservers from different networks/providers for better resilience." ]
      else [] in
    issues1 ++ issues2.

(** *** validateMX *)

Record MxEntry := {
  priority : Z;
  host : string;
  record : DNSRecord
}.

(** [x || d] for a number [x]: NaN and 0 give [d]. *)
Definition numberOr (x : option Z) (d : Z) : Z :=
  match x with
  | Some n => if n =? 0 then d else n
  | None => d
  end.

(** [x || d] for a string that may be undefined. *)
Definition stringOr (x : option string) (d : string) : string :=
  match x with
  | Some s => if String.eqb s EmptyString then d else s
  | None => d
  end.

(** The callback that parses one MX record. *)
Definition mxEntry (r : DNSRecord) : MxEntry :=
  let parts := Text.splitWhiteSpace (data r) in
  {| priority := numberOr (Text.parseInt (nth 0 parts EmptyString)) 0;
     host := stringOr (parts !! 1%nat) (data r);
     record := r |}.

(** [\d+] on a whole string. *)
Fixpoint allDigits (s : string) : bool :=
  match s with
  | EmptyString => true
  | String c s' => Text.isDigit c && allDigits s'
  end.

Definition isNumber (s : string) : bool :=
  negb (String.eqb s EmptyString) && allDigits s.

(** The test of the regular expression [^\d+\.\d+\.\d+\.\d+$]: four
    non-empty runs of digits with single dots between them. *)
Definition looksLikeIPv4 (s : string) : bool :=
  match Text.split "." s with
  | [a; b; c; d] => isNumber a && isNumber b && isNumber c && isNumber d
  | _ => false
  end.

Definition validateMX (records : list DNSRecord) (domain : string)
    : list ZoneHealthIssue :=
  if JS.len records =? 0 then
    [ issueOf info MX "No MX records found"
        "Add MX records if this domain should receive email." ]
  else
    let mxEntries := map mxEntry records in
    let priorities := Text.uniqZ (map priority mxEntries) in
    let issues1 :=
      if (JS.len priorities =? 1) && (JS.len mxEntries >? 1) then
        [ issueOf warning MX "All MX records have the same priority"
            "Consider varying priorities to designate primary/backup mail servers." ]
      else [] in
    let ipMX := List.filter (fun m => looksLikeIPv4 (host m)) mxEntries in
    let issues2 :=
      if JS.len ipMX >? 0 then
        [ issueOf critical MX "MX record(s) point directly to IP addresses"
            "MX records must point to hostnames, not IP addresses. This violates RFC 2181." ]
      else [] in
    issues1 ++ issues2.

(** *** validateTXT *)

Record TxtResult := {
  txt_issues : list ZoneHealthIssue;
  txt_hasSPF : bool;
  txt_hasDKIM : bool;
  txt_hasDMARC : bool
}.

(** The predicates of the two filters. *)
Definition mentionsSPF (r : DNSRecord) : bool :=
  JS.includes (Text.toLowerCase (data r)) "v=spf1".

Definition mentionsDMARC (r : DNSRecord) : bool :=
  JS.includes (Text.toLowerCase (data r)) "v=dmarc1".

(** The test of the [all] mechanism on the text of the one SPF
    record. *)
Definition hasAllMechanism (spf : string) : bool :=
  JS.includes spf "~all" || JS.includes spf "-all" || JS.includes spf "?all".

Definition validateTXT (records : list DNSRecord) (domain : string) : TxtResult :=
  if JS.len records =? 0 then
    {| txt_issues :=
         [ issueOf info TXT "No TXT records found"
             "Consider adding SPF, DKIM, and DMARC records for email security." ];
       txt_hasSPF := false; txt_hasDKIM := false; txt_hasDMARC := false |}
  else
    let spfRecords := List.filter mentionsSPF records in
    let spfPart :=
      if JS.len spfRecords =? 0 then
        ([ issueOf warning TXT "No SPF record found"
             ("Add an SPF record to prevent email spoofing. Example: " +:+ dq
              +:+ "v=spf1 include:_spf.google.com ~all" +:+ dq) ],
         false)
      else if JS.len spfRecords >? 1 then
        ([ issueOf critical TXT
             ("Multiple SPF records found ("
              +:+ JS.Number_toString (JS.len spfRecords) +:+ ")")
             "Merge into a single SPF record. Multiple SPF records cause validation failures." ],
         true)
      else
        match spfRecords with
        | first :: _ =>
          (if negb (JS.includes (data first) "~all")
              && negb (JS.includes (data first) "-all")
              && negb (JS.includes (data first) "?all")
           then
             [ issueOf warning TXT
                 ("SPF record missing " +:+ dq +:+ "all" +:+ dq +:+ " mechanism")
                 ("Add " +:+ dq +:+ "-all" +:+ dq +:+ " (hard fail) or " +:+ dq
                  +:+ "~all" +:+ dq
                  +:+ " (soft fail) at the end of your SPF record.") ]
           else [],
           true)
        | [] => ([], true)
        end in
    let dmarcRecords := List.filter mentionsDMARC records in
    {| txt_issues := fst spfPart;
       txt_hasSPF := snd spfPart;
       txt_hasDKIM := false;
       txt_hasDMARC := JS.len dmarcRecords >? 0 |}.

(** *** analyzeZoneHealth *)

Record ZoneHealthReport := {
  report_domain : string;
  report_timestamp : string;
  overallScore : Z;
  report_grade : grade;
  issues : list ZoneHealthIssue;
  records : gmap string (list DNSRecord);
  summary : Summary
}.

(** The issue pushed for a fetch error: it has no recommendation. *)
Definition fetchIssue (error : string) : ZoneHealthIssue :=
  {| issue_severity := warning; issue_category := General;
     message := error; recommendation := None |}.

(** [records[type] || []] *)
Definition recordsOf (records : gmap string (list DNSRecord)) (type : string)
    : list DNSRecord :=
  default [] (records !! type).

(** [records[type]?.length || 0] *)
Definition lengthOf (records : gmap string (list DNSRecord)) (type : string) : Z :=
  match records !! type with
  | Some l => JS.len l
  | None => 0
  end.

(** The part of [analyzeZoneHealth] after the lookups; [now] is the
    text of [new Date().toISOString()]. *)
Definition reportOf (domain now : string)
    (looked : gmap string (list DNSRecord) * list string) : ZoneHealthReport :=
  let records := fst looked in
  let errors := snd looked in
  let txtResult := validateTXT (recordsOf records "TXT") domain in
  let issues :=
    map fetchIssue errors
    ++ validateSOA (recordsOf records "SOA")
    ++ validateNS (recordsOf records "NS") domain
    ++ validateA (recordsOf records "A")
    ++ validateMX (recordsOf records "MX") domain
    ++ txt_issues txtResult in
  let summary :=
    {| hasSOA := lengthOf records "SOA" >? 0;
       hasNS := lengthOf records "NS" >? 0;
       hasA := lengthOf records "A" >? 0;
       hasMX := lengthOf records "MX" >? 0;
       hasSPF := txt_hasSPF txtResult;
       hasDKIM := txt_hasDKIM txtResult;
       hasDMARC := txt_hasDMARC txtResult;
       nsCount := lengthOf records "NS";
       mxCount := lengthOf records "MX";
       ttlConsistent := true |} in
  let score := calculateScore issues summary in
  {| report_domain := domain;
     report_timestamp := now;
     overallScore := score;
     report_grade := scoreToGrade score;
     issues := issues;
     records := records;
     summary := summary |}.

Definition analyzeZoneHealth (net : Network) (completion : list nat)
    (now domain : string) : ZoneHealthReport :=
  reportOf domain now (getAllDNSRecords net completion domain).

End ZoneReport.

(** ** What a report is compared with *)
Module ZoneReportSpec.
Import ZoneHealth ZoneReport.

(** The order in which [analyzeZoneHealth] pushes the issues of the
    categories. *)
Definition categoryRank (c : category) : nat :=
  match c with
  | General => 0 | SOA => 1 | NS => 2 | A => 3 | MX => 4 | TXT => 5 | CNAME => 6
  end%nat.

(** Better grades have higher ranks. *)
Definition gradeRank (g : grade) : nat :=
  match g with
  | gradeA => 4 | gradeB => 3 | gradeC => 2 | gradeD => 1 | gradeF => 0
  end%nat.

(** The issue that tells that a record type is absent. *)
Definition absenceOf (c : category) : option (severity * string) :=
  match c with
  | SOA => Some (critical, "No SOA record found")
  | NS => Some (critical, "No NS records found")
  | A => Some (info, "No A records found for root domain")
  | MX => Some (info, "No MX records found")
  | TXT => Some (info, "No TXT records found")
  | _ => None
  end.

(** The key of a category in the [records] object. *)
Definition keyOf (c : category) : string :=
  match c with
  | SOA => "SOA" | NS => "NS" | A => "A" | MX => "MX" | TXT => "TXT"
  | CNAME => "CNAME" | General => EmptyString
  end.

(** The summary flag of a category. *)
Definition flagOf (c : category) (s : Summary) : bool :=
  match c with
  | SOA => hasSOA s | NS => hasNS s | A => hasA s | MX => hasMX s
  | _ => false
  end.

(** A field of a record in presentation format: not empty, and
    without white space. *)
Fixpoint noWhiteSpace (s : string) : bool :=
  match s with
  | EmptyString => true
  | String c s' => negb (Text.isWhiteSpace c) && noWhiteSpace s'
  end.

Definition isField (s : string) : bool :=
  negb (String.eqb s EmptyString) && noWhiteSpace s.

(** The issues of one validator: all of its category, and a bounded
    number of them. *)
Definition grouped (c : category) (bound : nat) (l : list ZoneHealthIssue) : Prop :=
  map issue_category l = repeat c (length l) /\ (length l <= bound)%nat.

(** The summary of a zone without records. *)
Definition emptySummary : Summary :=
  {| hasSOA := false; hasNS := false; hasA := false; hasMX := false;
     hasSPF := false; hasDKIM := false; hasDMARC := false;
     nsCount := 0; mxCount := 0; ttlConsistent := true |}.

End ZoneReportSpec.

(** ** Inputs of further examples *)
Module Samples.
Import DnsResolver SubdomainEnum Inputs.

(** A network on which every query runs into its timeout. *)
Definition deadNet : Network :=
  {| fetch := fun _ _ _ _ => Aborted;
     elapsed := fun _ => 8000;
     clock := fun _ => "2026-01-25T12:00:08.000Z" |}.

(** The first result of a propagation check on that network, when
    Cloudflare settles first. *)
Definition firstAborted : PropagationResult :=
  nth 0 (checkPropagation deadNet cloudflareFirst "example.com" "A")
      (failed google_us).

(** A network that answers NS queries with a server error and every
    other query with one address. *)
Definition flakyNet : Network :=
  {| fetch := fun _ _ type _ =>
                if String.eqb type "NS" then NotOk 502 "Bad Gateway"
                else Delivered onePayload;
     elapsed := fun _ => 20;
     clock := fun _ => "2026-01-25T12:00:00.000Z" |}.

(** The eight record queries settle in the order in which they were
    started. *)
Definition typesInOrder : list nat := seq 0 8.

(** Records of a zone. *)
Definition zoneRecord (type : Z) (typeName : string) (ttl : Z) (text : string)
    : DNSRecord :=
  {| name := "example.com"; type := type; typeName := typeName;
     TTL := ttl; data := text |}.

Definition nsRecord (host : string) : DNSRecord := zoneRecord 2 "NS" 3600 host.
Definition mxRecord (text : string) : DNSRecord := zoneRecord 15 "MX" 3600 text.
Definition txtRecord (text : string) : DNSRecord := zoneRecord 16 "TXT" 3600 text.
Definition soaRecord (ttl : Z) (text : string) : DNSRecord :=
  zoneRecord 6 "SOA" ttl text.

(** A response whose answer holds the given records. *)
Definition responseWith (records : list DNSRecord) : DNSResponse :=
  {| status := 0; statusText := "NOERROR"; question := [];
     answer := records; authority := None; additional := None;
     AD := false; CD := false; TC := false; RD := true; RA := true |}.

(** A successful result of resolver [r] with the given answer. *)
Definition answered (r : Resolver) (records : list DNSRecord) : PropagationResult :=
  {| resolver := resolver_name r; region := resolver_region r;
     location := resolver_location r; result_status := success;
     response := Some (responseWith records); latencyMs := 20;
     result_error := None; timestamp := "2026-01-25T12:00:00.000Z" |}.

End Samples.
(** ** services/subdomainEnum.ts: queryCertificateTransparency *)
Module CertificateLog.

(** One element of the array that crt.sh answers with, as the loop
    reads it: its [name_value] is a string; or it has none
    ([undefined] or [null]); or reading its names throws, because
    the element is [null] or its [name_value] is no string. *)
Inductive Certificate :=
| Named (name_value : string)
| Unnamed
| Malformed.

(** What the request to crt.sh comes to: [fetch] or the parsing of
    the body throws (or the body is no array); the response is not
    OK; or the body is an array. *)
Inductive LogOutcome :=
| LogFailed
| LogNotOk (status : Z)
| LogDelivered (certs : list Certificate).

(** [subdomains.add(x)] on the set in insertion order. *)
Definition add (x : string) (seen : list string) : list string :=
  if decide (x ∈ seen) then seen else seen ++ [x].

(** [name.trim().toLowerCase()] *)
Definition cleanName (name : string) : string :=
  Text.toLowerCase (Text.trim name).

(** The condition of the first [if] in the loop over the names. *)
Definition isSubdomainName (domain clean : string) : bool :=
  negb (String.eqb clean EmptyString)
  && negb (JS.startsWith clean "*")
  && Text.endsWith clean ("." +:+ domain)
  && negb (String.eqb clean domain).

(** The body of the loop over the names of one certificate. *)
Definition addName (domain : string) (seen : list string) (name : string)
    : list string :=
  let clean := cleanName name in
  let seen1 := if isSubdomainName domain clean then add clean seen else seen in
  if String.eqb clean domain then add domain seen1 else seen1.

(** A clean name is kept when it is a subdomain name or the domain
    itself. *)
Definition kept (domain n : string) : Prop :=
  isSubdomainName domain n = true \/ n = domain.

(** The names of one certificate: [name_value.split('\n')]. *)
Definition namesOf (name_value : string) : list string :=
  Text.split "010" name_value.

(** The loop over the certificates.  An exception leaves the loop;
    the [catch] block logs it, and the names collected so far are
    returned. *)
Fixpoint collectNames (domain : string) (certs : list Certificate)
    (seen : list string) : list string :=
  match certs with
  | [] => seen
  | Named value :: rest =>
    collectNames domain rest (fold_left (addName domain) (namesOf value) seen)
  | Unnamed :: rest => collectNames domain rest seen
  | Malformed :: _ => seen
  end.

Definition queryCertificateTransparency (outcome : LogOutcome) (domain : string)
    : list string :=
  match outcome with
  | LogDelivered certs => collectNames domain certs []
  | LogNotOk _ => []
  | LogFailed => []
  end.

(** The certificates the loop reads: those before the first one
    that makes it throw. *)
Fixpoint readCertificates (certs : list Certificate) : list string :=
  match certs with
  | [] => []
  | Named value :: rest => value :: readCertificates rest
  | Unnamed :: rest => readCertificates rest
  | Malformed :: _ => []
  end.

End CertificateLog.

(** ** routes/api.ts: the options of the subdomain route *)
Module Routes.
Import SubdomainEnum ZoneReport.

(** A query parameter: a string, or something else (absent, an array
    or an object). *)
Definition param := option string.

(** [sslParam !== 'false'] *)
Definition isNotFalse (p : param) : bool :=
  match p with
  | Some s => negb (String.eqb s "false")
  | None => true
  end.

(** [Math.min(parseInt(typeof limitParam === 'string' ? limitParam :
    '100') || 100, 200)] *)
Definition limitOf (limitParam : param) : Z :=
  Z.min (numberOr (Text.parseInt (default "100" limitParam)) 100) 200.

(** The options [GET /subdomains/:domain] passes to
    [enumerateSubdomains]. *)
Definition subdomainOptions (sslParam limitParam : param) : Options :=
  {| checkSSL := isNotFalse sslParam;
     maxResults := limitOf limitParam;
     checkResolution := true;
     includeCommon := true |}.

(** The options [GET /scan/:domain] passes: the other two take their
    defaults. *)
Definition scanOptions : Options :=
  {| checkSSL := true;
     maxResults := 50;
     checkResolution := checkResolution defaultOptions;
     includeCommon := includeCommon defaultOptions |}.

End Routes.

(** ** What the result of an enumeration is compared with *)
Module EnumerationSpec.
Import SubdomainEnum.

Definition fromLog (e : SubdomainResult) : bool :=
  String.eqb (source e) "Certificate Transparency".

Definition fromWordlist (e : SubdomainResult) : bool :=
  String.eqb (source e) "Common Subdomain List".

(** A completion order of the word-list probes in which no probe
    finishes twice. *)
Definition finishOnce (completion : list nat) : Prop := NoDup completion.

(** What the members of one entry tell about each other. *)
Record coherent (o : Options) (e : SubdomainResult) : Prop := {
  known_source :
    source e = "Certificate Transparency" \/ source e = "Common Subdomain List";
  ssl_needs_resolution :
    hasSSL e = true -> resolves e = true /\ checkSSL o = true;
  ssl_details : hasSSL e = true <-> sslDetails e <> None;
  resolves_with_address :
    resolves e = true <-> exists ip ips, ipAddresses e = Some (ip :: ips);
  wordlist_resolves :
    source e = "Common Subdomain List" -> resolves e = true;
  unchecked_resolution :
    checkResolution o = false -> source e = "Certificate Transparency" ->
    resolves e = false /\ ipAddresses e = None
}.

(** A host that takes the certificate names from the log. *)
Definition readsLog (h : Host) (log : string -> CertificateLog.LogOutcome) : Prop :=
  forall domain,
    certificateNames h domain
    = CertificateLog.queryCertificateTransparency (log domain) domain.

End EnumerationSpec.

(** ** utils/domainValidator.ts: validateDomain *)
Module DomainValidator.

(** What a route hands to [validateDomain]: a string, an array of
    strings, or nothing. *)
Inductive Input :=
| Str (s : string)
| Arr (xs : list string)
| Undefined.

Record DomainValidationResult := {
  isValid : bool;
  domain : string;
  tld : string;
  sld : string;
  subdomain : option string;
  errors : list string
}.

(** [Array.isArray(input) ? input[0] : input] *)
Definition rawInputOf (input : Input) : option string :=
  match input with
  | Str s => Some s
  | Arr xs => xs !! 0%nat
  | Undefined => None
  end.

(** [s.replace(/^https?:\/\//, '')] *)
Definition removeProtocol (s : string) : string :=
  if JS.startsWith s "https://" then JS.skip 8 s
  else if JS.startsWith s "http://" then JS.skip 7 s
  else s.

(** [s.replace(/^www\./, '')] *)
Definition removeWww (s : string) : string :=
  if JS.startsWith s "www." then JS.skip 4 s else s.

(** [s.split(sep)[0]] *)
Definition firstPiece (sep : ascii) (s : string) : string :=
  hd EmptyString (Text.split sep s).

(** The chain that cleans the input. *)
Definition clean (rawInput : string) : string :=
  firstPiece ":"
    (firstPiece "#"
       (firstPiece "?"
          (firstPiece "/"
             (removeWww (removeProtocol (Text.trim (Text.toLowerCase rawInput))))))).

(** The class [a-z0-9]. *)
Definition isAlnum (c : ascii) : bool :=
  let n := N_of_ascii c in
  ((97 <=? n) && (n <=? 122) || (48 <=? n) && (n <=? 57))%N.

(** The class [a-z0-9.-]. *)
Definition isDomainChar (c : ascii) : bool :=
  isAlnum c || Ascii.eqb c "." || Ascii.eqb c "-".

(** The rest of the pattern after its first character:
    [[a-z0-9.-]*[a-z0-9]$]. *)
Fixpoint middleThenLast (s : string) : bool :=
  match s with
  | EmptyString => false
  | String c EmptyString => isAlnum c
  | String c s' => isDomainChar c && middleThenLast s'
  end.

(** The test of [^[a-z0-9][a-z0-9.-]*[a-z0-9]$]. *)
Definition validChars (s : string) : bool :=
  match s with
  | String c s' => isAlnum c && middleThenLast s'
  | EmptyString => false
  end.

(** The loop over the labels: the first label that starts or ends
    with a hyphen, or is longer than 63, pushes one error and ends
    the loop. *)
Fixpoint labelErrors (labels : list string) : list string :=
  match labels with
  | [] => []
  | label :: rest =>
    if JS.startsWith label "-" || Text.endsWith label "-" then
      [ "Domain labels cannot start or end with a hyphen" ]
    else if (Z.of_nat (String.length label) >? 63)%Z then
      [ "Domain labels cannot exceed 63 characters" ]
    else labelErrors rest
  end.

(** [labels[labels.length - k] || ''] *)
Definition fromEnd (k : nat) (labels : list string) : string :=
  if (k <=? length labels)%nat
  then default EmptyString (labels !! (length labels - k)%nat)
  else EmptyString.

(** The test of [^\d+$]. *)
Definition isNumeric (s : string) : bool :=
  negb (String.eqb s EmptyString) && ZoneReport.allDigits s.

Definition validateDomain (input : Input) : DomainValidationResult :=
  match rawInputOf input with
  | None | Some EmptyString =>
    {| isValid := false; domain := EmptyString; tld := EmptyString;
       sld := EmptyString; subdomain := None;
       errors := [ "Domain name is required" ] |}
  | Some rawInput =>
    let domain := clean rawInput in
    let errors1 :=
      if (Z.of_nat (String.length domain) >? 253)%Z then
        [ "Domain name exceeds maximum length of 253 characters" ]
      else [] in
    let errors2 :=
      if negb (validChars domain) && (Z.of_nat (String.length domain) >? 1)%Z then
        [ "Domain contains invalid characters. Use only letters, numbers, hyphens, and dots." ]
      else [] in
    let errors3 :=
      if JS.includes domain ".." then [ "Domain cannot contain consecutive dots" ]
      else [] in
    let labels := Text.split "." domain in
    let errors4 := labelErrors labels in
    let tld := fromEnd 1 labels in
    let sld := fromEnd 2 labels in
    let subdomain :=
      if (JS.len labels >? 2)%Z
      then Some (JS.join "." (take (length labels - 2) labels))
      else None in
    let errors5 :=
      if String.eqb tld EmptyString then
        [ "Domain must have a TLD (e.g., .com, .net)" ]
      else if (JS.len labels <? 2)%Z then
        [ "Domain must have at least a second-level domain and TLD" ]
      else [] in
    let errors6 :=
      if isNumeric tld then [ "Please enter a domain name, not an IP address" ]
      else [] in
    let errors := errors1 ++ errors2 ++ errors3 ++ errors4 ++ errors5 ++ errors6 in
    {| isValid := (JS.len errors =? 0)%Z;
       domain := if (JS.len labels >=? 2)%Z then sld +:+ "." +:+ tld else domain;
       tld := tld;
       sld := sld;
       subdomain := subdomain;
       errors := errors |}
  end.

(** [normalizeToRootDomain] *)
Definition normalizeToRootDomain (input : string) : string :=
  domain (validateDomain (Str input)).

(** A label of a host name: not empty, of letters, digits and
    hyphens, at most 63 of them, and no hyphen at either end. *)
Definition isLabel (label : string) : Prop :=
  label <> EmptyString /\
  Forall (fun c => isAlnum c = true \/ c = "-"%char) (list_ascii_of_string label) /\
  JS.startsWith label "-" = false /\ Text.endsWith label "-" = false /\
  (String.length label <= 63)%nat.

End DomainValidator.

(** ** Inputs of the examples on the certificate log and the routes *)
Module LogSamples.
Import DnsResolver SubdomainEnum CertificateLog Inputs.

(** A line feed. *)
Definition lf : string := String "010" EmptyString.

(** An answer of crt.sh: a certificate for a wildcard, a name and the
    domain itself; an entry without names; a certificate whose name
    has capitals and spaces around it. *)
Definition sampleLog (domain : string) : LogOutcome :=
  LogDelivered
    [ Named ("*.example.com" +:+ lf +:+ "www.example.com" +:+ lf +:+ "example.com");
      Unnamed;
      Named " Shop.Example.com " ].

(** A host that reads the certificate names from [log]; every name
    resolves on it, and no HTTPS request succeeds. *)
Definition logHost (log : string -> LogOutcome) : Host :=
  {| net := liveNet;
     certificateNames := fun domain => queryCertificateTransparency (log domain) domain;
     head := fun _ => Threw None;
     localeCompare := Collation.compare;
     now := "2026-01-25T12:00:00.000Z" |}.

End LogSamples.
(* ================================================================== *)
(** * Part II: properties                                             *)
(* ================================================================== *)

(** ** Zone health: the A check and the score *)
Section ZoneHealthProps.
Import ZoneHealth Inputs.

Lemma prefix_app_l (a b s : string) :
  String.prefix (a +:+ b) s = true -> String.prefix a s = true.
Proof.
  revert s. induction a as [|c a IH]; intros s H.
  - destruct s; reflexivity.
  - change (String c a +:+ b) with (String c (a +:+ b)) in H.
    destruct s as [|d s]; [discriminate|].
    cbn in *. destruct (Ascii.ascii_dec c d); [auto|discriminate].
Qed.

(** The critical A issue is raised exactly when the filter of
    [validateA] keeps a record. *)
Lemma validateA_critical records :
  existsb isCriticalA (validateA records)
  = existsb (fun r => isPrivateIP (data r)) records.
Proof.
  unfold validateA, JS.len.
  destruct records as [|r records]; [reflexivity|].
  change (Z.of_nat (length (r :: records)) =? 0) with false.
  cbv iota.
  generalize (List.filter (fun r => TTL r <? 60) (r :: records)) as low.
  generalize (r :: records) as l. clear. intros l low.
  rewrite existsb_app.
  replace (existsb isCriticalA match low with [] => [] | r0 :: _ => _ end)
    with false by (destruct low; reflexivity).
  rewrite orb_false_r.
  induction l as [|x l IH]; [reflexivity|].
  cbn [List.filter existsb].
  destruct (isPrivateIP (data x)); [reflexivity|exact IH].
Qed.

(** Every address in the ranges the specification lists is caught
    by the filter. *)
Lemma private_prefix_caught ip :
  matchesPrivatePrefix ip = true -> isPrivateIP ip = true.
Proof.
  unfold matchesPrivatePrefix, specPrivatePrefixes, isPrivateIP, JS.startsWith.
  cbn [existsb]. intros H.
  repeat (apply orb_prop in H as [H|H]);
    try discriminate;
    try (rewrite H; repeat rewrite orb_true_r; reflexivity).
  all: match type of H with
       | String.prefix ?p _ = true =>
         let q := eval vm_compute in (JS.skip 5 p) in
         rewrite (prefix_app_l "172.2" q ip H)
       end; repeat rewrite orb_true_r; reflexivity.
Qed.

(** C3: on the A record 172.200.1.1, an address outside the private
    ranges 10., 172.16. to 172.31., 192.168. and 127., [validateA]
    raises the critical A issue although no record matches a
    private-range prefix. *)
Theorem validateA_flags_public_address :
  matchesPrivatePrefix (data publicRecord) = false /\
  existsb isCriticalA (validateA [publicRecord]) = true.
Proof. split; reflexivity. Qed.

End ZoneHealthProps.

(** ** Zone health: score and grade *)
Section ScoreProps.
Import ZoneHealth ZoneHealthSpec.

Lemma deduct_fold issues acc :
  fold_left deduct issues acc
  = acc - 20 * countOf critical issues - 10 * countOf warning issues
        - 2 * countOf info issues.
Proof.
  revert acc. induction issues as [|i issues IH]; intros acc.
  - unfold countOf, JS.len. simpl. lia.
  - cbn [fold_left]. rewrite IH. unfold deduct, countOf, JS.len.
    cbn [List.filter].
    destruct (issue_severity i); cbn [severity_eqb length]; lia.
Qed.

(** C5: the score is 100 minus 20 per critical, 10 per warning and 2
    per info issue, plus 5 for two or more NS records, 5 for SPF, 5
    for the DMARC flag and 3 for two or more MX records, clamped to
    [0,100]; the grade is A from 90, B from 80, C from 70, D from 60
    and F below. *)
Theorem score_and_grade issues summary score :
  calculateScore issues summary = clamp (rawScore issues summary) /\
  0 <= calculateScore issues summary <= 100 /\
  scoreToGrade score = gradeOf score.
Proof.
  assert (Hs : calculateScore issues summary = clamp (rawScore issues summary)).
  { unfold calculateScore, rawScore, clamp. rewrite deduct_fold.
    destruct (Z.geb_spec (nsCount summary) 2), (Z.leb_spec 2 (nsCount summary));
      try lia;
    destruct (hasSPF summary), (hasDMARC summary);
    destruct (Z.geb_spec (mxCount summary) 2), (Z.leb_spec 2 (mxCount summary));
      try lia;
    repeat match goal with
           | |- context [?a <? ?b] => destruct (Z.ltb_spec a b)
           end; lia. }
  split; [exact Hs|]. split.
  - rewrite Hs. unfold clamp.
    repeat match goal with
           | |- context [?a <? ?b] => destruct (Z.ltb_spec a b)
           end; lia.
  - unfold scoreToGrade, gradeOf.
    repeat match goal with
           | |- context [?a >=? ?b] => destruct (Z.geb_spec a b)
           end;
    repeat match goal with
           | |- context [?a <=? ?b] => destruct (Z.leb_spec a b)
           end; try reflexivity; lia.
Qed.

End ScoreProps.

(** ** JSON.stringify tells arrays of strings apart *)
Section JsonProps.
Import JS.

Lemma app_assoc_string (a b c : string) : (a +:+ b) +:+ c = a +:+ (b +:+ c).
Proof.
  induction a as [|x a IH]; [reflexivity|].
  change (String x ((a +:+ b) +:+ c) = String x (a +:+ (b +:+ c))).
  now rewrite IH.
Qed.

Lemma unquote_escapeChar c rest :
  unquoteJSON (escapeChar c +:+ rest) = consFst c (unquoteJSON rest).
Proof. destruct c as [[] [] [] [] [] [] [] []]; reflexivity. Qed.

Lemma unquote_escape s rest :
  unquoteJSON (escape s +:+ String quoteChar rest) = Some (s, rest).
Proof.
  induction s as [|c s IH]; [reflexivity|].
  cbn [escape]. rewrite app_assoc_string, unquote_escapeChar, IH. reflexivity.
Qed.

Lemma quoteJSON_app x rest :
  quoteJSON x +:+ rest = String quoteChar (escape x +:+ String quoteChar rest).
Proof.
  unfold quoteJSON.
  change (String quoteChar ?a +:+ ?b) with (String quoteChar (a +:+ b)).
  now rewrite app_assoc_string.
Qed.

Lemma items_cons x xs :
  items (x :: xs)
  = String quoteChar (escape x +:+ String quoteChar
      match xs with
      | [] => "]"
      | _ :: _ => "," +:+ items xs
      end).
Proof.
  unfold items, join. destruct xs as [|y xs].
  - cbn [map String.concat]. apply quoteJSON_app.
  - change (String.concat "," (map quoteJSON (x :: y :: xs)))
      with (quoteJSON x +:+ "," +:+ String.concat "," (map quoteJSON (y :: xs))).
    rewrite !app_assoc_string. apply quoteJSON_app.
Qed.

Lemma items_inj xs ys : items xs = items ys -> xs = ys.
Proof.
  revert ys. induction xs as [|x xs IH]; intros [|y ys] H.
  - reflexivity.
  - rewrite items_cons in H. discriminate.
  - rewrite items_cons in H. discriminate.
  - rewrite !items_cons in H. injection H as H.
    apply (f_equal unquoteJSON) in H. rewrite !unquote_escape in H.
    injection H as -> H.
    destruct xs as [|x' xs], ys as [|y' ys]; try discriminate.
    + reflexivity.
    + injection H as H. f_equal. apply IH. exact H.
Qed.

Lemma JSON_stringify_inj xs ys :
  JSON_stringify xs = JSON_stringify ys -> xs = ys.
Proof.
  unfold JSON_stringify. intros H. apply items_inj. unfold items.
  change ("[" +:+ ?a) with (String "[" a) in H. now injection H.
Qed.

Lemma JSON_stringify_eqb xs ys :
  String.eqb (JSON_stringify xs) (JSON_stringify ys) = bool_decide (xs = ys).
Proof.
  case_bool_decide as H.
  - subst. apply String.eqb_refl.
  - apply String.eqb_neq. intros E. apply H, JSON_stringify_inj, E.
Qed.

End JsonProps.

(** ** analyzePropagation: the consistency loop *)
Section AnalyzeProps.
Import DnsResolver Consistency.

Lemma zip_nil_r {A B} (l : list A) : zip l (@nil B) = [].
Proof. destruct l; reflexivity. Qed.

Lemma lookup_map {A B} (f : A -> B) (l : list A) (i : nat) :
  map f l !! i = f <$> l !! i.
Proof.
  revert i. induction l as [|x l IH]; intros [|i]; try reflexivity. apply IH.
Qed.

Lemma answered_le_successful results :
  (length (answeredOf results) <= length (successfulOf results))%nat.
Proof. unfold answeredOf. apply filter_length_le. Qed.

Lemma compareAt_step successful answered first st k a r :
  answered !! k = Some a ->
  successful !! k = Some r ->
  compareAt successful (map sortedIPs answered) (JS.JSON_stringify first) st k
  = Some (if differsFrom first (r, a)
          then (false, snd st ++ [discrepancyText (r, a)])
          else st).
Proof.
  intros Ha Hr. unfold compareAt.
  rewrite lookup_map, Ha. cbn [fmap option_fmap option_map mbind option_bind].
  rewrite JSON_stringify_eqb, Hr. unfold differsFrom. cbn [snd].
  destruct (bool_decide (sortedIPs a = first)); reflexivity.
Qed.

(** The loop from index [k] on: it never reads past the arrays, and
    it pushes one message for each pair that differs from the first
    address list. *)
Lemma consistency_loop results first n :
  forall k c d,
    (k + n = length (answeredOf results))%nat ->
    forEach (compareAt (successfulOf results)
                       (map sortedIPs (answeredOf results))
                       (JS.JSON_stringify first))
            (seq k n) (c, d)
    = Some (c && isEmpty (discrepanciesFrom k first results),
            d ++ discrepanciesFrom k first results).
Proof.
  pose proof (answered_le_successful results) as Hle.
  unfold discrepanciesFrom, pairsFrom.
  induction n as [|n IH]; intros k c d Hk.
  - rewrite (drop_ge (answeredOf results)) by lia.
    rewrite zip_nil_r. cbn. now rewrite andb_true_r, app_nil_r.
  - destruct (lookup_lt_is_Some_2 (answeredOf results) k) as [a Ha]; [lia|].
    destruct (lookup_lt_is_Some_2 (successfulOf results) k) as [r Hr]; [lia|].
    rewrite (drop_S _ _ _ Ha), (drop_S _ _ _ Hr).
    cbn [seq forEach]. rewrite (compareAt_step _ _ _ _ _ a r Ha Hr).
    cbn [zip zip_with List.filter mbind option_bind].
    destruct (differsFrom first (r, a)).
    + rewrite IH by lia. cbn [map snd fst isEmpty]. f_equal. f_equal.
      * rewrite andb_false_r. reflexivity.
      * rewrite <- app_assoc. reflexivity.
    + rewrite IH by lia. reflexivity.
Qed.

Lemma checkConsistency_returns results :
  checkConsistency (successfulOf results) (map sortedIPs (answeredOf results))
  = Some (isEmpty (discrepanciesFrom 1 (firstSet results) results),
          discrepanciesFrom 1 (firstSet results) results).
Proof.
  unfold checkConsistency, JS.len. rewrite length_map.
  destruct (Z.gtb_spec (Z.of_nat (length (answeredOf results))) 1) as [Hgt|Hle].
  - unfold firstSet.
    destruct (answeredOf results) as [|r0 rest] eqn:Hans; [cbn in Hgt; lia|].
    cbn [map lookup list_lookup mbind option_bind].
    change (sortedIPs r0 :: map sortedIPs rest) with (map sortedIPs (r0 :: rest)).
    rewrite <- Hans.
    rewrite (consistency_loop results (sortedIPs r0)) by (rewrite Hans; cbn; lia).
    reflexivity.
  - assert (Hnil : discrepanciesFrom 1 (firstSet results) results = []).
    { unfold discrepanciesFrom, pairsFrom.
      rewrite (drop_ge (answeredOf results)) by lia.
      now rewrite zip_nil_r. }
    rewrite Hnil. reflexivity.
Qed.

(** What [analyzePropagation] returns: it never throws, and its
    fields are as follows. *)
Lemma analyzePropagation_returns results :
  exists a,
    analyzePropagation results = Some a /\
    percentage a = percentageOf results /\
    discrepancies a = discrepanciesFrom 1 (firstSet results) results /\
    consistentRecords a
      = isEmpty (discrepanciesFrom 1 (firstSet results) results) /\
    propagated a = JS.geInt (percentage a) 70 && consistentRecords a.
Proof.
  unfold analyzePropagation.
  fold (successfulOf results). fold (answeredOf results).
  rewrite checkConsistency_returns. cbn [mbind option_bind fst snd].
  eexists. split; [reflexivity|]. cbn. repeat split; reflexivity.
Qed.

(** C10: [consistentRecords] is true exactly when the
    [discrepancies] list is empty. *)
Theorem consistent_iff_no_discrepancies results :
  exists a,
    analyzePropagation results = Some a /\
    (consistentRecords a = true <-> discrepancies a = []).
Proof.
  destruct (analyzePropagation_returns results) as (a & Ha & _ & Hd & Hc & _).
  exists a. split; [exact Ha|].
  rewrite Hc, Hd. destruct (discrepanciesFrom _ _ _); cbn; split; congruence.
Qed.

End AnalyzeProps.

(** ** analyzePropagation: which resolvers the discrepancies name *)
Section DiscrepancyProps.
Import DnsResolver Consistency Inputs.

Lemma no_pair_differs first :
  forall answered successful,
    (length answered <= length successful)%nat ->
    List.filter (differsFrom first) (zip successful answered) = [] ->
    Forall (fun a => sortedIPs a = first) answered.
Proof.
  induction answered as [|a answered IH]; intros [|r successful] Hlen Hnil;
    try constructor; cbn in Hlen; try lia.
  - cbn [zip zip_with List.filter] in Hnil. unfold differsFrom at 1 in Hnil.
    cbn [snd] in Hnil.
    destruct (bool_decide_reflect (sortedIPs a = first)); [assumption|discriminate].
  - cbn [zip zip_with List.filter] in Hnil.
    destruct (differsFrom first (r, a)); [discriminate|].
    apply (IH successful); [lia|exact Hnil].
Qed.

(** With no discrepancy, every answered result has the first one's
    address list. *)
Lemma all_agree_with_first results :
  discrepanciesFrom 1 (firstSet results) results = [] ->
  Forall (fun a => sortedIPs a = firstSet results) (answeredOf results).
Proof.
  unfold discrepanciesFrom, pairsFrom. intros H.
  apply map_eq_nil in H.
  pose proof (answered_le_successful results) as Hle.
  apply no_pair_differs in H; [|rewrite !length_drop; lia].
  unfold firstSet in *.
  destruct (answeredOf results) as [|a0 rest]; constructor; [reflexivity|].
  exact H.
Qed.

Lemma zip_diag {T} (l : list T) : zip l l = map (fun x => (x, x)) l.
Proof. induction l as [|x l IH]; [reflexivity|]. cbn. now rewrite <- IH. Qed.

Lemma aligned_discrepancies results :
  answeredOf results = successfulOf results ->
  discrepanciesFrom 1 (firstSet results) results
  = map discrepancyOf (deviatingFromFirst results).
Proof.
  intros Hall. unfold discrepanciesFrom, pairsFrom, deviatingFromFirst.
  rewrite Hall, zip_diag.
  induction (drop 1 (successfulOf results)) as [|r l IH]; [reflexivity|].
  cbn [map List.filter]. unfold differsFrom at 1. cbn [snd].
  destruct (negb (bool_decide (sortedIPs r = firstSet results)));
    cbn [map]; now rewrite IH.
Qed.

(** Where a successful result carries no response, the name of a
    discrepancy is read one position too early: Quad9's addresses
    are reported under Cloudflare's name. *)
Lemma name_shifts_past_silent_result :
  exists a,
    analyzePropagation silentFirst = Some a /\
    discrepancies a = [ "Cloudflare DNS returned different IPs: 203.0.113.9" ].
Proof. eexists. split; [vm_compute; reflexivity|reflexivity]. Qed.

(** C2, as stated, fails: in [oddFirst] Google is the one resolver
    whose address list differs from the list the others agree on,
    and no entry of [discrepancies] names it. *)
Lemma first_resolver_not_named :
  ~ (forall results r a,
       analyzePropagation results = Some a ->
       oddOneOut results r ->
       In (discrepancyOf r) (discrepancies a)).
Proof.
  intros H.
  destruct (analyzePropagation oddFirst) as [a|] eqn:Ha; [|discriminate].
  specialize (H oddFirst (succeeded google_us ["203.0.113.9"]) a Ha).
  assert (Hodd : oddOneOut oddFirst (succeeded google_us ["203.0.113.9"])).
  { split; [left; reflexivity|].
    exists ["203.0.113.5"]. split; [discriminate|].
    intros r' [<-|[<-|[<-|[]]]] Hne; [congruence|reflexivity|reflexivity]. }
  specialize (H Hodd).
  vm_compute in Ha. injection Ha as <-.
  cbn in H. destruct H as [H|[H|[]]]; discriminate.
Qed.

(** C2, amended: two answered resolvers with different sorted address
    lists make [consistentRecords] false; and when every successful
    result carries a response, [discrepancies] lists, in order, the
    successful resolvers after the first whose sorted address list
    differs from the first one's, each with its own name and list. *)
Theorem discrepancies_name_deviations_from_first results :
  exists a,
    analyzePropagation results = Some a /\
    ((exists r1 r2, In r1 (answeredOf results) /\ In r2 (answeredOf results) /\
                    sortedIPs r1 <> sortedIPs r2) ->
     consistentRecords a = false) /\
    (answeredOf results = successfulOf results ->
     discrepancies a = map discrepancyOf (deviatingFromFirst results)).
Proof.
  destruct (analyzePropagation_returns results) as (a & Ha & _ & Hd & Hc & _).
  exists a. split; [exact Ha|]. split.
  - intros (r1 & r2 & H1 & H2 & Hne). rewrite Hc.
    destruct (discrepanciesFrom 1 (firstSet results) results) eqn:E; [|reflexivity].
    exfalso. apply all_agree_with_first in E.
    rewrite List.Forall_forall in E.
    apply Hne. now rewrite (E r1 H1), (E r2 H2).
  - intros Hall. rewrite Hd. now apply aligned_discrepancies.
Qed.

(** The amended C2 on [oddFirst]. *)
Lemma discrepancies_name_deviations_witness :
  exists a,
    analyzePropagation oddFirst = Some a /\
    consistentRecords a = false /\
    discrepancies a
    = [ "Cloudflare DNS returned different IPs: 203.0.113.5";
        "Quad9 DNS returned different IPs: 203.0.113.5" ].
Proof.
  destruct (discrepancies_name_deviations_from_first oddFirst)
    as (a & Ha & Hc & Hd).
  exists a. split; [exact Ha|]. split.
  - apply Hc.
    exists (succeeded google_us ["203.0.113.9"]),
           (succeeded cloudflare_us ["203.0.113.5"]).
    split; [left; reflexivity|]. split; [right; left; reflexivity|].
    discriminate.
  - rewrite Hd; reflexivity.
Defined.

End DiscrepancyProps.

(** ** The DoH client and the propagation check *)
Section ResolverProps.
Import DnsResolver Inputs.

(** With Status missing the status is 0, but the status text is
    looked up under the missing key. *)
Lemma missing_Status_text :
  status (parseResponse emptyPayload) = 0 /\
  statusText (parseResponse emptyPayload) = "UNKNOWN(undefined)".
Proof. split; reflexivity. Qed.

(** C4, as stated, fails: with RD missing from the payload the
    parsed flag is true, not false. *)
Lemma missing_RD_defaults_to_true :
  json_RD emptyPayload = Missing /\
  json_RA emptyPayload = Missing /\
  RD (parseResponse emptyPayload) <> false /\
  RA (parseResponse emptyPayload) <> false.
Proof. repeat split; discriminate. Qed.

(** C4, amended: a delivered payload is parsed without an error;
    a missing Status yields status 0, a missing question or answer
    list the empty list, a missing AD, CD or TC flag false, and a
    missing RD or RA flag true. *)
Theorem missing_members_default net endpoint domain recordType timeout d :
  fetch net endpoint domain (mnemonicOf recordType) timeout = Delivered d ->
  exists r,
    queryDoHResolver net endpoint domain recordType timeout = inr r /\
    (json_Status d = Missing -> status r = 0) /\
    (json_Question d = Missing -> question r = []) /\
    (json_Answer d = Missing -> answer r = []) /\
    (json_AD d = Missing -> AD r = false) /\
    (json_CD d = Missing -> CD r = false) /\
    (json_TC d = Missing -> TC r = false) /\
    (json_RD d = Missing -> RD r = true) /\
    (json_RA d = Missing -> RA r = true).
Proof.
  intros Hfetch. exists (parseResponse d). split.
  - unfold queryDoHResolver. now rewrite Hfetch.
  - unfold parseResponse. cbn.
    repeat split; intros ->; reflexivity.
Qed.

(** The amended C4 on the payload [{}]. *)
Lemma missing_members_default_witness :
  exists r,
    queryDoHResolver quietNet (endpoint cloudflare_us) "example.com" (inl "A") 5000
    = inr r /\
    status r = 0 /\ question r = [] /\ answer r = [] /\
    AD r = false /\ CD r = false /\ TC r = false /\
    RD r = true /\ RA r = true.
Proof.
  destruct (missing_members_default quietNet (endpoint cloudflare_us)
              "example.com" (inl "A") 5000 emptyPayload eq_refl)
    as (r & Hr & H1 & H2 & H3 & H4 & H5 & H6 & H7 & H8).
  exists r. split; [exact Hr|].
  repeat split; auto.
Defined.

Lemma cloudflareFirst_settlesOnce : settlesOnce cloudflareFirst.
Proof. unfold settlesOnce, cloudflareFirst. cbn. apply perm_swap. Qed.

Lemma probe_answered net domain recordType entry :
  isSuccess (probe net domain recordType entry) = true ->
  hasAnswer (probe net domain recordType entry) = true.
Proof.
  unfold probe.
  destruct (queryDoHResolver net (endpoint (snd entry)) domain (inl recordType) 8000)
    as [msg|resp]; [|reflexivity].
  unfold isSuccess. cbn [result_status].
  destruct (JS.includes msg "timeout"); discriminate.
Qed.

Lemma filter_answered (l : list PropagationResult) :
  Forall (fun r => isSuccess r = true -> hasAnswer r = true) l ->
  List.filter hasAnswer (List.filter isSuccess l) = List.filter isSuccess l.
Proof.
  induction 1 as [|r l Hr _ IH]; [reflexivity|].
  cbn [List.filter]. destruct (isSuccess r) eqn:Es; [|exact IH].
  cbn [List.filter]. now rewrite (Hr eq_refl), IH.
Qed.

(** A result of the propagation check is successful exactly when it
    carries a response, so the name and the address list of a
    discrepancy belong to the same resolver. *)
Lemma checkPropagation_answered net completion domain recordType :
  Consistency.answeredOf (checkPropagation net completion domain recordType)
  = Consistency.successfulOf (checkPropagation net completion domain recordType).
Proof.
  apply filter_answered, List.Forall_forall. intros r Hr.
  apply list_elem_of_In, list_elem_of_omap in Hr as (i & _ & Hi).
  destruct (GLOBAL_RESOLVERS !! i) as [entry|]; [|discriminate].
  injection Hi as <-. apply probe_answered.
Qed.

(** C1, as stated, fails: when Cloudflare answers before Google the
    first result is Cloudflare's, so the results are not in registry
    order. *)
Lemma results_follow_completion_order :
  settlesOnce cloudflareFirst /\
  map resolver (checkPropagation quietNet cloudflareFirst "example.com" "A")
  <> map (fun entry => resolver_name (snd entry)) GLOBAL_RESOLVERS.
Proof.
  split; [exact cloudflareFirst_settlesOnce|discriminate].
Qed.

Lemma omap_lookup_map {T U} (f : T -> U) (l : list T) (idx : list nat) :
  omap (fun i => f <$> l !! i) idx = omap (fun i => map f l !! i) idx.
Proof.
  induction idx as [|i idx IH]; [reflexivity|].
  cbn [omap list_omap]. rewrite lookup_map.
  destruct (f <$> l !! i); [f_equal|]; exact IH.
Qed.

Lemma checkPropagation_lookup net completion domain recordType :
  checkPropagation net completion domain recordType
  = omap (fun i => registryResults net domain recordType !! i) completion.
Proof. apply omap_lookup_map. Qed.

Lemma omap_lookup_seq {T} (l pre : list T) :
  omap (fun i => (pre ++ l) !! i) (seq (length pre) (length l)) = l.
Proof.
  revert pre. induction l as [|x l IH]; intros pre; [reflexivity|].
  cbn [length seq omap list_omap]. rewrite list_lookup_middle by reflexivity.
  f_equal. specialize (IH (pre ++ [x])).
  rewrite <- app_assoc, length_app in IH. cbn [length app] in IH.
  now replace (length pre + 1)%nat with (S (length pre)) in IH by lia.
Qed.

(** C1, amended: when every query settles once, the results are
    those of the registered resolvers, one for each, in the order in
    which the queries settle: the k-th result is that of the k-th
    query to settle. *)
Theorem one_result_per_resolver_in_completion_order
    net completion domain recordType :
  settlesOnce completion ->
  checkPropagation net completion domain recordType
    ≡ₚ registryResults net domain recordType /\
  forall k i,
    completion !! k = Some i ->
    is_Some (registryResults net domain recordType !! i) /\
    checkPropagation net completion domain recordType !! k
    = registryResults net domain recordType !! i.
Proof.
  intros Hp. rewrite checkPropagation_lookup.
  set (R := registryResults net domain recordType).
  assert (HR : length R = length GLOBAL_RESOLVERS) by apply length_map.
  split.
  - unfold settlesOnce in Hp. rewrite Hp, <- HR.
    pose proof (omap_lookup_seq R []) as E. cbn [app length] in E.
    now rewrite E.
  - intros k i Hk.
    assert (Hi : is_Some (R !! i)).
    { apply lookup_lt_is_Some_2. rewrite HR.
      apply list_elem_of_lookup_2, list_elem_of_In in Hk.
      apply (Permutation_in _ Hp), in_seq in Hk. lia. }
    split; [exact Hi|].
    assert (Hall : Forall (fun j => is_Some (R !! j)) completion).
    { apply List.Forall_forall. intros j Hj. apply lookup_lt_is_Some_2.
      rewrite HR. apply (Permutation_in _ Hp), in_seq in Hj. lia. }
    clear Hp Hi. revert k Hk.
    induction Hall as [|j completion [y Hy] _ IH]; intros k Hk; [discriminate|].
    cbn [omap list_omap]. rewrite Hy. destruct k as [|k].
    + cbn in Hk. injection Hk as <-. now rewrite Hy.
    + cbn. apply IH. exact Hk.
Qed.

(** The amended C1 when Cloudflare answers first. *)
Lemma one_result_per_resolver_witness :
  checkPropagation quietNet cloudflareFirst "example.com" "A"
    ≡ₚ registryResults quietNet "example.com" "A" /\
  resolver <$> checkPropagation quietNet cloudflareFirst "example.com" "A" !! 0%nat
  = Some "Cloudflare DNS".
Proof.
  destruct (one_result_per_resolver_in_completion_order quietNet cloudflareFirst
              "example.com" "A" cloudflareFirst_settlesOnce)
    as [Hperm Hk].
  split; [exact Hperm|].
  destruct (Hk 0%nat 1%nat eq_refl) as [_ ->]. reflexivity.
Defined.

End ResolverProps.

(** ** Subdomain enumeration: order and deduplication *)
Section SortProps.
Context {T : Type} (cmp : T -> T -> comparison).
Hypothesis cmp_Gt : forall x y, cmp x y = Gt -> cmp y x <> Gt.

Lemma insert_HdRel x y l :
  cmp y x <> Gt ->
  HdRel (fun a b => cmp a b <> Gt) y l ->
  HdRel (fun a b => cmp a b <> Gt) y (JS.insert cmp x l).
Proof.
  intros Hyx Hyl. destruct l as [|z l]; cbn.
  - now constructor.
  - destruct (cmp x z); constructor; try assumption; now inversion Hyl.
Qed.

Lemma insert_Sorted x l :
  Sorted (fun a b => cmp a b <> Gt) l ->
  Sorted (fun a b => cmp a b <> Gt) (JS.insert cmp x l).
Proof.
  induction 1 as [|y l Hl IH Hy]; cbn.
  - repeat constructor.
  - destruct (cmp x y) eqn:E.
    + repeat constructor; try assumption. congruence.
    + repeat constructor; try assumption. congruence.
    + constructor; [exact IH|]. apply insert_HdRel; [|exact Hy].
      now apply cmp_Gt.
Qed.

Lemma sortBy_Sorted l : Sorted (fun a b => cmp a b <> Gt) (JS.sortBy cmp l).
Proof.
  induction l as [|x l IH]; [constructor|]. now apply insert_Sorted.
Qed.
End SortProps.

Section SortPermutation.
Context {T : Type} (cmp : T -> T -> comparison).

Lemma insert_Permutation x l : JS.insert cmp x l ≡ₚ x :: l.
Proof.
  induction l as [|y l IH]; [reflexivity|]. cbn.
  destruct (cmp x y); try reflexivity.
  rewrite IH. apply perm_swap.
Qed.

Lemma sortBy_Permutation l : JS.sortBy cmp l ≡ₚ l.
Proof.
  induction l as [|x l IH]; [reflexivity|].
  cbn [JS.sortBy foldr]. rewrite insert_Permutation.
  now apply perm_skip.
Qed.
End SortPermutation.

Section CollationProps.
Import Collation.

Lemma lexicographic_opp a b :
  lexicographic b a = CompOpp (lexicographic a b).
Proof.
  revert b. induction a as [|x a IH]; intros [|y b]; try reflexivity.
  cbn. rewrite (N.compare_antisym x y).
  destruct (x ?= y)%N; cbn; auto.
Qed.

Lemma compare_opp a b : compare b a = CompOpp (compare a b).
Proof.
  unfold compare.
  rewrite (lexicographic_opp (weights primary a)).
  destruct (lexicographic (weights primary a) (weights primary b)); cbn; auto.
  apply lexicographic_opp.
Qed.

Lemma compare_Gt a b : compare a b = Gt -> compare b a <> Gt.
Proof. intros H. rewrite compare_opp, H. discriminate. Qed.
End CollationProps.

Section EnumerationProps.
Import DnsResolver SubdomainEnum EnumerationInv Inputs.

(** C7, as stated, fails: with the apex and the name 1.example.com
    in the certificate log, the labels come out as @ and then 1,
    which is not ascending in ordinal order (the code of 1 is 49,
    that of @ is 64). *)
Lemma labels_not_in_ordinal_order :
  ~ ordinalSorted
      (subdomains (enumerateSubdomains
                     (hostWith quietNet ["example.com"; "1.example.com"])
                     inOrder "example.com" defaultOptions)).
Proof.
  unfold ordinalSorted. intros H.
  vm_compute in H. inversion H as [|? ? _ Hd]; subst.
  inversion Hd as [|? ? Hle]; subst. apply Hle. reflexivity.
Qed.

(** C7, amended: the final sequence is sorted by label, ascending,
    in the order of the host's [localeCompare]. *)
Theorem labels_sorted_by_localeCompare h completion domain o :
  (forall x y, localeCompare h x y = Gt -> localeCompare h y x <> Gt) ->
  sortedBy (localeCompare h)
           (subdomains (enumerateSubdomains h completion domain o)) /\
  subdomains (enumerateSubdomains h completion domain o)
    ≡ₚ collectedEntries h completion domain o.
Proof.
  intros Hcmp. unfold enumerateSubdomains, sortedBy. cbn [subdomains]. split.
  - apply (sortBy_Sorted (fun a b => localeCompare h (subdomain a) (subdomain b))).
    intros x y. apply Hcmp.
  - apply sortBy_Permutation.
Qed.

(** The amended C7 on the run of the counterexample. *)
Lemma labels_sorted_witness :
  sortedBy Collation.compare
    (subdomains (enumerateSubdomains
                   (hostWith quietNet ["example.com"; "1.example.com"])
                   inOrder "example.com" defaultOptions)).
Proof.
  apply (labels_sorted_by_localeCompare
           (hostWith quietNet ["example.com"; "1.example.com"])).
  exact compare_Gt.
Defined.

(** *** Deduplication across the two sources *)

Lemma visit_inv h domain o st sub :
  certificateInv st -> certificateInv (visitCertificateName h domain o st sub).
Proof.
  intros [Hsrc Hseen Hnd]. unfold visitCertificateName.
  case_bool_decide as Hin; cbn [orb]; [now split|].
  destruct (JS.len (found st) >=? maxResults o); [now split|].
  split; cbn [found seenDomains].
  - apply Forall_app. split; [exact Hsrc|]. now repeat constructor.
  - intros d. rewrite map_app, in_app_iff, elem_of_union, elem_of_singleton.
    rewrite Hseen. cbn. intuition (subst; auto).
  - rewrite map_app. cbn. apply NoDup_app. split; [exact Hnd|]. split.
    + intros d Hd%list_elem_of_In Hd'%list_elem_of_In. destruct Hd' as [<-|[]].
      apply Hin, Hseen, Hd.
    + apply NoDup_singleton.
Qed.

Lemma certificatePhase_inv h domain o :
  certificateInv (certificatePhase h domain o).
Proof.
  unfold certificatePhase.
  assert (H0 : certificateInv {| found := []; seenDomains := ∅; ctCount := 0 |}).
  { split; cbn; [constructor| |constructor]. intros d. set_solver. }
  revert H0. generalize {| found := []; seenDomains := ∅; ctCount := 0 |}.
  induction (certificateNames h domain) as [|sub names IH]; intros st Hst;
    [exact Hst|].
  cbn [fold_left]. apply IH, visit_inv, Hst.
Qed.

(** A name the loop has visited is seen, unless the limit was
    reached; both facts survive the rest of the loop. *)
Lemma visit_grows h domain o st sub :
  seenDomains st ⊆ seenDomains (visitCertificateName h domain o st sub) /\
  JS.len (found st) <= JS.len (found (visitCertificateName h domain o st sub)) /\
  (sub ∈ seenDomains (visitCertificateName h domain o st sub) \/
   maxResults o <= JS.len (found (visitCertificateName h domain o st sub))).
Proof.
  unfold visitCertificateName.
  case_bool_decide as Hin; cbn [orb].
  { split; [reflexivity|]. split; [lia|]. now left. }
  destruct (Z.geb_spec (JS.len (found st)) (maxResults o)) as [Hge|Hlt].
  { split; [reflexivity|]. split; [lia|]. right. lia. }
  cbn [found seenDomains]. split; [set_solver|]. split.
  - unfold JS.len. rewrite length_app. lia.
  - left. set_solver.
Qed.

Lemma visited_names_seen h domain o names :
  forall st,
    let st' := fold_left (visitCertificateName h domain o) names st in
    seenDomains st ⊆ seenDomains st' /\
    JS.len (found st) <= JS.len (found st') /\
    forall sub, In sub names ->
                sub ∈ seenDomains st' \/ maxResults o <= JS.len (found st').
Proof.
  induction names as [|x names IH]; intros st; cbn [fold_left].
  - split; [reflexivity|]. split; [lia|]. intros sub [].
  - destruct (visit_grows h domain o st x) as (Hs & Hl & Hx).
    destruct (IH (visitCertificateName h domain o st x)) as (Hs' & Hl' & Hrest).
    split; [etransitivity; eassumption|]. split; [lia|].
    intros sub [<-|Hin]; [|now apply Hrest].
    destruct Hx as [Hx|Hx]; [left; apply Hs', Hx|right; lia].
Qed.

(** A probe is started only for a name that was not seen before the
    word-list phase. *)
Lemma started_fresh domain seen0 slice :
  forall seen acc,
    seen0 ⊆ seen ->
    Forall (fun sub => sub +:+ "." +:+ domain ∉ seen0) acc ->
    Forall (fun sub => sub +:+ "." +:+ domain ∉ seen0)
           (snd (fold_left (startProbe domain) slice (seen, acc))).
Proof.
  induction slice as [|sub slice IH]; intros seen acc Hsub Hacc; [exact Hacc|].
  cbn [fold_left]. unfold startProbe at 2. cbn [fst snd].
  case_bool_decide as Hin.
  - now apply IH.
  - apply IH; [set_solver|].
    apply Forall_app. split; [exact Hacc|]. constructor; [set_solver|constructor].
Qed.

Lemma filter_Permutation {T} (f : T -> bool) (l l' : list T) :
  l ≡ₚ l' -> List.filter f l ≡ₚ List.filter f l'.
Proof.
  induction 1 as [|x l l' _ IH|x y l|l l' l'' _ IH _ IH'].
  - reflexivity.
  - cbn. destruct (f x); [now apply perm_skip|exact IH].
  - cbn. destruct (f x), (f y); try reflexivity. apply perm_swap.
  - now rewrite IH.
Qed.

Lemma filter_none {T} (f : T -> bool) (l : list T) :
  Forall (fun x => f x = false) l -> List.filter f l = [].
Proof.
  induction 1 as [|x l Hx _ IH]; [reflexivity|]. cbn. now rewrite Hx.
Qed.

Lemma filter_the_one (full : string) (l : list SubdomainResult) :
  NoDup (map fullDomain l) ->
  In full (map fullDomain l) ->
  exists e, In e l /\
            List.filter (fun x => String.eqb (fullDomain x) full) l = [e].
Proof.
  induction l as [|x l IH]; intros Hnd Hin; [destruct Hin|].
  cbn [map] in Hnd, Hin. apply NoDup_cons in Hnd as [Hx Hnd].
  cbn [List.filter]. destruct (String.eqb_spec (fullDomain x) full) as [Heq|Hne].
  - exists x. split; [now left|]. f_equal. apply filter_none.
    apply List.Forall_forall. intros y Hy. apply String.eqb_neq. intros Hy'.
    apply Hx. rewrite Heq, <- Hy'. apply list_elem_of_In, in_map, Hy.
  - destruct Hin as [Hin|Hin]; [contradiction|].
    destruct (IH Hnd Hin) as (e & He & Hf). exists e. split; [now right|exact Hf].
Qed.

(** C8: a full name produced both by the certificate log and by the
    word-list phase has exactly one entry in the final result, and
    the source of that entry is "Certificate Transparency". *)
Theorem one_entry_from_certificate_log h completion domain o full :
  In full (certificateNames h domain) ->
  In full (wordlistNames h domain o) ->
  exists e,
    List.filter (fun x => String.eqb (fullDomain x) full)
                (subdomains (enumerateSubdomains h completion domain o)) = [e] /\
    source e = "Certificate Transparency".
Proof.
  intros Hct Hwl.
  pose proof (certificatePhase_inv h domain o) as [Hsrc Hseen Hnd].
  set (st := certificatePhase h domain o) in *.
  (* the word-list phase runs, so the limit was not reached *)
  assert (Hroom : JS.len (found st) < maxResults o).
  { unfold wordlistNames, wordlistSlice in Hwl. fold st in Hwl.
    destruct (includeCommon o); cbn [andb] in Hwl; [|destruct Hwl].
    destruct (Z.ltb_spec (JS.len (found st)) (maxResults o)); [lia|destruct Hwl]. }
  (* hence the certificate loop has seen the name *)
  assert (Hfull : full ∈ seenDomains st).
  { destruct (visited_names_seen h domain o (certificateNames h domain)
                {| found := []; seenDomains := ∅; ctCount := 0 |})
      as (_ & _ & Hall).
    destruct (Hall full Hct) as [H|H]; [exact H|].
    fold (certificatePhase h domain o) in H. fold st in H. lia. }
  destruct (filter_the_one full (found st) Hnd (proj1 (Hseen full) Hfull))
    as (e & He & Hfilter).
  exists e. split.
  - unfold enumerateSubdomains. fold st. cbn [subdomains].
    apply Permutation_length_1_inv.
    rewrite (filter_Permutation _ _ _ (sortBy_Permutation _ _)).
    rewrite List.filter_app, Hfilter.
    rewrite filter_none; [reflexivity|].
    apply List.Forall_forall. intros x Hx.
    apply list_elem_of_In, list_elem_of_omap in Hx as (i & _ & Hx).
    destruct (startedProbes domain o st !! i) as [sub|] eqn:Hi; [|discriminate].
    cbn in Hx. unfold finishProbe in Hx.
    destruct (fst (checkSubdomainResolution h (sub +:+ "." +:+ domain)));
      [|discriminate].
    injection Hx as <-. cbn [fullDomain].
    apply String.eqb_neq. intros Heq. rewrite <- Heq in Hfull.
    pose proof (started_fresh domain (seenDomains st) (wordlistSlice o st)
                  (seenDomains st) [] (reflexivity _) (Forall_nil_2 _)) as Hfresh.
    rewrite List.Forall_forall in Hfresh.
    apply (Hfresh sub); [|exact Hfull].
    apply list_elem_of_In, list_elem_of_lookup_2 with i. exact Hi.
  - rewrite List.Forall_forall in Hsrc. now apply Hsrc.
Qed.

(** C8 on a run in which www.example.com is in the certificate log
    and resolves. *)
Lemma one_entry_witness :
  exists e,
    List.filter (fun x => String.eqb (fullDomain x) "www.example.com")
      (subdomains (enumerateSubdomains
                     (hostWith liveNet ["www.example.com"; "shop.example.com"])
                     inOrder "example.com" defaultOptions)) = [e] /\
    source e = "Certificate Transparency".
Proof.
  apply one_entry_from_certificate_log.
  - left. reflexivity.
  - vm_compute. left. reflexivity.
Defined.

End EnumerationProps.

(** ** Binary64: bounds on what rounding returns *)

(** A power of two with an exponent that is not negative is positive. *)
Ltac pow_pos := apply Z.pow_pos_nonneg; lia.

Section ShiftProps.
Import Share.

Lemma iter_pos_nat {T} (f : T -> T) p x :
  SpecFloat.iter_pos f p x = Nat.iter (Pos.to_nat p) f x.
Proof.
  revert x. induction p as [p IH|p IH|]; intros x; cbn [SpecFloat.iter_pos].
  - rewrite !IH, Pos2Nat.inj_xI.
    replace (S (2 * Pos.to_nat p)) with (Pos.to_nat p + (Pos.to_nat p + 1))%nat by lia.
    rewrite !Nat.iter_add. reflexivity.
  - rewrite !IH, Pos2Nat.inj_xO.
    replace (2 * Pos.to_nat p)%nat with (Pos.to_nat p + Pos.to_nat p)%nat by lia.
    rewrite Nat.iter_add. reflexivity.
  - reflexivity.
Qed.

(** One shift halves the mantissa; the result is exact only if the
    record was and the mantissa was even. *)
Lemma shr_1_spec mrs :
  0 <= shr_m mrs ->
  shr_m (shr_1 mrs) = shr_m mrs / 2 /\
  (exact (shr_1 mrs) <-> exact mrs /\ shr_m mrs mod 2 = 0).
Proof.
  destruct mrs as [m r s]. cbn [shr_m]. intros Hm. unfold exact.
  destruct m as [|[p|p|]|p]; cbn [shr_1 shr_m shr_r shr_s]; try lia.
  - split; [reflexivity|]. rewrite orb_false_iff. cbn. tauto.
  - split; [rewrite Pos2Z.inj_xI; apply Z.div_unique with 1; lia|].
    rewrite Pos2Z.inj_xI, Z.add_comm, Z.mul_comm, Z.mod_add by lia.
    cbn. split; [intros [H _]|intros [_ H]]; discriminate.
  - split; [rewrite Pos2Z.inj_xO; apply Z.div_unique with 0; lia|].
    rewrite Pos2Z.inj_xO, Z.mul_comm, Z.mod_mul by lia.
    rewrite orb_false_iff. tauto.
  - split; [reflexivity|]. cbn.
    split; [intros [H _]|intros [_ H]]; discriminate.
Qed.

Lemma shr_iter_spec n mrs :
  0 <= shr_m mrs ->
  shr_m (Nat.iter n shr_1 mrs) = shr_m mrs / 2 ^ Z.of_nat n /\
  (exact (Nat.iter n shr_1 mrs) <-> exact mrs /\ shr_m mrs mod 2 ^ Z.of_nat n = 0).
Proof.
  intros Hm. induction n as [|n [IHm IHe]].
  - cbn [Nat.iter nat_rect Z.of_nat]. rewrite Z.pow_0_r, Z.div_1_r, Z.mod_1_r. tauto.
  - rewrite Nat.iter_succ.
    assert (Hpos : 0 < 2 ^ Z.of_nat n) by pow_pos.
    assert (H0 : 0 <= shr_m (Nat.iter n shr_1 mrs))
      by (rewrite IHm; apply Z.div_pos; lia).
    destruct (shr_1_spec _ H0) as [Hm1 He1].
    rewrite Nat2Z.inj_succ, Z.pow_succ_r by lia.
    split.
    + rewrite Hm1, IHm, Z.div_div by lia. f_equal. lia.
    + rewrite He1, IHe, IHm.
      rewrite (Z.mul_comm 2), Z.rem_mul_r by lia.
      pose proof (Z.mod_pos_bound (shr_m mrs) (2 ^ Z.of_nat n) Hpos).
      pose proof (Z.mod_pos_bound (shr_m mrs / 2 ^ Z.of_nat n) 2 ltac:(lia)).
      split; [intros [[Hx Hmod] Heven]; split; [exact Hx|nia]|].
      intros [Hx Hmod]. split; [split; [exact Hx|nia]|nia].
Qed.

End ShiftProps.

Section RoundingProps.
Import Share.

Lemma digits2_size p : digits2_pos p = Pos.size p.
Proof. induction p as [p IH|p IH|]; cbn; now rewrite ?IH. Qed.

(** The number of binary digits of a positive integer. *)
Lemma digits_bounds m :
  0 < m -> 2 ^ (Zdigits2 m - 1) <= m < 2 ^ Zdigits2 m.
Proof.
  destruct m as [|p|p]; try lia. intros _. cbn [Zdigits2].
  rewrite digits2_size.
  pose proof (Pos.size_gt p) as Hgt. pose proof (Pos.size_le p) as Hle.
  apply Pos2Z.pos_lt_pos in Hgt. apply Pos2Z.pos_le_pos in Hle.
  rewrite Pos2Z.inj_pow in Hgt, Hle.
  change (Z.pos p~0) with (2 * Z.pos p) in Hle.
  replace (Z.pos (Pos.size p)) with (Z.succ (Z.pos (Pos.size p) - 1)) in Hle by lia.
  rewrite Z.pow_succ_r in Hle by lia. lia.
Qed.

Lemma digits_le m t : 0 <= m -> 0 <= t -> m < 2 ^ t -> Zdigits2 m <= t.
Proof.
  intros Hm Ht Hlt. destruct (Z.eq_dec m 0) as [->|Hne]; [cbn; lia|].
  destruct (digits_bounds m ltac:(lia)) as [Hlo _].
  destruct (Z.le_gt_cases (Zdigits2 m) t) as [|Hgt]; [assumption|].
  assert (2 ^ t <= 2 ^ (Zdigits2 m - 1)) by (apply Z.pow_le_mono_r; lia).
  lia.
Qed.

Lemma loc_of_record m l :
  shr_m (shr_record_of_loc m l) = m /\
  loc_of_shr_record (shr_record_of_loc m l) = l /\
  (exact (shr_record_of_loc m l) <-> l = loc_Exact).
Proof.
  unfold exact. destruct l as [|[]]; cbn; repeat split; try tauto;
    intros; try discriminate; intuition discriminate.
Qed.

Lemma loc_exact mrs : loc_of_shr_record mrs = loc_Exact <-> exact mrs.
Proof.
  unfold exact. destruct mrs as [m [] []]; cbn; split; intros H;
    try discriminate; try tauto; destruct H; discriminate.
Qed.

(** Truncating to the precision of the format keeps a value at most
    [B] at most [B], strictly below [B] unless the truncation is
    exact. *)
Lemma shr_fexp_le B m e l :
  0 < B < 2 ^ 53 -> 0 <= m -> e <= 0 ->
  m <= B * 2 ^ (- e) ->
  (l <> loc_Exact -> m < B * 2 ^ (- e)) ->
  forall mrs e', shr_fexp JS.prec JS.emax m e l = (mrs, e') ->
    e' <= 0 /\ 0 <= shr_m mrs /\ shr_m mrs <= B * 2 ^ (- e') /\
    (loc_of_shr_record mrs <> loc_Exact -> shr_m mrs < B * 2 ^ (- e')).
Proof.
  intros HB Hm He Hle Hlt mrs e'. unfold shr_fexp, shr.
  destruct (loc_of_record m l) as (Hrm & Hrl & Hre).
  assert (Hdig : Zdigits2 m + e <= 53).
  { assert (0 < 2 ^ (- e)) by pow_pos.
    assert (m < 2 ^ (53 - e)).
    { replace (53 - e) with (53 + - e) by lia. rewrite Z.pow_add_r by lia. nia. }
    pose proof (digits_le m (53 - e) Hm ltac:(lia) ltac:(assumption)). lia. }
  destruct (fexp JS.prec JS.emax (Zdigits2 m + e) - e) as [|p|p] eqn:Hk;
    intros [= <- <-].
  1,3: rewrite Hrm, Hrl; auto.
  assert (He' : e + Z.pos p <= 0).
  { unfold fexp, emin, JS.prec, JS.emax in Hk. lia. }
  rewrite iter_pos_nat.
  destruct (shr_iter_spec (Pos.to_nat p) (shr_record_of_loc m l)) as [Hsm Hse];
    [rewrite Hrm; exact Hm|].
  rewrite positive_nat_Z, Hrm in Hsm, Hse. rewrite Hsm.
  assert (Hp : 0 < 2 ^ Z.pos p) by pow_pos.
  assert (Hsplit : 2 ^ (- e) = 2 ^ (- (e + Z.pos p)) * 2 ^ Z.pos p).
  { rewrite <- Z.pow_add_r by lia. f_equal. lia. }
  rewrite Hsplit in Hle, Hlt.
  assert (Hq : 0 < 2 ^ (- (e + Z.pos p))) by pow_pos.
  split; [exact He'|]. split; [apply Z.div_pos; lia|]. split.
  - apply Z.div_le_upper_bound; [lia|]. lia.
  - intros Hloc. apply Z.div_lt_upper_bound; [lia|].
    rewrite loc_exact, Hse, Hre in Hloc.
    destruct (Z.eq_dec (m mod 2 ^ Z.pos p) 0) as [Hmod|Hmod].
    + destruct l as [|c] eqn:El; [tauto|].
      assert (m < B * (2 ^ (- (e + Z.pos p)) * 2 ^ Z.pos p))
        by (apply Hlt; discriminate).
      lia.
    + destruct (Z.eq_dec m (2 ^ Z.pos p * (B * 2 ^ (- (e + Z.pos p))))) as [E|E]; [|lia].
      exfalso. apply Hmod. rewrite E, Z.mul_comm. apply Z.mod_mul. lia.
Qed.

(** Rounding a value that is at most [B] gives a value that is at
    most [B]. *)
Lemma binary_round_aux_le B m e l :
  0 < B < 2 ^ 53 -> 0 <= m -> e <= 0 ->
  m <= B * 2 ^ (- e) ->
  (l <> loc_Exact -> m < B * 2 ^ (- e)) ->
  atMost B (binary_round_aux JS.prec JS.emax false m e l).
Proof.
  intros HB Hm He Hle Hlt. unfold binary_round_aux.
  destruct (shr_fexp JS.prec JS.emax m e l) as [mrs1 e1] eqn:H1.
  destruct (shr_fexp_le B m e l HB Hm He Hle Hlt _ _ H1) as (He1 & Hm1 & Hle1 & Hlt1).
  set (m2 := round_nearest_even (shr_m mrs1) (loc_of_shr_record mrs1)).
  assert (Hm2 : shr_m mrs1 <= m2 /\ m2 <= B * 2 ^ (- e1)).
  { subst m2. unfold round_nearest_even.
    destruct (loc_of_shr_record mrs1) as [|[]] eqn:El; try lia.
    - destruct (Z.even (shr_m mrs1)); [lia|].
      assert (shr_m mrs1 < B * 2 ^ (- e1)) by (apply Hlt1; discriminate). lia.
    - assert (shr_m mrs1 < B * 2 ^ (- e1)) by (apply Hlt1; discriminate). lia. }
  destruct (shr_fexp JS.prec JS.emax m2 e1 loc_Exact) as [mrs2 e2] eqn:H2.
  destruct (shr_fexp_le B m2 e1 loc_Exact HB ltac:(lia) He1 ltac:(lia)
              ltac:(congruence) _ _ H2) as (He2 & Hm3 & Hle2 & _).
  destruct (shr_m mrs2) as [|p|p] eqn:Em; [exact I| |lia].
  unfold JS.emax, JS.prec.
  destruct (Z.leb_spec e2 (1024 - 53)); [|lia]. cbn [atMost]. lia.
Qed.

End RoundingProps.

Section ShareProps.
Import Share.

Lemma iter_xO p d :
  Z.pos (Pos.iter xO p d) = Z.pos p * 2 ^ Z.pos d /\
  Zdigits2 (Z.pos (Pos.iter xO p d)) = Zdigits2 (Z.pos p) + Z.pos d.
Proof.
  induction d as [|d [IHv IHd]] using Pos.peano_ind.
  - cbn [Pos.iter Zdigits2 digits2_pos]. split; lia.
  - rewrite Pos.iter_succ. cbn [Zdigits2 digits2_pos] in *.
    rewrite Pos2Z.inj_xO, IHv, Pos2Z.inj_succ, Z.pow_succ_r by lia.
    split; lia.
Qed.

(** An integer below 2^53 is held exactly. *)
Lemma ofInt_exact z :
  0 < z < 2 ^ 53 ->
  exists m e,
    JS.ofInt z = S754_finite false m e /\
    e <= 0 /\ Z.pos m = z * 2 ^ (- e).
Proof.
  intros Hz. destruct z as [|p|p]; try lia.
  unfold JS.ofInt, binary_normalize, binary_round.
  pose proof (digits_bounds (Z.pos p) ltac:(lia)) as Hd.
  assert (Hd53 : Zdigits2 (Z.pos p) <= 53) by (apply digits_le; lia).
  assert (Hd1 : 1 <= Zdigits2 (Z.pos p)) by (cbn; lia).
  change (Z.pos (digits2_pos p)) with (Zdigits2 (Z.pos p)).
  assert (Hf : fexp JS.prec JS.emax (Zdigits2 (Z.pos p) + 0)
               = Zdigits2 (Z.pos p) - 53)
    by (unfold fexp, emin, JS.prec, JS.emax; lia).
  rewrite Hf. unfold shl_align.
  destruct (Zdigits2 (Z.pos p) - 53 - 0) as [|k|k] eqn:Hk; try lia.
  - (* 53 digits: no shift *)
    exists p, 0. split; [|split; [lia|cbn; lia]].
    unfold binary_round_aux, shr_fexp.
    replace (fexp JS.prec JS.emax (Zdigits2 (Z.pos p) + 0) - 0) with 0
      by (rewrite Hf; lia).
    cbn [shr shr_record_of_loc shr_m loc_of_shr_record round_nearest_even].
    replace (fexp JS.prec JS.emax (Zdigits2 (Z.pos p) + 0) - 0) with 0
      by (rewrite Hf; lia).
    reflexivity.
  - (* fewer digits: the mantissa is shifted left *)
    destruct (iter_xO p k) as [Hv Hdig].
    exists (Pos.iter xO p k), (Zdigits2 (Z.pos p) - 53).
    split; [|split; [lia|rewrite Hv; f_equal; f_equal; lia]].
    assert (Hf' : fexp JS.prec JS.emax
                    (Zdigits2 (Z.pos (Pos.iter xO p k)) + (Zdigits2 (Z.pos p) - 53))
                  - (Zdigits2 (Z.pos p) - 53) = 0)
      by (rewrite Hdig; unfold fexp, emin, JS.prec, JS.emax; lia).
    unfold binary_round_aux, shr_fexp. rewrite Hf'.
    cbn [shr shr_record_of_loc shr_m loc_of_shr_record round_nearest_even].
    rewrite Hf'. cbn [shr shr_m].
    unfold JS.emax, JS.prec.
    destruct (Z.leb_spec (Zdigits2 (Z.pos p) - 53) (1024 - 53)); [reflexivity|lia].
Qed.

Lemma new_location_exact nb k :
  new_location nb k <> loc_Exact -> k <> 0.
Proof.
  unfold new_location, new_location_even, new_location_odd.
  intros H ->. destruct (Z.even nb); cbn in H; congruence.
Qed.

(** The quotient of two held integers [s <= n] is at most 1. *)
Lemma fdiv_le_one s n :
  0 <= s <= n -> 0 < n < 2 ^ 53 ->
  atMost 1 (JS.fdiv (JS.ofInt s) (JS.ofInt n)).
Proof.
  intros Hs Hn.
  destruct (ofInt_exact n Hn) as (my & ey & -> & Hey & Hmy).
  destruct (Z.eq_dec s 0) as [->|Hs0]; [exact I|].
  destruct (ofInt_exact s ltac:(lia)) as (mx & ex & -> & Hex & Hmx).
  unfold JS.fdiv, SFdiv, SFdiv_core_binary. cbn [xorb].
  set (d1 := Zdigits2 (Z.pos mx)). set (d2 := Zdigits2 (Z.pos my)).
  set (e' := Z.min (fexp JS.prec JS.emax (d1 + ex - (d2 + ey))) (ex - ey)).
  assert (Hpx : 0 < 2 ^ (- ex)) by pow_pos.
  assert (Hpy : 0 < 2 ^ (- ey)) by pow_pos.
  assert (Hd1 : d1 + ex <= 53).
  { assert (Z.pos mx < 2 ^ (53 - ex)).
    { replace (53 - ex) with (53 + - ex) by lia. rewrite Z.pow_add_r by lia. nia. }
    pose proof (digits_le (Z.pos mx) (53 - ex) ltac:(lia) ltac:(lia) ltac:(assumption)).
    subst d1. lia. }
  assert (Hd2 : 1 <= d2 + ey).
  { pose proof (digits_bounds (Z.pos my) ltac:(lia)) as [_ Hup]. fold d2 in Hup.
    assert (2 ^ (- ey) < 2 ^ d2) by nia.
    apply Z.pow_lt_mono_r_iff in H; [lia|lia|].
    subst d2. cbn. lia. }
  assert (He' : e' <= 0 /\ e' <= ex - ey).
  { subst e'. unfold fexp, emin, JS.prec, JS.emax. lia. }
  destruct He' as [He'0 He'1].
  set (m' := match ex - ey - e' with
             | 0 => Z.pos mx
             | Z.pos _ => Z.shiftl (Z.pos mx) (ex - ey - e')
             | Z.neg _ => 0
             end).
  assert (Hm' : m' = Z.pos mx * 2 ^ (ex - ey - e')).
  { subst m'. destruct (ex - ey - e') as [|k|k] eqn:Hk; try lia.
    - apply Z.shiftl_mul_pow2. lia. }
  assert (Hm'' : m' = s * 2 ^ (- ey - e')).
  { rewrite Hm', Hmx, <- Z.mul_assoc, <- Z.pow_add_r by lia. f_equal. f_equal. lia. }
  assert (Hmy' : Z.pos my * 2 ^ (- e') = n * 2 ^ (- ey - e')).
  { rewrite Hmy, <- Z.mul_assoc, <- Z.pow_add_r by lia. reflexivity. }
  assert (HK : 0 < 2 ^ (- ey - e')) by pow_pos.
  assert (Hle : m' <= Z.pos my * 2 ^ (- e')) by (rewrite Hm'', Hmy'; nia).
  pose proof (Z_div_mod m' (Z.pos my) ltac:(lia)) as Hdm.
  destruct (Z.div_eucl m' (Z.pos my)) as [q r]. destruct Hdm as [Hq Hr].
  assert (Hq0 : 0 <= q) by nia.
  assert (Hp' : 0 < 2 ^ (- e')) by pow_pos.
  clearbody m' e' d1 d2.
  assert (Hqle : q <= 2 ^ (- e')).
  { destruct (Z.le_gt_cases q (2 ^ (- e'))) as [|Hgt]; [assumption|exfalso].
    assert (Z.pos my * (2 ^ (- e') + 1) <= Z.pos my * q)
      by (apply Z.mul_le_mono_nonneg_l; lia).
    lia. }
  apply binary_round_aux_le; try lia.
  intros Hloc. apply new_location_exact in Hloc.
  destruct (Z.eq_dec q (2 ^ (- e'))) as [E|E]; [|lia].
  subst q. lia.
Qed.

Lemma ofInt_100 : JS.ofInt 100 = S754_finite false 7036874417766400 (-46).
Proof. reflexivity. Qed.

(** A hundred times a value that is at most 1 is at most 100. *)
Lemma fmul_100_le x :
  atMost 1 x -> atMost 100 (JS.fmul x (JS.ofInt 100)).
Proof.
  rewrite ofInt_100. destruct x as [sx| | |[] m e]; cbn [atMost]; try tauto.
  intros [He Hm]. unfold JS.fmul, SFmul. cbn [xorb].
  assert (Hp : 0 < 2 ^ (- e)) by pow_pos.
  apply binary_round_aux_le; try lia.
  - replace (- (e + -46)) with (- e + 46) by lia.
    rewrite Z.pow_add_r, Pos2Z.inj_mul by lia.
    change (Z.pos 7036874417766400) with (100 * 2 ^ 46). nia.
  - congruence.
Qed.

(** [Math.round] of a value that is at most 100 is an integer from 0
    to 100. *)
Lemma round_le_100 x :
  atMost 100 x -> exists k, JS.Math_round x = JS.RInt k /\ 0 <= k <= 100.
Proof.
  destruct x as [sx| | |[] m e]; cbn [atMost]; try tauto.
  - intros _. exists 0. cbn. split; [reflexivity|lia].
  - intros [He Hm]. cbn [JS.Math_round].
    assert (Hp : 0 < 2 ^ (- e)) by pow_pos.
    destruct (Z.leb_spec 0 e).
    + replace e with 0 in * by lia. eexists. split; [reflexivity|].
      cbn in Hm. lia.
    + eexists. split; [reflexivity|].
      replace (1 - e) with (Z.succ (- e)) by lia.
      rewrite Z.pow_succ_r by lia. split.
      * apply Z.div_pos; lia.
      * apply Z.lt_succ_r. apply Z.div_lt_upper_bound; lia.
Qed.

(** The share the code computes is an integer from 0 to 100. *)
Lemma computedShare_bounds s n :
  0 <= s <= n -> 0 < n < 2 ^ 53 ->
  exists k, computedShare s n = JS.RInt k /\ 0 <= k <= 100.
Proof.
  intros Hs Hn. unfold computedShare.
  apply round_le_100, fmul_100_le, fdiv_le_one; assumption.
Qed.

Lemma agreesBelow_spec bound s n :
  agreesBelow bound = true ->
  (s <= n)%nat -> (0 < n < bound)%nat ->
  computedShare (Z.of_nat s) (Z.of_nat n)
  = JS.RInt (roundedShare (Z.of_nat s) (Z.of_nat n)).
Proof.
  unfold agreesBelow. intros H Hs Hn.
  rewrite forallb_forall in H.
  specialize (H n ltac:(apply in_seq; lia)).
  rewrite forallb_forall in H.
  specialize (H s ltac:(apply in_seq; lia)).
  destruct (computedShare _ _) as [| |z]; cbn in H; try discriminate.
  apply Z.eqb_eq in H. now subst.
Qed.

Lemma agreesBelow_40 : agreesBelow 40 = true.
Proof. vm_compute. reflexivity. Qed.

End ShareProps.

(** ** analyzePropagation: the percentage *)
Section PercentageProps.
Import DnsResolver Consistency Share Inputs.

Lemma successful_le results :
  0 <= JS.len (successfulOf results) <= JS.len results.
Proof.
  unfold JS.len, successfulOf.
  pose proof (filter_length_le isSuccess results). lia.
Qed.

Lemma percentageOf_computed results :
  percentageOf results
  = computedShare (JS.len (successfulOf results)) (JS.len results).
Proof. reflexivity. Qed.

(** C6, as stated, fails: for the empty sequence the percentage is
    NaN, which is not a number between 0 and 100. *)
Lemma percentage_of_no_results_is_NaN :
  exists a,
    analyzePropagation [] = Some a /\
    percentage a = JS.RNaN /\
    ~ inPercentRange (percentage a).
Proof.
  eexists. split; [reflexivity|]. split; [reflexivity|].
  intros (k & Hk & _). discriminate.
Qed.

(** C6, amended: for every non-empty sequence of results (of fewer
    than 2^53 of them) the percentage is an integer between 0 and
    100 inclusive. *)
Theorem percentage_in_range results :
  results <> [] ->
  JS.len results < 2 ^ 53 ->
  exists a,
    analyzePropagation results = Some a /\
    inPercentRange (percentage a).
Proof.
  intros Hne Hlen.
  destruct (analyzePropagation_returns results) as (a & Ha & Hp & _).
  exists a. split; [exact Ha|].
  rewrite Hp, percentageOf_computed. unfold inPercentRange.
  apply computedShare_bounds; [apply successful_le|].
  split; [|exact Hlen].
  destruct results; [congruence|]. unfold JS.len. cbn [length]. lia.
Qed.

(** The amended C6 on [oddFirst]. *)
Lemma percentage_in_range_witness :
  exists a,
    analyzePropagation oddFirst = Some a /\
    inPercentRange (percentage a).
Proof.
  apply percentage_in_range; [discriminate|reflexivity].
Defined.

(** C9, as stated, fails: with 23 successes out of 40 results the
    code computes 57, while round(100 * 23 / 40) is 58: the binary64
    product (23 / 40) * 100 is just below 57.5. *)
Lemma percentage_23_of_40 :
  exists a,
    analyzePropagation (mixed 23 17) = Some a /\
    JS.len (successfulOf (mixed 23 17)) = 23 /\
    JS.len (mixed 23 17) = 40 /\
    percentage a = JS.RInt 57 /\
    roundedShare 23 40 = 58.
Proof.
  eexists. split; [vm_compute; reflexivity|]. repeat split.
Qed.

(** C9, amended: the percentage is [Math.round] of the binary64
    product [(successCount / total) * 100]; for every non-empty
    sequence of fewer than 40 results it equals
    round(100 * successCount / total). *)
Theorem percentage_is_rounded_share results :
  results <> [] ->
  (length results < 40)%nat ->
  exists a,
    analyzePropagation results = Some a /\
    percentage a
    = computedShare (JS.len (successfulOf results)) (JS.len results) /\
    percentage a
    = JS.RInt (roundedShare (JS.len (successfulOf results)) (JS.len results)).
Proof.
  intros Hne Hlen.
  destruct (analyzePropagation_returns results) as (a & Ha & Hp & _).
  exists a. split; [exact Ha|]. rewrite Hp, percentageOf_computed.
  split; [reflexivity|].
  unfold JS.len. apply (agreesBelow_spec 40 _ _ agreesBelow_40).
  - unfold successfulOf. apply filter_length_le.
  - destruct results; [congruence|]. cbn [length] in *. lia.
Qed.

(** The amended C9 on 5 successes out of 7 results: 71. *)
Lemma percentage_5_of_7 :
  exists a,
    analyzePropagation (mixed 5 2) = Some a /\
    percentage a = JS.RInt 71.
Proof.
  destruct (percentage_is_rounded_share (mixed 5 2)) as (a & Ha & _ & Hp).
  - discriminate.
  - cbn. lia.
  - exists a. split; [exact Ha|]. rewrite Hp. reflexivity.
Defined.

End PercentageProps.

(* ================================================================== *)
(** * Part III: further properties of the code                        *)
(* ================================================================== *)

(** ** More on the DoH client and the propagation check *)
Section ResolverMore.
Import DnsResolver Consistency Inputs Samples.



(** X2: every result of [checkPropagation] is coherent: it is for a
    registered resolver, and either it is successful, with a
    response and no error text, or it has no response and an error
    text, and its status is timeout exactly when that text contains
    timeout.  A query aborted by its timer is reported as timeout. *)
Theorem propagation_result_coherent net completion domain recordType r :
  In r (checkPropagation net completion domain recordType) ->
  exists entry,
    In entry GLOBAL_RESOLVERS /\
    resolver r = resolver_name (snd entry) /\
    region r = resolver_region (snd entry) /\
    location r = resolver_location (snd entry) /\
    match result_status r with
    | success => exists resp, response r = Some resp /\ result_error r = None
    | timeout =>
      response r = None /\
      exists msg, result_error r = Some msg /\ JS.includes msg "timeout" = true
    | error =>
      response r = None /\
      exists msg, result_error r = Some msg /\ JS.includes msg "timeout" = false
    end /\
    (fetch net (endpoint (snd entry)) domain recordType 8000 = Aborted ->
     result_status r = timeout).
Proof.
  intros Hr.
  apply list_elem_of_In, list_elem_of_omap in Hr as (i & _ & Hi).
  destruct (GLOBAL_RESOLVERS !! i) as [entry|] eqn:Ei; [|discriminate].
  injection Hi as <-. exists entry.
  split; [eapply list_elem_of_In, list_elem_of_lookup_2, Ei|].
  unfold probe, queryDoHResolver, mnemonicOf.
  destruct (fetch net (endpoint entry.2) domain recordType 8000) as [|msg|code reason|body];
    cbn [resolver region location result_status response result_error].
  - repeat split; try reflexivity. eexists. split; reflexivity.
  - destruct (JS.includes msg "timeout") eqn:E;
      repeat split; try reflexivity; try discriminate; eauto.
  - destruct (JS.includes _ "timeout") eqn:E;
      repeat split; try reflexivity; try discriminate; eauto.
  - repeat split; try reflexivity; try discriminate. eauto.
Qed.

Lemma propagation_result_coherent_witness :
  result_status firstAborted = timeout.
Proof.
  destruct (propagation_result_coherent deadNet cloudflareFirst "example.com" "A"
                                        firstAborted)
    as (entry & _ & _ & _ & _ & _ & Haborted).
  - vm_compute. left. reflexivity.
  - apply Haborted. reflexivity.
Defined.

End ResolverMore.

(** ** More on analyzePropagation *)
Section AnalysisMore.
Import DnsResolver Consistency Addresses Share Inputs Samples.

Lemma none_differs first :
  forall sets successful,
    Forall (fun a => sortedIPs a = first) sets ->
    List.filter (differsFrom first) (zip successful sets) = [].
Proof.
  induction sets as [|a sets IH]; intros [|r successful] Hall;
    try reflexivity.
  inversion Hall as [|? ? Ha Hrest]; subst.
  cbn [zip zip_with List.filter]. unfold differsFrom at 1. cbn [snd].
  rewrite bool_decide_eq_true_2 by reflexivity. cbn [negb]. now apply IH.
Qed.

(** X3: [consistentRecords] is true exactly when all successful
    results that carry a response have the same sorted address
    list. *)
Theorem consistent_iff_all_agree results :
  exists a,
    analyzePropagation results = Some a /\
    (consistentRecords a = true <->
     forall r1 r2, In r1 (answeredOf results) -> In r2 (answeredOf results) ->
                   sortedIPs r1 = sortedIPs r2).
Proof.
  destruct (analyzePropagation_returns results) as (a & Ha & _ & _ & Hc & _).
  exists a. split; [exact Ha|]. rewrite Hc. split.
  - intros He r1 r2 H1 H2.
    destruct (discrepanciesFrom 1 (firstSet results) results) eqn:E; [|discriminate].
    apply all_agree_with_first in E. rewrite List.Forall_forall in E.
    now rewrite (E r1 H1), (E r2 H2).
  - intros Hall. unfold discrepanciesFrom, pairsFrom.
    rewrite none_differs; [reflexivity|].
    apply List.Forall_forall. intros r Hr.
    assert (Hr' : In r (answeredOf results)).
    { apply list_elem_of_In. apply list_elem_of_In in Hr.
      eapply subseteq_drop, Hr. }
    unfold firstSet. destruct (answeredOf results) as [|r0 rest] eqn:E; [destruct Hr'|].
    apply Hall; [exact Hr'|now left].
Qed.

(** [[...new Set(xs)]] keeps each element once. *)
Lemma uniq_from {T} `{EqDecision T} (xs : list T) :
  forall acc,
    NoDup acc ->
    let out := fold_left (fun acc x => if decide (x ∈ acc) then acc else acc ++ [x])
                         xs acc in
    NoDup out /\ forall x : T, x ∈ out <-> x ∈ acc \/ x ∈ xs.
Proof.
  induction xs as [|y xs IH]; intros acc Hnd; cbn [fold_left].
  - split; [exact Hnd|]. intros x. rewrite elem_of_nil. tauto.
  - destruct (decide (y ∈ acc)) as [Hin|Hnin].
    + destruct (IH acc Hnd) as [H1 H2]. split; [exact H1|].
      intros x. rewrite H2, elem_of_cons.
      split; [tauto|]. intros [?|[->|?]]; tauto.
    + destruct (IH (acc ++ [y])) as [H1 H2].
      { apply NoDup_app. split; [exact Hnd|]. split; [|apply NoDup_singleton].
        intros x Hx Hy. apply list_elem_of_singleton in Hy. now subst. }
      split; [exact H1|].
      intros x. rewrite H2, elem_of_app, list_elem_of_singleton, elem_of_cons. tauto.
Qed.

Lemma uniq_spec xs :
  NoDup (JS.uniq xs) /\ forall x, x ∈ JS.uniq xs <-> x ∈ xs.
Proof.
  destruct (uniq_from xs [] (NoDup_nil_2)) as [H1 H2]. split; [exact H1|].
  intros x. unfold JS.uniq. rewrite H2, elem_of_nil. tauto.
Qed.

(** A duplicate-free list with the elements of [l] has one element
    exactly when [l] is not empty and its elements are all equal. *)
Lemma one_distinct {T} (u l : list T) :
  NoDup u -> (forall x, x ∈ u <-> x ∈ l) ->
  (length u = 1%nat <->
   l <> [] /\ forall x y, In x l -> In y l -> x = y).
Proof.
  intros Hnd Hin. split.
  - intros Hlen. destruct u as [|a [|b u]]; try discriminate. split.
    + intros ->. specialize (Hin a). rewrite elem_of_nil in Hin.
      apply Hin. now left.
    + intros x y Hx Hy. apply list_elem_of_In, Hin, list_elem_of_singleton in Hx.
      apply list_elem_of_In, Hin, list_elem_of_singleton in Hy. congruence.
  - intros [Hne Heq]. destruct l as [|a l]; [congruence|].
    destruct u as [|b [|c u]].
    + specialize (Hin a). rewrite elem_of_nil in Hin. exfalso. apply Hin. now left.
    + reflexivity.
    + exfalso. apply NoDup_cons in Hnd as [Hb _]. apply Hb.
      assert (Hbl : In b (a :: l)).
      { apply list_elem_of_In, Hin. now left. }
      assert (Hcl : In c (a :: l)).
      { apply list_elem_of_In, Hin. right. now left. }
      rewrite (Heq b c Hbl Hcl). now left.
Qed.

Lemma sort_elem_of (xs : list string) x : x ∈ JS.sort xs <-> x ∈ xs.
Proof. unfold JS.sort. now rewrite (sortBy_Permutation String.compare xs). Qed.

(** X4: [ipAddresses] lists every address once: it has no
    duplicates, and an address is in it exactly when it is the data
    of an A or AAAA record in the answer of a successful result. *)
Theorem ipAddresses_are_the_distinct_addresses results :
  exists a,
    analyzePropagation results = Some a /\
    NoDup (ipAddresses a) /\
    forall ip,
      In ip (ipAddresses a) <->
      exists r resp record,
        In r results /\ result_status r = success /\ response r = Some resp /\
        In record (answer resp) /\ isAddress record = true /\ data record = ip.
Proof.
  assert (Ha : exists a, analyzePropagation results = Some a /\
                         ipAddresses a
                         = JS.uniq (concat (map sortedIPs (answeredOf results)))).
  { unfold analyzePropagation.
    fold (successfulOf results). fold (answeredOf results).
    rewrite checkConsistency_returns. cbn [mbind option_bind].
    eexists. split; reflexivity. }
  destruct Ha as (a & Ha & Hips). exists a. split; [exact Ha|].
  rewrite Hips. destruct (uniq_spec (concat (map sortedIPs (answeredOf results))))
    as [Hnd Hin].
  split; [exact Hnd|]. intros ip.
  rewrite <- list_elem_of_In, Hin, list_elem_of_In, in_concat. split.
  - intros (ips & Hips' & Hip). apply in_map_iff in Hips' as (r & <- & Hr).
    unfold answeredOf, successfulOf in Hr.
    apply filter_In in Hr as [Hr Hans]. apply filter_In in Hr as [Hr Hs].
    unfold sortedIPs in Hip. unfold hasAnswer in Hans.
    destruct (response r) as [resp|] eqn:Er; [|discriminate].
    rewrite <- list_elem_of_In, sort_elem_of, list_elem_of_In in Hip.
    apply in_map_iff in Hip as (record & Hd & Hrec).
    apply filter_In in Hrec as [Hrec Haddr].
    exists r, resp, record. repeat split; try assumption.
    unfold isSuccess in Hs. now destruct (result_status r).
  - intros (r & resp & record & Hr & Hs & Er & Hrec & Haddr & Hd).
    exists (sortedIPs r). split.
    + apply in_map. unfold answeredOf, successfulOf.
      apply filter_In. split; [apply filter_In; split; [exact Hr|]|].
      * unfold isSuccess. now rewrite Hs.
      * unfold hasAnswer. now rewrite Er.
    + unfold sortedIPs. rewrite Er.
      rewrite <- list_elem_of_In, sort_elem_of, list_elem_of_In.
      apply in_map_iff. exists record. split; [exact Hd|].
      apply filter_In. now split.
Qed.

Lemma compare_le_iff (a b : string) :
  String.compare a b <> Gt <-> String.le a b.
Proof.
  unfold String.le, String.leb. destruct (String.compare a b); cbn; split;
    try congruence; try tauto; intros _; congruence.
Qed.

Lemma sort_unique (xs ys : list string) :
  xs ≡ₚ ys -> JS.sort xs = JS.sort ys.
Proof.
  intros Hp. unfold JS.sort.
  assert (Htrans : Transitive (fun a b => String.compare a b <> Gt)).
  { intros a b c. rewrite !compare_le_iff. apply String.le_po. }
  assert (Hanti : AntiSymm eq (fun a b => String.compare a b <> Gt)).
  { intros a b. rewrite !compare_le_iff. apply String.le_po. }
  assert (Htotal : forall x y, String.compare x y = Gt -> String.compare y x <> Gt).
  { intros x y Hxy Hyx. rewrite String.compare_antisym, Hyx in Hxy. discriminate. }
  apply (@sorting.Sorted_unique _ _ Htrans Hanti).
  - now apply sortBy_Sorted.
  - now apply sortBy_Sorted.
  - now rewrite !sortBy_Permutation.
Qed.

(** X5: the order of the records in an answer does not matter, their
    number does: two results have the same sorted address list
    exactly when the address data of one is a rearrangement of the
    address data of the other. *)
Theorem sortedIPs_equal_iff_rearranged r1 r2 :
  sortedIPs r1 = sortedIPs r2 <-> addressData r1 ≡ₚ addressData r2.
Proof.
  assert (Hs : forall r, sortedIPs r = JS.sort (addressData r)).
  { intros r. unfold sortedIPs, addressData. now destruct (response r). }
  rewrite !Hs. split.
  - intros He. unfold JS.sort in He.
    rewrite <- (sortBy_Permutation String.compare (addressData r1)), He.
    apply sortBy_Permutation.
  - apply sort_unique.
Qed.

(** X6: when there are results and none of them is successful, the
    analysis reports 0 percent, not propagated, and nevertheless
    consistent records, with no address and no discrepancy. *)
Theorem no_success_reports_zero results :
  results <> [] ->
  JS.len results < 2 ^ 53 ->
  (forall r, In r results -> result_status r <> success) ->
  analyzePropagation results = Some nothingPropagated.
Proof.
  intros Hne Hlen Hnone.
  assert (Hs : List.filter isSuccess results = []).
  { apply filter_none, List.Forall_forall. intros r Hr. specialize (Hnone r Hr).
    unfold isSuccess. now destruct (result_status r). }
  unfold analyzePropagation. rewrite Hs. cbn [List.filter map concat].
  assert (Hn : 0 < JS.len results < 2 ^ 53).
  { split; [|exact Hlen]. unfold JS.len. destruct results; [congruence|cbn; lia]. }
  destruct (ofInt_exact _ Hn) as (m & e & Hm & _ & _).
  rewrite Hm. reflexivity.
Qed.

Lemma no_success_reports_zero_witness :
  analyzePropagation [failed google_us; failed quad9_eu] = Some nothingPropagated.
Proof.
  apply no_success_reports_zero.
  - discriminate.
  - reflexivity.
  - intros r [<-|[<-|[]]]; discriminate.
Defined.

Lemma checkPropagation_length net completion domain recordType :
  settlesOnce completion ->
  length (checkPropagation net completion domain recordType)
  = length GLOBAL_RESOLVERS.
Proof.
  intros Hp. rewrite checkPropagation_lookup. unfold settlesOnce in Hp.
  rewrite Hp.
  pose proof (omap_lookup_seq (registryResults net domain recordType) []) as H.
  cbn [app length] in H. unfold registryResults in H at 2. rewrite length_map in H.
  rewrite H. unfold registryResults. now rewrite length_map.
Qed.

(** X7: the propagation check and its analysis together.  When every
    resolver of the registry settles once, the records are reported
    as propagated exactly when the answers are consistent and at
    least five of the seven resolvers succeeded. *)
Theorem propagated_needs_five_resolvers net completion domain recordType :
  settlesOnce completion ->
  let results := checkPropagation net completion domain recordType in
  exists a,
    analyzePropagation results = Some a /\
    (propagated a = true <->
     consistentRecords a = true /\ 5 <= JS.len (successfulOf results)).
Proof.
  intros Hp results.
  destruct (analyzePropagation_returns results) as (a & Ha & Hpct & _ & _ & Hprop).
  exists a. split; [exact Ha|].
  rewrite Hprop, Hpct, percentageOf_computed.
  pose proof (successful_le results) as Hle.
  assert (Hlen : JS.len results = 7).
  { unfold JS.len, results. now rewrite checkPropagation_length. }
  rewrite Hlen in *.
  assert (Htable : forall s, 0 <= s <= 7 ->
                             JS.geInt (computedShare s 7) 70 = (5 <=? s)).
  { intros s Hs.
    assert (Hcases : s = 0 \/ s = 1 \/ s = 2 \/ s = 3 \/ s = 4 \/ s = 5 \/ s = 6
                     \/ s = 7) by lia.
    repeat (destruct Hcases as [->|Hcases]; [vm_compute; reflexivity|]).
    subst s. vm_compute. reflexivity. }
  rewrite (Htable _ Hle), andb_true_iff, Z.leb_le. tauto.
Qed.

Lemma propagated_needs_five_resolvers_witness :
  exists a,
    analyzePropagation (checkPropagation deadNet cloudflareFirst "example.com" "A")
    = Some a /\
    (propagated a = true <->
     consistentRecords a = true /\
     5 <= JS.len (successfulOf
                    (checkPropagation deadNet cloudflareFirst "example.com" "A"))).
Proof.
  apply propagated_needs_five_resolvers. exact cloudflareFirst_settlesOnce.
Defined.

End AnalysisMore.

(** ** getAllDNSRecords *)
Section RecordsProps.
Import DnsResolver DnsRecords Inputs Samples.

(** The types whose queries have settled, in completion order. *)
Lemma getAllDNSRecords_fold net completion domain st :
  fold_left (fun st i =>
               match recordTypes !! i with
               | Some type => collect net domain st type
               | None => st
               end) completion st
  = fold_left (collect net domain) (omap (fun i => recordTypes !! i) completion) st.
Proof.
  revert st. induction completion as [|i completion IH]; intros st; [reflexivity|].
  cbn [fold_left omap list_omap]. rewrite IH.
  now destruct (recordTypes !! i).
Qed.

Lemma collect_all net domain types :
  forall st,
    let out := fold_left (collect net domain) types st in
    snd out = snd st ++ omap (failureOf net domain) types /\
    forall type,
      fst out !! type
      = if decide (type ∈ types)
        then match storedOf net domain type with
             | Some answers => Some answers
             | None => fst st !! type
             end
        else fst st !! type.
Proof.
  induction types as [|t types IH]; intros st; cbn [fold_left omap list_omap].
  - split; [now rewrite app_nil_r|]. intros type.
    destruct (decide (type ∈ [])) as [H|_]; [|reflexivity].
    now apply elem_of_nil in H.
  - destruct (IH (collect net domain st t)) as [Herr Hrec]. cbn zeta in *.
    split.
    + rewrite Herr. unfold collect, failureOf, lookupOf.
      destruct (queryDoHResolver net (endpoint cloudflare_us) domain (inl t) 5000)
        as [msg|resp]; cbn [snd].
      * now rewrite <- app_assoc.
      * now destruct (JS.len (answer resp) >? 0).
    + intros type. rewrite Hrec.
      assert (Hstep :
                fst (collect net domain st t) !! type
                = if decide (type = t)
                  then match storedOf net domain type with
                       | Some answers => Some answers
                       | None => fst st !! type
                       end
                  else fst st !! type).
      { unfold collect, storedOf, lookupOf.
        destruct (decide (type = t)) as [->|Hne].
        - destruct (queryDoHResolver net (endpoint cloudflare_us) domain (inl t) 5000)
            as [msg|resp]; [reflexivity|].
          destruct (JS.len (answer resp) >? 0); [|reflexivity].
          cbn [fst]. now rewrite lookup_insert_eq.
        - destruct (queryDoHResolver net (endpoint cloudflare_us) domain (inl t) 5000)
            as [msg|resp]; [reflexivity|].
          destruct (JS.len (answer resp) >? 0); [|reflexivity].
          cbn [fst]. now rewrite lookup_insert_ne by congruence. }
      rewrite Hstep.
      destruct (decide (type ∈ types)) as [Hin|Hnin];
        destruct (decide (type = t)) as [->|Hne];
        destruct (decide (_ ∈ t :: types)) as [Hin'|Hnin'];
        try reflexivity.
      * now destruct (storedOf net domain t).
      * exfalso. apply Hnin'. now right.
      * exfalso. apply Hnin'. now right.
      * exfalso. apply Hnin'. now left.
      * apply elem_of_cons in Hin' as [?|?]; contradiction.
Qed.

Lemma settled_types completion :
  allSettle completion ->
  omap (fun i => recordTypes !! i) completion ≡ₚ recordTypes.
Proof.
  intros Hp. unfold allSettle in Hp. rewrite Hp.
  pose proof (omap_lookup_seq recordTypes []) as H.
  cbn [app length] in H. cbn [length]. now rewrite H.
Qed.

Lemma lookups_settled net completion domain :
  allSettle completion ->
  (forall type,
      fst (getAllDNSRecords net completion domain) !! type
      = if decide (type ∈ recordTypes) then storedOf net domain type else None) /\
  snd (getAllDNSRecords net completion domain)
  = omap (failureOf net domain) (omap (fun i => recordTypes !! i) completion) /\
  omap (fun i => recordTypes !! i) completion ≡ₚ recordTypes.
Proof.
  intros Hall. unfold getAllDNSRecords. rewrite getAllDNSRecords_fold.
  destruct (collect_all net domain (omap (fun i => recordTypes !! i) completion) (∅, []))
    as [Herr Hrec]. cbn zeta in *. cbn [fst snd app] in *.
  pose proof (settled_types completion Hall) as Hp.
  split; [|split].
  - intros type. rewrite Hrec, lookup_empty.
    destruct (decide (type ∈ omap _ completion)) as [Hin|Hnin];
      destruct (decide (type ∈ recordTypes)) as [Hin'|Hnin'].
    + now destruct (storedOf net domain type).
    + exfalso. apply Hnin'. now rewrite <- Hp.
    + exfalso. apply Hnin. now rewrite Hp.
    + reflexivity.
  - exact Herr.
  - exact Hp.
Qed.

(** X8: when each of the eight queries settles once, [records] holds
    under a record type exactly the non-empty answer that its query
    delivered (no key for a query that failed or came back empty),
    and [errors] holds exactly one message for each query that
    failed, in the order in which they failed. *)
Theorem getAllDNSRecords_partition net completion domain :
  allSettle completion ->
  (forall type,
      fst (getAllDNSRecords net completion domain) !! type
      = if decide (type ∈ recordTypes) then storedOf net domain type else None) /\
  snd (getAllDNSRecords net completion domain)
  = omap (failureOf net domain) (omap (fun i => recordTypes !! i) completion) /\
  snd (getAllDNSRecords net completion domain)
  ≡ₚ omap (failureOf net domain) recordTypes.
Proof.
  intros Hall.
  destruct (lookups_settled net completion domain Hall) as (Hrec & Herr & Hp).
  split; [exact Hrec|]. split; [exact Herr|]. rewrite Herr. now rewrite Hp.
Qed.

(** On the network that fails NS queries: seven types stored, one
    error. *)
Lemma getAllDNSRecords_partition_witness :
  (forall type,
      fst (getAllDNSRecords flakyNet typesInOrder "example.com") !! type
      = if decide (type ∈ recordTypes) then storedOf flakyNet "example.com" type
        else None) /\
  snd (getAllDNSRecords flakyNet typesInOrder "example.com")
  = [ "Failed to fetch NS records: HTTP 502: Bad Gateway" ].
Proof.
  destruct (getAllDNSRecords_partition flakyNet typesInOrder "example.com")
    as (Hrec & Herr & _).
  - unfold allSettle, typesInOrder. reflexivity.
  - split; [exact Hrec|]. rewrite Herr. vm_compute. reflexivity.
Defined.

End RecordsProps.

(** ** validateNS, validateMX, validateTXT *)
Section ValidatorProps.
Import DnsResolver ZoneHealth ZoneReport Inputs Samples.

Lemma len_pos_iff {T} (l : list T) : (JS.len l >? 0) = true <-> l <> [].
Proof.
  unfold JS.len. destruct l as [|x l]; cbn [length]; split;
    try congruence; try discriminate.
  intros _. apply Z.gtb_lt. lia.
Qed.

Lemma filter_nonempty {T} (f : T -> bool) (l : list T) :
  List.filter f l <> [] <-> exists x, In x l /\ f x = true.
Proof.
  split.
  - intros Hne. destruct (List.filter f l) as [|x rest] eqn:E; [congruence|].
    exists x. apply filter_In. rewrite E. now left.
  - intros (x & Hx & Hf) E.
    assert (Hin : In x (List.filter f l)) by (apply filter_In; now split).
    rewrite E in Hin. destruct Hin.
Qed.


Lemma len_one {T} (l : list T) : (JS.len l =? 1) = true <-> length l = 1%nat.
Proof. unfold JS.len. rewrite Z.eqb_eq. lia. Qed.

Lemma all_equal_map {T U} (f : T -> U) (l : list T) :
  (forall x y, In x (map f l) -> In y (map f l) -> x = y) <->
  (forall a b, In a l -> In b l -> f a = f b).
Proof.
  split.
  - intros H a b Ha Hb. apply H; now apply in_map.
  - intros H x y Hx Hy. apply in_map_iff in Hx as (a & <- & Ha).
    apply in_map_iff in Hy as (b & <- & Hb). now apply H.
Qed.

(** What [validateNS] returns for two records or more. *)
Lemma validateNS_many records domain :
  (2 <= length records)%nat ->
  let sameNetwork :=
    forall r1 r2, In r1 records -> In r2 records ->
                  networkOf (Text.toLowerCase (data r1))
                  = networkOf (Text.toLowerCase (data r2)) in
  (sameNetwork /\
   map message (validateNS records domain)
   = [ "All nameservers appear to be on the same network" ]) \/
  (~ sameNetwork /\ validateNS records domain = []).
Proof.
  intros Hlen sameNetwork. unfold validateNS.
  assert (Hlen0 : (JS.len records =? 0) = false).
  { unfold JS.len. apply Z.eqb_neq. lia. }
  assert (Hlen2 : (JS.len records <? 2) = false).
  { unfold JS.len. apply Z.ltb_ge. lia. }
  assert (Hlen1 : (JS.len records >? 1) = true).
  { unfold JS.len. apply Z.gtb_lt. lia. }
  rewrite Hlen0, Hlen2, Hlen1. cbn [app]. rewrite andb_true_r.
  set (nets := map networkOf (map (fun r => Text.toLowerCase (data r)) records)).
  destruct (uniq_spec nets) as [Hnd Hin].
  pose proof (one_distinct (JS.uniq nets) nets Hnd Hin) as Hone.
  assert (Hsame : (forall x y, In x nets -> In y nets -> x = y) <-> sameNetwork).
  { unfold nets. rewrite map_map. apply all_equal_map. }
  assert (Hne : nets <> []).
  { unfold nets. destruct records; [cbn in Hlen; lia|discriminate]. }
  destruct (JS.len (JS.uniq nets) =? 1) eqn:E.
  - left. split; [|reflexivity]. apply Hsame, Hone. now apply len_one.
  - right. split; [|reflexivity]. intros Hs.
    assert (Hl : length (JS.uniq nets) = 1%nat).
    { apply Hone. split; [exact Hne|]. now apply Hsame. }
    apply len_one in Hl. congruence.
Qed.

(** X9: the verdict of [validateNS].  No record: the critical issue.
    One record: the warning about a single name server, and nothing
    else.  Two or more: the warning about one network exactly when
    the lower-cased names of all records end in the same three
    labels, and no issue otherwise. *)
Theorem validateNS_verdict records domain :
  let sameNetwork :=
    forall r1 r2, In r1 records -> In r2 records ->
                  networkOf (Text.toLowerCase (data r1))
                  = networkOf (Text.toLowerCase (data r2)) in
  match records with
  | [] => map message (validateNS records domain) = [ "No NS records found" ]
  | [_] => map message (validateNS records domain) = [ "Only 1 NS record(s) found" ]
  | _ =>
    (sameNetwork /\
     map message (validateNS records domain)
     = [ "All nameservers appear to be on the same network" ]) \/
    (~ sameNetwork /\ validateNS records domain = [])
  end.
Proof.
  intros sameNetwork. destruct records as [|r1 [|r2 rest]]; try reflexivity.
  apply validateNS_many. cbn [length]. lia.
Qed.

Lemma app_empty_r (s : string) : s +:+ EmptyString = s.
Proof.
  induction s as [|c s IH]; [reflexivity|].
  change (String c (s +:+ EmptyString) = String c s). now rewrite IH.
Qed.

Lemma concat_splitFrom (sep : ascii) (s : string) :
  forall cur,
    String.concat (String sep EmptyString) (Text.splitFrom sep cur s) = cur +:+ s.
Proof.
  induction s as [|c s IH]; intros cur; cbn [Text.splitFrom].
  - cbn [String.concat]. now rewrite app_empty_r.
  - destruct (Ascii.eqb_spec c sep) as [->|Hne].
    + specialize (IH EmptyString).
      destruct (Text.splitFrom sep EmptyString s) as [|p ps] eqn:E.
      * destruct s; cbn in E; [discriminate|]. now destruct (Ascii.eqb a sep).
      * cbn [String.concat]. cbn [String.concat] in IH. rewrite IH. reflexivity.
    + rewrite IH. rewrite app_assoc_string. reflexivity.
Qed.

(** [s.split(sep).join(sep)] gives [s] back. *)
Lemma join_split (sep : ascii) (s : string) :
  JS.join (String sep EmptyString) (Text.split sep s) = s.
Proof. unfold JS.join, Text.split. apply concat_splitFrom. Qed.

Lemma networkOf_short (ns : string) :
  (length (Text.split "." ns) <= 3)%nat -> networkOf ns = ns.
Proof.
  intros Hlen. unfold networkOf, Text.lastN.
  replace (length (Text.split "." ns) - 3)%nat with 0%nat by lia.
  rewrite drop_0. apply join_split.
Qed.

(** X10: name servers of at most three labels are compared as whole
    names: two or more of them are reported to be on one network
    only when their lower-cased names are all the same. *)
Theorem short_names_share_no_network records domain :
  (2 <= length records)%nat ->
  (forall r, In r records ->
             (length (Text.split "." (Text.toLowerCase (data r))) <= 3)%nat) ->
  (validateNS records domain = [] <->
   ~ forall r1 r2, In r1 records -> In r2 records ->
                   Text.toLowerCase (data r1) = Text.toLowerCase (data r2)).
Proof.
  intros Hlen Hshort.
  assert (Hnet : (forall r1 r2, In r1 records -> In r2 records ->
                                networkOf (Text.toLowerCase (data r1))
                                = networkOf (Text.toLowerCase (data r2)))
                 <-> forall r1 r2, In r1 records -> In r2 records ->
                                   Text.toLowerCase (data r1)
                                   = Text.toLowerCase (data r2)).
  { split; intros H r1 r2 H1 H2; specialize (H r1 r2 H1 H2);
      rewrite !networkOf_short in * by now apply Hshort.
    - exact H.
    - exact H. }
  destruct (validateNS_many records domain Hlen) as [[Hs Hm]|[Hs Hm]].
  - split.
    + intros E. rewrite E in Hm. discriminate.
    + intros Hn. exfalso. apply Hn, Hnet, Hs.
  - split; [|intros _; exact Hm]. intros _ H. apply Hs, Hnet, H.
Qed.

(** Two sibling name servers under the zone itself are not
    flagged. *)
Lemma short_names_share_no_network_witness :
  validateNS [ nsRecord "ns1.example.com"; nsRecord "ns2.example.com" ]
             "example.com" = [].
Proof.
  apply short_names_share_no_network.
  - cbn [length]. lia.
  - intros r [<-|[<-|[]]]; vm_compute; lia.
  - intros H.
    specialize (H (nsRecord "ns1.example.com") (nsRecord "ns2.example.com")
                  (or_introl eq_refl) (or_intror (or_introl eq_refl))).
    discriminate H.
Defined.



Lemma len_zero_iff {T} (l : list T) : (JS.len l =? 0) = true <-> l = [].
Proof.
  unfold JS.len. rewrite Z.eqb_eq. destruct l; cbn [length]; split;
    try congruence; try lia; discriminate.
Qed.

(** X12: what [validateTXT] reports.  [hasSPF] and [hasDMARC] tell
    whether some record contains [v=spf1], respectively [v=dmarc1],
    in any letter case; [hasDKIM] is never set; there is at most one
    issue; and there is none exactly when one single record mentions
    SPF and its text, as written, contains [~all], [-all] or
    [?all]. *)
Theorem validateTXT_flags records domain :
  let result := validateTXT records domain in
  (txt_hasSPF result = true <-> exists r, In r records /\ mentionsSPF r = true) /\
  (txt_hasDMARC result = true <-> exists r, In r records /\ mentionsDMARC r = true) /\
  txt_hasDKIM result = false /\
  (length (txt_issues result) <= 1)%nat /\
  (txt_issues result = [] <->
   exists r, List.filter mentionsSPF records = [r] /\
             hasAllMechanism (data r) = true).
Proof.
  cbn zeta. unfold validateTXT.
  destruct (JS.len records =? 0) eqn:E0.
  - apply len_zero_iff in E0. subst records. cbn.
    repeat split; try discriminate; try lia.
    + intros (r & [] & _).
    + intros (r & [] & _).
    + intros (r & Hr & _). discriminate Hr.
  - cbn [txt_hasSPF txt_hasDMARC txt_hasDKIM txt_issues].
    pose proof (filter_nonempty mentionsSPF records) as Hspf.
    pose proof (filter_nonempty mentionsDMARC records) as Hdmarc.
    split; [|split; [|split; [reflexivity|]]].
    + rewrite <- Hspf.
      destruct (List.filter mentionsSPF records) as [|x [|y rest]] eqn:E.
      * change (JS.len (@nil DNSRecord) =? 0) with true. cbn [snd].
        split; [discriminate|congruence].
      * change (JS.len [x] =? 0) with false. change (JS.len [x] >? 1) with false.
        cbn [snd]. split; [discriminate|reflexivity].
      * assert (Hmany : (JS.len (x :: y :: rest) >? 1) = true).
        { unfold JS.len. cbn [length]. apply Z.gtb_lt. lia. }
        assert (Hnz : (JS.len (x :: y :: rest) =? 0) = false) by reflexivity.
        rewrite Hnz, Hmany. cbn [snd]. split; [discriminate|reflexivity].
    + rewrite len_pos_iff. exact Hdmarc.
    + destruct (List.filter mentionsSPF records) as [|x [|y rest]] eqn:E.
      * change (JS.len (@nil DNSRecord) =? 0) with true. cbn [fst length].
        split; [lia|]. split; [discriminate|]. intros (r & Hr & _). discriminate Hr.
      * change (JS.len [x] =? 0) with false. change (JS.len [x] >? 1) with false.
        cbn [fst].
        assert (Hcond : negb (JS.includes (data x) "~all")
                        && negb (JS.includes (data x) "-all")
                        && negb (JS.includes (data x) "?all")
                        = negb (hasAllMechanism (data x))).
        { unfold hasAllMechanism.
          now destruct (JS.includes (data x) "~all"),
            (JS.includes (data x) "-all"), (JS.includes (data x) "?all"). }
        rewrite Hcond. destruct (hasAllMechanism (data x)) eqn:Eall; cbn [negb length].
        -- split; [lia|]. split; [intros _; now exists x|reflexivity].
        -- split; [lia|]. split; [discriminate|].
           intros (r & Hr & Hall). injection Hr as <-. congruence.
      * assert (Hmany : (JS.len (x :: y :: rest) >? 1) = true).
        { unfold JS.len. cbn [length]. apply Z.gtb_lt. lia. }
        assert (Hnz : (JS.len (x :: y :: rest) =? 0) = false) by reflexivity.
        rewrite Hnz, Hmany. cbn [fst length]. split; [lia|].
        split; [discriminate|]. intros (r & Hr & _). discriminate Hr.
Qed.

End ValidatorProps.

(** ** analyzeZoneHealth: the report *)
Section ReportProps.
Import DnsResolver ZoneHealth DnsRecords ZoneReport ZoneReportSpec Inputs Samples.

Lemma validateSOA_grouped rs : grouped SOA 3 (validateSOA rs).
Proof.
  unfold grouped, validateSOA, refreshIssues.
  destruct rs as [|soa rest]; [cbn; split; [reflexivity|lia]|].
  destruct (JS.len _ >=? 7); [|cbn; split; [reflexivity|lia]].
  destruct (Text.parseInt _) as [n|]; [destruct (n <? 1200); [|destruct (n >? 43200)]|];
    destruct (TTL soa <? 300);
    destruct (String.eqb _ EmptyString || negb _);
    cbn [app map length repeat issueOf issue_category]; split; try reflexivity; lia.
Qed.

Lemma validateNS_grouped rs domain : grouped NS 1 (validateNS rs domain).
Proof.
  unfold grouped, validateNS.
  destruct (JS.len rs =? 0); [cbn; split; [reflexivity|lia]|].
  destruct (Z.ltb_spec (JS.len rs) 2), (Z.gtb_spec (JS.len rs) 1); try lia;
    rewrite ?andb_false_r; try destruct (JS.len (JS.uniq _) =? 1);
    cbn [andb app map length repeat issueOf issue_category]; split; try reflexivity; lia.
Qed.

Lemma validateA_grouped rs : grouped A 2 (validateA rs).
Proof.
  unfold grouped, validateA.
  destruct (JS.len rs =? 0); [cbn; split; [reflexivity|lia]|].
  destruct (JS.len (List.filter (fun r => isPrivateIP (data r)) rs) >? 0);
    destruct (List.filter (fun r => TTL r <? 60) rs);
    cbn [app map length repeat issue_category]; split; try reflexivity; lia.
Qed.

Lemma validateMX_grouped rs domain : grouped MX 2 (validateMX rs domain).
Proof.
  unfold grouped, validateMX.
  destruct (JS.len rs =? 0); [cbn; split; [reflexivity|lia]|].
  destruct (_ && _); destruct (JS.len (List.filter _ _) >? 0);
    cbn [app map length repeat issueOf issue_category]; split; try reflexivity; lia.
Qed.

Lemma validateTXT_grouped rs domain :
  grouped TXT 1 (txt_issues (validateTXT rs domain)).
Proof.
  unfold grouped, validateTXT.
  destruct (JS.len rs =? 0); [cbn; split; [reflexivity|lia]|].
  cbn [txt_issues].
  destruct (JS.len (List.filter mentionsSPF rs) =? 0); [cbn; split; [reflexivity|lia]|].
  destruct (JS.len (List.filter mentionsSPF rs) >? 1); [cbn; split; [reflexivity|lia]|].
  destruct (List.filter mentionsSPF rs) as [|first ?]; [cbn; split; [reflexivity|lia]|].
  destruct (_ && _); cbn; split; try reflexivity; lia.
Qed.

Lemma fetchIssues_grouped errors :
  map issue_category (map fetchIssue errors) = repeat General (length errors).
Proof. induction errors as [|e errors IH]; [reflexivity|]. cbn. now rewrite IH. Qed.

(** X13: the issues of a report are grouped by category, in the
    order General, SOA, NS, A, MX, TXT: one General issue for each
    fetch error, then at most three SOA issues, one NS issue, two A
    issues, two MX issues and one TXT issue.  No issue has the
    category CNAME. *)
Theorem report_issues_grouped domain now looked :
  exists s n a m t,
    map issue_category (issues (reportOf domain now looked))
    = repeat General (length (snd looked)) ++ repeat SOA s ++ repeat NS n
      ++ repeat A a ++ repeat MX m ++ repeat TXT t /\
    (s <= 3 /\ n <= 1 /\ a <= 2 /\ m <= 2 /\ t <= 1)%nat.
Proof.
  unfold reportOf. cbn [issues].
  destruct (validateSOA_grouped (recordsOf (fst looked) "SOA")) as [Hs Hs'].
  destruct (validateNS_grouped (recordsOf (fst looked) "NS") domain) as [Hn Hn'].
  destruct (validateA_grouped (recordsOf (fst looked) "A")) as [Ha Ha'].
  destruct (validateMX_grouped (recordsOf (fst looked) "MX") domain) as [Hm Hm'].
  destruct (validateTXT_grouped (recordsOf (fst looked) "TXT") domain) as [Ht Ht'].
  eexists _, _, _, _, _. split.
  - rewrite !map_app, fetchIssues_grouped, Hs, Hn, Ha, Hm, Ht. reflexivity.
  - repeat split; assumption.
Qed.

(** *** The issue that tells that a record type is absent *)

Lemma head_differs (a b : ascii) (s t : string) : a <> b -> String a s <> String b t.
Proof. congruence. Qed.

Ltac other_issue :=
  match goal with
  | H : In _ _ |- _ =>
    repeat (destruct H as [<-|H]; [cbn in *; try discriminate|]); try destruct H
  end.

Lemma validateSOA_absent rs :
  (exists i, In i (validateSOA rs) /\ issue_severity i = critical /\
             message i = "No SOA record found") <-> rs = [].
Proof.
  split.
  - intros (i & Hi & Hs & _). destruct rs as [|soa rest]; [reflexivity|]. exfalso.
    unfold validateSOA, refreshIssues in Hi.
    destruct (JS.len _ >=? 7); [|destruct Hi].
    destruct (Text.parseInt _) as [n|];
      [destruct (n <? 1200); [|destruct (n >? 43200)]|];
      destruct (TTL soa <? 300);
      destruct (String.eqb _ EmptyString || negb _);
      cbn [app] in Hi; other_issue.
  - intros ->. eexists. split; [now left|]. split; reflexivity.
Qed.

Lemma validateNS_absent rs domain :
  (exists i, In i (validateNS rs domain) /\ issue_severity i = critical /\
             message i = "No NS records found") <-> rs = [].
Proof.
  split.
  - intros (i & Hi & Hs & _). destruct rs as [|r rest]; [reflexivity|]. exfalso.
    unfold validateNS in Hi.
    change (JS.len (r :: rest) =? 0) with false in Hi.
    destruct (JS.len (r :: rest) <? 2); destruct (_ && _);
      cbn [app] in Hi; other_issue.
  - intros ->. eexists. split; [now left|]. split; reflexivity.
Qed.

Lemma validateA_absent rs :
  (exists i, In i (validateA rs) /\ issue_severity i = info /\
             message i = "No A records found for root domain") <-> rs = [].
Proof.
  split.
  - intros (i & Hi & _ & Hm). destruct rs as [|r rest]; [reflexivity|]. exfalso.
    unfold validateA in Hi.
    change (JS.len (r :: rest) =? 0) with false in Hi.
    destruct (JS.len (List.filter _ (r :: rest)) >? 0);
      destruct (List.filter (fun r => TTL r <? 60) (r :: rest)) as [|r0 ?];
      cbn [app] in Hi;
      repeat (destruct Hi as [<-|Hi]; [cbn [message] in Hm|]); try destruct Hi;
      revert Hm.
    all: try (change ("A record(s) point to private IP address(es): " +:+ ?x)
                with (String "A" ("record(s) point to private IP address(es): " +:+ x)
                      : string)).
    all: match goal with
         | |- ?a +:+ ?b = _ -> False =>
           let h := eval cbv in (String.get 0 a) in
           intros Hm; apply (f_equal (String.get 0)) in Hm;
           rewrite <- (append_correct1 a b 0) in Hm by (cbn; lia);
           cbv in Hm; discriminate Hm
         end.
  - intros ->. eexists. split; [now left|]. split; reflexivity.
Qed.

Lemma validateMX_absent rs domain :
  (exists i, In i (validateMX rs domain) /\ issue_severity i = info /\
             message i = "No MX records found") <-> rs = [].
Proof.
  split.
  - intros (i & Hi & Hs & _). destruct rs as [|r rest]; [reflexivity|]. exfalso.
    unfold validateMX in Hi.
    change (JS.len (r :: rest) =? 0) with false in Hi.
    destruct (_ && _); destruct (JS.len (List.filter _ _) >? 0);
      cbn [app] in Hi; other_issue.
  - intros ->. eexists. split; [now left|]. split; reflexivity.
Qed.

Lemma validateTXT_absent rs domain :
  (exists i, In i (txt_issues (validateTXT rs domain)) /\ issue_severity i = info /\
             message i = "No TXT records found") <-> rs = [].
Proof.
  split.
  - intros (i & Hi & Hs & _). destruct rs as [|r rest]; [reflexivity|]. exfalso.
    unfold validateTXT in Hi.
    change (JS.len (r :: rest) =? 0) with false in Hi. cbn [txt_issues] in Hi.
    destruct (JS.len (List.filter mentionsSPF (r :: rest)) =? 0);
      [cbn [fst] in Hi; other_issue|].
    destruct (JS.len (List.filter mentionsSPF (r :: rest)) >? 1);
      [cbn [fst] in Hi; other_issue|].
    destruct (List.filter mentionsSPF (r :: rest)) as [|first ?];
      [destruct Hi|].
    destruct (_ && _); cbn [fst] in Hi; other_issue.
  - intros ->. eexists. split; [now left|]. split; reflexivity.
Qed.

Lemma in_issues domain now looked i :
  In i (issues (reportOf domain now looked)) <->
  In i (map fetchIssue (snd looked)) \/
  In i (validateSOA (recordsOf (fst looked) "SOA")) \/
  In i (validateNS (recordsOf (fst looked) "NS") domain) \/
  In i (validateA (recordsOf (fst looked) "A")) \/
  In i (validateMX (recordsOf (fst looked) "MX") domain) \/
  In i (txt_issues (validateTXT (recordsOf (fst looked) "TXT") domain)).
Proof. unfold reportOf. cbn [issues]. now rewrite !in_app_iff. Qed.

Lemma category_of (c : category) bound l i :
  grouped c bound l -> In i l -> issue_category i = c.
Proof.
  intros [Hc _] Hi. apply (in_map issue_category) in Hi.
  rewrite Hc in Hi. now apply repeat_spec in Hi.
Qed.

Lemma fetchIssue_category errors i :
  In i (map fetchIssue errors) -> issue_category i = General.
Proof. intros Hi. apply in_map_iff in Hi as (e & <- & _). reflexivity. Qed.

(** The issue that reports an absent record type is in the report
    exactly when the zone has no record of the type. *)
Lemma absence_reported domain now looked c sev msg :
  absenceOf c = Some (sev, msg) ->
  (exists i, In i (issues (reportOf domain now looked)) /\
             issue_category i = c /\ issue_severity i = sev /\ message i = msg) <->
  recordsOf (fst looked) (keyOf c) = [].
Proof.
  intros Habs.
  pose proof (validateSOA_grouped (recordsOf (fst looked) "SOA")) as Gs.
  pose proof (validateNS_grouped (recordsOf (fst looked) "NS") domain) as Gn.
  pose proof (validateA_grouped (recordsOf (fst looked) "A")) as Ga.
  pose proof (validateMX_grouped (recordsOf (fst looked) "MX") domain) as Gm.
  pose proof (validateTXT_grouped (recordsOf (fst looked) "TXT") domain) as Gt.
  assert (Hpick : forall i,
             In i (issues (reportOf domain now looked)) /\ issue_category i = c <->
             In i (match c with
                   | SOA => validateSOA (recordsOf (fst looked) "SOA")
                   | NS => validateNS (recordsOf (fst looked) "NS") domain
                   | A => validateA (recordsOf (fst looked) "A")
                   | MX => validateMX (recordsOf (fst looked) "MX") domain
                   | TXT => txt_issues (validateTXT (recordsOf (fst looked) "TXT") domain)
                   | _ => []
                   end) /\ issue_category i = c).
  { intros i. rewrite in_issues. split.
    - intros [Hin Hc]. split; [|exact Hc].
      destruct Hin as [H|[H|[H|[H|[H|H]]]]];
        [ apply fetchIssue_category in H
        | apply (category_of _ _ _ _ Gs) in H as Hc'
        | apply (category_of _ _ _ _ Gn) in H as Hc'
        | apply (category_of _ _ _ _ Ga) in H as Hc'
        | apply (category_of _ _ _ _ Gm) in H as Hc'
        | apply (category_of _ _ _ _ Gt) in H as Hc' ];
        destruct c; try discriminate Habs; try congruence; exact H.
    - intros [Hin Hc]. split; [|exact Hc].
      destruct c; try discriminate Habs; tauto. }
  destruct c; try discriminate Habs; cbn in Habs;
    injection Habs as <- <-; cbn [keyOf].
  - rewrite <- validateSOA_absent. split.
    + intros (i & Hi & Hc & Hs & Hm). exists i. split; [|now split].
      now apply (Hpick i).
    + intros (i & Hi & Hs & Hm). exists i.
      assert (Hc : issue_category i = SOA) by exact (category_of _ _ _ _ Gs Hi).
      split; [now apply (Hpick i)|]. now repeat split.
  - rewrite <- (validateNS_absent _ domain). split.
    + intros (i & Hi & Hc & Hs & Hm). exists i. split; [|now split].
      now apply (Hpick i).
    + intros (i & Hi & Hs & Hm). exists i.
      assert (Hc : issue_category i = NS) by exact (category_of _ _ _ _ Gn Hi).
      split; [now apply (Hpick i)|]. now repeat split.
  - rewrite <- validateA_absent. split.
    + intros (i & Hi & Hc & Hs & Hm). exists i. split; [|now split].
      now apply (Hpick i).
    + intros (i & Hi & Hs & Hm). exists i.
      assert (Hc : issue_category i = A) by exact (category_of _ _ _ _ Ga Hi).
      split; [now apply (Hpick i)|]. now repeat split.
  - rewrite <- (validateMX_absent _ domain). split.
    + intros (i & Hi & Hc & Hs & Hm). exists i. split; [|now split].
      now apply (Hpick i).
    + intros (i & Hi & Hs & Hm). exists i.
      assert (Hc : issue_category i = MX) by exact (category_of _ _ _ _ Gm Hi).
      split; [now apply (Hpick i)|]. now repeat split.
  - rewrite <- (validateTXT_absent _ domain). split.
    + intros (i & Hi & Hc & Hs & Hm). exists i. split; [|now split].
      now apply (Hpick i).
    + intros (i & Hi & Hs & Hm). exists i.
      assert (Hc : issue_category i = TXT) by exact (category_of _ _ _ _ Gt Hi).
      split; [now apply (Hpick i)|]. now repeat split.
Qed.

Lemma lengthOf_zero records key :
  lengthOf records key = 0 <-> recordsOf records key = [].
Proof.
  unfold lengthOf, recordsOf. destruct (records !! key) as [l|]; cbn; [|tauto].
  unfold JS.len. destruct l; cbn [length]; split; try congruence; lia.
Qed.

(** X14: the summary and the issues of a report agree on what is
    absent.  For SOA, NS, A, MX and TXT the issue that reports the
    absence of the type (critical for SOA and NS, info for the
    others) is among the issues exactly when the zone has no record
    of the type, and for the first four exactly when the flag of the
    type in the summary is false. *)
Theorem summary_agrees_with_issues domain now looked c sev msg :
  absenceOf c = Some (sev, msg) ->
  let report := reportOf domain now looked in
  let reported :=
    exists i, In i (issues report) /\ issue_category i = c /\
              issue_severity i = sev /\ message i = msg in
  (reported <-> recordsOf (records report) (keyOf c) = []) /\
  (c <> TXT -> (reported <-> flagOf c (summary report) = false)).
Proof.
  intros Habs report reported.
  pose proof (absence_reported domain now looked c sev msg Habs) as Hrep.
  split; [exact Hrep|]. intros Hc. unfold reported, report. rewrite Hrep.
  rewrite <- lengthOf_zero.
  destruct c; try discriminate Habs; try congruence;
    cbn [flagOf reportOf summary hasSOA hasNS hasA hasMX keyOf];
    rewrite Z.gtb_ltb, Z.ltb_ge;
    match goal with
    | |- context [lengthOf ?r ?k] =>
      assert (Hnn : 0 <= lengthOf r k)
        by (unfold lengthOf, JS.len; destruct (r !! k); lia)
    end;
    split; lia.
Qed.

Lemma summary_agrees_with_issues_witness :
  exists i, In i (issues (reportOf "example.com" "2026-01-25T12:00:00.000Z" (∅, []))) /\
            issue_category i = NS /\ issue_severity i = critical /\
            message i = "No NS records found".
Proof.
  destruct (summary_agrees_with_issues
              "example.com" "2026-01-25T12:00:00.000Z" (∅, [])
              NS critical "No NS records found" eq_refl) as [Hreported _].
  apply Hreported. reflexivity.
Defined.

Lemma failure_stores_nothing net domain type err :
  failureOf net domain type = Some err -> storedOf net domain type = None.
Proof.
  unfold failureOf, storedOf. now destruct (lookupOf net domain type).
Qed.

(** X15: a lookup that fails is counted twice.  When the query for
    SOA, NS, A, MX or TXT fails, the report holds the General warning
    with the error message, and also the issue that reports the type
    as absent. *)
Theorem failed_lookup_counts_twice net completion now domain c sev msg err :
  allSettle completion ->
  absenceOf c = Some (sev, msg) ->
  failureOf net domain (keyOf c) = Some err ->
  let report := analyzeZoneHealth net completion now domain in
  In (fetchIssue err) (issues report) /\
  exists i, In i (issues report) /\ issue_category i = c /\
            issue_severity i = sev /\ message i = msg.
Proof.
  intros Hall Habs Hfail report. unfold report, analyzeZoneHealth.
  destruct (lookups_settled net completion domain Hall) as (Hrec & Herr & Hp).
  assert (Hkey : keyOf c ∈ recordTypes).
  { destruct c; try discriminate Habs; cbn [keyOf]; unfold recordTypes;
      apply list_elem_of_In; cbn; tauto. }
  split.
  - apply in_issues. left. apply in_map. rewrite Herr.
    apply list_elem_of_In, list_elem_of_omap. exists (keyOf c).
    split; [now rewrite Hp|exact Hfail].
  - apply (absence_reported domain now _ c sev msg Habs).
    unfold recordsOf. rewrite Hrec.
    destruct (decide (keyOf c ∈ recordTypes)) as [_|Hn]; [|reflexivity].
    now rewrite (failure_stores_nothing _ _ _ _ Hfail).
Qed.

Lemma failed_lookup_counts_twice_witness :
  let report :=
    analyzeZoneHealth flakyNet typesInOrder "2026-01-25T12:00:00.000Z" "example.com" in
  In (fetchIssue "Failed to fetch NS records: HTTP 502: Bad Gateway") (issues report) /\
  exists i, In i (issues report) /\ issue_category i = NS /\
            issue_severity i = critical /\ message i = "No NS records found".
Proof.
  apply failed_lookup_counts_twice.
  - unfold allSettle, typesInOrder. reflexivity.
  - reflexivity.
  - vm_compute. reflexivity.
Defined.

Lemma deduct_fetchIssues errors acc :
  fold_left deduct (map fetchIssue errors) acc = acc - 10 * JS.len errors.
Proof.
  revert acc. induction errors as [|e errors IH]; intros acc.
  - unfold JS.len. cbn. lia.
  - cbn [map fold_left]. rewrite IH. unfold deduct, JS.len. cbn [fetchIssue issue_severity length].
    lia.
Qed.

(** X16: a zone for which no lookup delivers a record.  The report
    lists the fetch errors, then the five issues of an empty zone
    (SOA and NS critical, A, MX and TXT info); every flag of the
    summary is false; the score is 54 minus 10 for each failed
    lookup, never below 0; and the grade is F. *)
Theorem zone_without_records net completion now domain :
  allSettle completion ->
  (forall type, In type recordTypes -> storedOf net domain type = None) ->
  let errors := snd (getAllDNSRecords net completion domain) in
  let report := analyzeZoneHealth net completion now domain in
  records report = ∅ /\
  map message (issues report)
  = errors ++ [ "No SOA record found"; "No NS records found";
                "No A records found for root domain"; "No MX records found";
                "No TXT records found" ] /\
  map issue_severity (issues report)
  = repeat warning (length errors) ++ [ critical; critical; info; info; info ] /\
  summary report = emptySummary /\
  overallScore report = Z.max 0 (54 - 10 * JS.len errors) /\
  report_grade report = gradeF.
Proof.
  intros Hall Hnone errors report. unfold report, analyzeZoneHealth, errors.
  destruct (lookups_settled net completion domain Hall) as (Hrec & _ & _).
  assert (Hempty : fst (getAllDNSRecords net completion domain) = ∅).
  { apply map_eq. intros type. rewrite Hrec, lookup_empty.
    destruct (decide (type ∈ recordTypes)) as [Hin|_]; [|reflexivity].
    apply Hnone. now apply list_elem_of_In. }
  destruct (getAllDNSRecords net completion domain) as [recs errs].
  cbn [fst snd] in *. subst recs.
  unfold reportOf. cbn [fst snd records issues summary overallScore report_grade].
  unfold recordsOf, lengthOf. rewrite !lookup_empty. cbn [default].
  let v := eval vm_compute in (validateSOA []) in
  change (validateSOA []) with v.
  let v := eval vm_compute in (validateNS [] domain) in
  change (validateNS [] domain) with v.
  let v := eval vm_compute in (validateA []) in
  change (validateA []) with v.
  let v := eval vm_compute in (validateMX [] domain) in
  change (validateMX [] domain) with v.
  let v := eval vm_compute in (validateTXT [] domain) in
  change (validateTXT [] domain) with v.
  cbn [txt_issues txt_hasSPF txt_hasDKIM txt_hasDMARC].
  split; [reflexivity|].
  split.
  { rewrite map_app, map_map. cbn [message fetchIssue map app]. now rewrite map_id. }
  split.
  { rewrite map_app, map_map. cbn [issue_severity fetchIssue map app].
    f_equal. induction errs as [|e errs IH]; [reflexivity|]. cbn. now rewrite IH. }
  split; [reflexivity|].
  match goal with
  | |- calculateScore ?l ?s = _ /\ _ =>
    assert (Hscore : calculateScore l s = Z.max 0 (54 - 10 * JS.len errs))
  end.
  { unfold calculateScore. rewrite fold_left_app, deduct_fetchIssues.
    cbn. unfold JS.len. lia. }
  rewrite Hscore. split; [reflexivity|].
  unfold scoreToGrade.
  assert (Hle : Z.max 0 (54 - 10 * JS.len errs) <= 54) by (unfold JS.len; lia).
  repeat match goal with
         | |- context [?a >=? ?b] => destruct (Z.geb_spec a b); try lia
         end.
  reflexivity.
Qed.

Lemma zone_without_records_witness :
  overallScore (analyzeZoneHealth deadNet typesInOrder "2026-01-25T12:00:08.000Z"
                                  "example.com") = 0.
Proof.
  destruct (zone_without_records deadNet typesInOrder "2026-01-25T12:00:08.000Z"
                                 "example.com") as (_ & _ & _ & _ & Hscore & _).
  - unfold allSettle, typesInOrder. reflexivity.
  - intros type Hin. unfold recordTypes in Hin. cbn [In] in Hin.
    repeat (destruct Hin as [<-|Hin]; [reflexivity|]). destruct Hin.
  - rewrite Hscore. reflexivity.
Defined.

End ReportProps.

(** ** calculateScore: order and number of the issues *)
Section ScoreOrder.
Import ZoneHealth ZoneHealthSpec ZoneReport ZoneReportSpec Samples.

Lemma countOf_Permutation s (l l' : list ZoneHealthIssue) :
  l ≡ₚ l' -> countOf s l = countOf s l'.
Proof.
  intros Hp. unfold countOf, JS.len.
  now rewrite (filter_Permutation _ l l' Hp).
Qed.

Lemma countOf_app s (l l' : list ZoneHealthIssue) :
  countOf s (l ++ l') = countOf s l + countOf s l'.
Proof. unfold countOf, JS.len. rewrite List.filter_app, length_app. lia. Qed.

Lemma countOf_nonneg s (l : list ZoneHealthIssue) : 0 <= countOf s l.
Proof. unfold countOf, JS.len. lia. Qed.

Lemma scoreToGrade_monotone s1 s2 :
  s1 <= s2 -> (gradeRank (scoreToGrade s1) <= gradeRank (scoreToGrade s2))%nat.
Proof.
  intros Hle. unfold scoreToGrade.
  repeat match goal with
         | |- context [?a >=? ?b] => destruct (Z.geb_spec a b); try lia
         end; cbn; lia.
Qed.

(** X17: the score depends on the issues only through their
    numbers: reordering them does not change it, and further issues
    never raise the score nor improve the grade. *)
Theorem score_ignores_order_and_never_rewards issues issues' more summary :
  issues ≡ₚ issues' ->
  calculateScore issues summary = calculateScore issues' summary /\
  calculateScore (issues ++ more) summary <= calculateScore issues summary /\
  (gradeRank (scoreToGrade (calculateScore (issues ++ more) summary))
   <= gradeRank (scoreToGrade (calculateScore issues summary)))%nat.
Proof.
  intros Hp.
  assert (Hle : calculateScore (issues ++ more) summary
                <= calculateScore issues summary).
  { unfold calculateScore. rewrite !deduct_fold, !countOf_app.
    pose proof (countOf_nonneg critical more).
    pose proof (countOf_nonneg warning more).
    pose proof (countOf_nonneg info more).
    destruct (nsCount summary >=? 2), (hasSPF summary), (hasDMARC summary),
      (mxCount summary >=? 2); lia. }
  split; [|split; [exact Hle|now apply scoreToGrade_monotone]].
  unfold calculateScore. rewrite !deduct_fold.
  now rewrite !(countOf_Permutation _ issues issues' Hp).
Qed.

Lemma score_ignores_order_and_never_rewards_witness :
  calculateScore [ fetchIssue "a"; issueOf info MX "b" "c" ] emptySummary
  = calculateScore [ issueOf info MX "b" "c"; fetchIssue "a" ] emptySummary.
Proof.
  apply (score_ignores_order_and_never_rewards _ _ []). apply perm_swap.
Defined.

End ScoreOrder.

(** ** Text round trips: numbers and fields *)
Section TextProps.
Import Text ZoneReportSpec.

Lemma readDigits_acc (d : Decimal.uint) :
  forall acc,
    readDigits 10 (Some (Z.pos acc)) (NilEmpty.string_of_uint d)
    = Some (Z.pos (Pos.of_uint_acc d acc)).
Proof.
  induction d; intros acc; cbn [NilEmpty.string_of_uint Pos.of_uint_acc readDigits];
    [reflexivity|..];
    match goal with
    | |- context [digitValue 10 ?c] =>
      let v := eval vm_compute in (digitValue 10 c) in
      change (digitValue 10 c) with v
    end; cbn [default from_option]; unfold id; rewrite <- IHd; do 2 f_equal; lia.
Qed.

Lemma readDigits_zero (d : Decimal.uint) :
  readDigits 10 (Some 0) (NilEmpty.string_of_uint d)
  = Some (Z.of_N (Pos.of_uint d)).
Proof.
  induction d; cbn [NilEmpty.string_of_uint Pos.of_uint readDigits];
    [reflexivity|..];
    match goal with
    | |- context [digitValue 10 ?c] =>
      let v := eval vm_compute in (digitValue 10 c) in
      change (digitValue 10 c) with v
    end; cbn [default from_option]; unfold id;
    [exact IHd|..]; cbn [Z.of_N]; rewrite <- readDigits_acc; reflexivity.
Qed.

Lemma readDigits_start (c : ascii) (s : string) d :
  digitValue 10 c = Some d ->
  readDigits 10 None (String c s) = readDigits 10 (Some 0) (String c s).
Proof. intros H. cbn [readDigits]. now rewrite H. Qed.

Lemma noWhiteSpace_digits (d : Decimal.uint) :
  noWhiteSpace (NilEmpty.string_of_uint d) = true.
Proof.
  induction d; cbn [NilEmpty.string_of_uint noWhiteSpace]; [reflexivity|..];
    exact IHd.
Qed.

(** The decimal text [s] of a positive number starts with a digit,
    and continues with a digit if it starts with 0. *)
Lemma digits_shape (d : Decimal.uint) :
  d <> Decimal.Nil ->
  exists c v rest,
    NilEmpty.string_of_uint d = String c rest /\
    digitValue 10 c = Some v /\
    isWhiteSpace c = false /\ c <> "-"%char /\ c <> "+"%char /\
    match rest with
    | String x _ => Ascii.eqb x "x" || Ascii.eqb x "X" = false
    | EmptyString => True
    end.
Proof.
  intros Hnn. destruct d as [|d|d|d|d|d|d|d|d|d|d]; [congruence|..];
    cbn [NilEmpty.string_of_uint];
    (eexists _, _, _; split; [reflexivity|]);
    (split; [vm_compute; reflexivity|]);
    (split; [reflexivity|]); (split; [discriminate|]); (split; [discriminate|]);
    destruct d; cbn [NilEmpty.string_of_uint]; try exact I; reflexivity.
Qed.

Lemma parseInt_positive (p : positive) :
  let s := NilEmpty.string_of_uint (Pos.to_uint p) in
  parseInt s = Some (Z.pos p) /\ parseInt (String "-" s) = Some (Z.neg p) /\
  isField s = true.
Proof.
  cbn zeta.
  pose proof (readDigits_zero (Pos.to_uint p)) as Hread.
  rewrite DecimalPos.Unsigned.of_to in Hread. cbn [Z.of_N] in Hread.
  pose proof (DecimalPos.Unsigned.to_uint_nonnil p) as Hnn.
  pose proof (noWhiteSpace_digits (Pos.to_uint p)) as Hfield.
  destruct (digits_shape _ Hnn) as (c & v & rest & Hs & Hv & Hw & Hm & Hp & Hx).
  rewrite Hs in *.
  assert (Hplain :
            match String c rest with
            | String "0" (String x t') =>
              if Ascii.eqb x "x" || Ascii.eqb x "X" then readDigits 16 None t'
              else readDigits 10 None (String c rest)
            | _ => readDigits 10 None (String c rest)
            end = Some (Z.pos p)).
  { rewrite (readDigits_start c rest v Hv), Hread.
    destruct c as [[] [] [] [] [] [] [] []]; try reflexivity.
    destruct rest as [|x t']; [reflexivity|]. now rewrite Hx. }
  assert (Hunsigned :
            readSigned
              (fun t =>
                 match t with
                 | String "0" (String x t') =>
                   if Ascii.eqb x "x" || Ascii.eqb x "X" then readDigits 16 None t'
                   else readDigits 10 None t
                 | _ => readDigits 10 None t
                 end) (String c rest) = Some (Z.pos p)).
  { unfold readSigned.
    destruct c as [[] [] [] [] [] [] [] []]; try exact Hplain; congruence. }
  split; [|split].
  - unfold parseInt. cbn [trimStart]. rewrite Hw. exact Hunsigned.
  - exact (f_equal (fmap Z.opp) Hplain).
  - unfold isField. rewrite Hfield. reflexivity.
Qed.

(** [parseInt(`${n}`)] is [n], and the text is one field. *)
Lemma parseInt_toString (n : Z) :
  parseInt (JS.Number_toString n) = Some n /\
  isField (JS.Number_toString n) = true.
Proof.
  unfold JS.Number_toString. destruct n as [|p|p].
  - split; reflexivity.
  - cbn [Z.to_int NilZero.string_of_int NilZero.string_of_uint].
    pose proof (DecimalPos.Unsigned.to_uint_nonnil p) as Hnn.
    destruct (parseInt_positive p) as (Hp & _ & Hf).
    destruct (Pos.to_uint p); [congruence|..]; split; assumption.
  - cbn [Z.to_int NilZero.string_of_int NilZero.string_of_uint].
    pose proof (DecimalPos.Unsigned.to_uint_nonnil p) as Hnn.
    destruct (parseInt_positive p) as (_ & Hp & Hf).
    destruct (Pos.to_uint p); [congruence|..]; (split; [assumption|]);
      unfold isField in *; cbn [String.eqb noWhiteSpace] in *;
      apply andb_true_iff in Hf as [_ Hf]; exact Hf.
Qed.

Lemma app_String (a : string) (c : ascii) (b : string) :
  (a +:+ String c EmptyString) +:+ b = a +:+ String c b.
Proof. now rewrite app_assoc_string. Qed.

Lemma split_over_field (t : string) :
  forall cur rest b,
    noWhiteSpace t = true -> t <> EmptyString \/ b = false ->
    splitWhiteSpaceFrom b cur (t +:+ rest)
    = splitWhiteSpaceFrom false (cur +:+ t) rest.
Proof.
  induction t as [|c t IH]; intros cur rest b Hws Hne.
  - destruct Hne as [Hne| ->]; [congruence|]. now rewrite app_empty_r.
  - cbn [noWhiteSpace] in Hws. apply andb_true_iff in Hws as [Hc Ht].
    apply negb_true_iff in Hc.
    change (String c t +:+ rest) with (String c (t +:+ rest)).
    cbn [splitWhiteSpaceFrom]. rewrite Hc.
    rewrite (IH _ _ false Ht (or_intror eq_refl)). now rewrite app_String.
Qed.

Lemma isField_spec (t : string) :
  isField t = true -> noWhiteSpace t = true /\ t <> EmptyString.
Proof.
  unfold isField. intros H. apply andb_true_iff in H as [Hne Hws].
  split; [exact Hws|]. intros ->. discriminate Hne.
Qed.

(** Splitting at white space gives back the fields that were joined
    with single spaces. *)
Lemma split_joined_fields (fs : list string) :
  forall f b,
    Forall (fun t => isField t = true) (f :: fs) ->
    splitWhiteSpaceFrom b EmptyString (JS.join " " (f :: fs)) = f :: fs.
Proof.
  unfold JS.join.
  induction fs as [|g gs IH]; intros f b Hall;
    inversion Hall as [|? ? Hf Hrest]; subst;
    destruct (isField_spec f Hf) as [Hws Hne].
  - cbn [String.concat]. rewrite <- (app_empty_r f) at 1.
    rewrite split_over_field by (auto). reflexivity.
  - cbn [String.concat]. fold (String.concat " " (g :: gs)).
    rewrite split_over_field by auto.
    change (" " +:+ ?r) with (String " " r).
    cbn [splitWhiteSpaceFrom]. change (isWhiteSpace " ") with true. cbv iota.
    change (EmptyString +:+ f) with f. f_equal. now apply IH.
Qed.

End TextProps.

(** ** validateSOA and validateMX on records in presentation format *)
Section PresentationProps.
Import DnsResolver ZoneHealth Text ZoneReport ZoneReportSpec Samples.

(** X18: a SOA record in presentation format (seven fields joined by
    single spaces, the refresh interval in decimal) passes without
    an issue exactly when the refresh interval is between 1200 and
    43200, the TTL of the record is at least 300 and the
    administrator field contains a dot.  Further SOA records are not
    looked at. *)
Theorem validateSOA_presentation soa rest mname rname serial refresh retry
    expire minimum :
  Forall (fun t => isField t = true) [mname; rname; serial; retry; expire; minimum] ->
  data soa = JS.join " " [mname; rname; serial; JS.Number_toString refresh;
                          retry; expire; minimum] ->
  (validateSOA (soa :: rest) = [] <->
   1200 <= refresh <= 43200 /\ 300 <= TTL soa /\ JS.includes rname "." = true).
Proof.
  intros Hfields Hdata.
  destruct (parseInt_toString refresh) as [Hparse Hfield].
  assert (Hall : Forall (fun t => isField t = true)
                        [mname; rname; serial; JS.Number_toString refresh;
                         retry; expire; minimum]).
  { rewrite !Forall_cons in Hfields.
    destruct Hfields as (H1 & H2 & H3 & H4 & H5 & H6 & _).
    repeat constructor; assumption. }
  assert (Hrname : String.eqb rname EmptyString = false).
  { inversion Hfields as [|? ? _ Hr]; subst. inversion Hr as [|? ? Hf _]; subst.
    apply isField_spec in Hf as [_ Hne]. now apply String.eqb_neq. }
  unfold validateSOA, splitWhiteSpace. rewrite Hdata.
  rewrite (split_joined_fields _ _ false Hall).
  change (JS.len [mname; rname; serial; JS.Number_toString refresh;
                  retry; expire; minimum] >=? 7) with true.
  cbv iota. cbn [nth]. rewrite Hparse, Hrname. cbn [orb refreshIssues].
  destruct (Z.ltb_spec refresh 1200); [split; [discriminate|lia]|].
  destruct (Z.gtb_spec refresh 43200); [split; [discriminate|lia]|].
  destruct (Z.ltb_spec (TTL soa) 300); [split; [discriminate|lia]|].
  destruct (JS.includes rname "."); cbn [negb app].
  - split; [intros _; repeat split; lia|reflexivity].
  - split; [discriminate|]. intros (_ & _ & Hdot). discriminate Hdot.
Qed.

Lemma validateSOA_presentation_witness :
  validateSOA
    [ soaRecord 3600
        "ns1.example.com. admin.example.com. 2026012501 7200 3600 1209600 300" ]
  = [].
Proof.
  apply (validateSOA_presentation _ _ "ns1.example.com." "admin.example.com."
           "2026012501" 7200 "3600" "1209600" "300").
  - repeat constructor.
  - reflexivity.
  - repeat split; try reflexivity; cbn; lia.
Defined.

(** X19: an MX record in presentation format, the priority in
    decimal (a number that binary64 holds exactly) and the host
    after one space, is parsed into that priority and that host. *)
Theorem mxEntry_presentation r p h :
  - 2 ^ 53 < p < 2 ^ 53 ->
  isField h = true ->
  data r = JS.Number_toString p +:+ " " +:+ h ->
  priority (mxEntry r) = p /\ host (mxEntry r) = h.
Proof.
  intros _ Hh Hdata.
  destruct (parseInt_toString p) as [Hparse Hfield].
  assert (Hall : Forall (fun t => isField t = true) [JS.Number_toString p; h])
    by (repeat constructor; assumption).
  pose proof (split_joined_fields _ _ false Hall) as Hsplit.
  unfold JS.join in Hsplit. cbn [String.concat] in Hsplit.
  unfold mxEntry, splitWhiteSpace. rewrite Hdata, Hsplit.
  cbn [priority host nth lookup list_lookup]. rewrite Hparse.
  apply isField_spec in Hh as [_ Hne].
  split.
  - unfold numberOr. destruct (Z.eqb_spec p 0); congruence.
  - unfold stringOr. cbn. apply String.eqb_neq in Hne. now rewrite Hne.
Qed.

Lemma mxEntry_presentation_witness :
  priority (mxEntry (mxRecord "10 mail.example.com.")) = 10 /\
  host (mxEntry (mxRecord "10 mail.example.com.")) = "mail.example.com.".
Proof.
  apply mxEntry_presentation; [lia|reflexivity|reflexivity].
Defined.

End PresentationProps.

(** ** enumerateSubdomains: counts, limit and distinct names *)
Section EnumerationMore.
Import DnsResolver SubdomainEnum EnumerationInv EnumerationSpec Inputs Samples.

Lemma visit_count h domain o st sub :
  ctCount st = JS.len (found st) ->
  ctCount (visitCertificateName h domain o st sub)
  = JS.len (found (visitCertificateName h domain o st sub)).
Proof.
  intros Hc. unfold visitCertificateName.
  destruct (bool_decide _ || _); [exact Hc|].
  cbn [ctCount found]. unfold JS.len in *. rewrite length_app. cbn [length]. lia.
Qed.

Lemma certificatePhase_count h domain o :
  ctCount (certificatePhase h domain o) = JS.len (found (certificatePhase h domain o)).
Proof.
  unfold certificatePhase.
  assert (H0 : ctCount {| found := []; seenDomains := ∅; ctCount := 0 |}
               = JS.len (found {| found := []; seenDomains := ∅; ctCount := 0 |}))
    by reflexivity.
  revert H0. generalize {| found := []; seenDomains := ∅; ctCount := 0 |}.
  induction (certificateNames h domain) as [|sub names IH]; intros st Hst;
    [exact Hst|].
  cbn [fold_left]. apply IH, visit_count, Hst.
Qed.

Lemma finishProbe_entry h domain o sub e :
  finishProbe h domain o sub = Some e ->
  source e = "Common Subdomain List" /\
  subdomain e = sub /\ fullDomain e = sub +:+ "." +:+ domain /\
  resolves e = true.
Proof.
  unfold finishProbe. destruct (fst _); [|discriminate].
  intros [= <-]. repeat split.
Qed.

Lemma pushed_fromWordlist h domain o (started : list string)
    (completion : list nat) :
  Forall (fun e => source e = "Common Subdomain List")
         (omap (fun i => started !! i ≫= finishProbe h domain o) completion).
Proof.
  apply List.Forall_forall. intros e He.
  apply list_elem_of_In, list_elem_of_omap in He as (i & _ & Hi).
  destruct (started !! i) as [sub|]; [|discriminate]. cbn in Hi.
  now apply finishProbe_entry in Hi.
Qed.

Lemma filter_all {T} (f : T -> bool) (l : list T) :
  Forall (fun x => f x = true) l -> List.filter f l = l.
Proof.
  induction 1 as [|x l Hx _ IH]; [reflexivity|]. cbn. now rewrite Hx, IH.
Qed.

(** X20: the counts of a result add up.  [totalFound] is the number
    of entries and the sum of the two source counts;
    [certificateTransparency] is the number of entries whose source
    is the certificate log, [commonSubdomains] the number of those
    whose source is the word list. *)
Theorem enumeration_counts h completion domain o :
  let r := enumerateSubdomains h completion domain o in
  totalFound r = JS.len (subdomains r) /\
  totalFound r
  = certificateTransparency (sources r) + commonSubdomains (sources r) /\
  certificateTransparency (sources r)
  = JS.len (List.filter fromLog (subdomains r)) /\
  commonSubdomains (sources r)
  = JS.len (List.filter fromWordlist (subdomains r)).
Proof.
  cbn zeta. unfold enumerateSubdomains.
  cbn [totalFound subdomains sources certificateTransparency commonSubdomains].
  set (st := certificatePhase h domain o).
  set (pushed := omap _ completion).
  set (cmp := fun a b => localeCompare h (subdomain a) (subdomain b)).
  pose proof (sortBy_Permutation cmp (found st ++ pushed)) as Hperm.
  pose proof (certificatePhase_inv h domain o) as [Hsrc _ _]. fold st in Hsrc.
  pose proof (pushed_fromWordlist h domain o (startedProbes domain o st) completion)
    as Hpush. fold pushed in Hpush.
  split; [reflexivity|].
  assert (Hlen : JS.len (JS.sortBy cmp (found st ++ pushed))
                 = JS.len (found st) + JS.len pushed).
  { unfold JS.len. rewrite (Permutation_length Hperm), length_app. lia. }
  split; [rewrite Hlen; unfold st; now rewrite certificatePhase_count|].
  split.
  - unfold JS.len at 1.
    unfold JS.len. rewrite (Permutation_length (filter_Permutation _ _ _ Hperm)).
    rewrite List.filter_app, length_app.
    rewrite (filter_all fromLog (found st)), (filter_none fromLog pushed).
    + cbn [length]. unfold st at 1. rewrite certificatePhase_count.
      fold st. unfold JS.len. lia.
    + eapply Forall_impl; [exact Hpush|]. intros e He. unfold fromLog.
      now rewrite He.
    + eapply Forall_impl; [exact Hsrc|]. intros e He. unfold fromLog.
      now rewrite He.
  - unfold JS.len. rewrite (Permutation_length (filter_Permutation _ _ _ Hperm)).
    rewrite List.filter_app, length_app.
    rewrite (filter_none fromWordlist (found st)), (filter_all fromWordlist pushed).
    + cbn [length]. lia.
    + eapply Forall_impl; [exact Hpush|]. intros e He. unfold fromWordlist.
      now rewrite He.
    + eapply Forall_impl; [exact Hsrc|]. intros e He. unfold fromWordlist.
      now rewrite He.
Qed.

(** *** The limit *)

Lemma visit_bound h domain o st sub :
  JS.len (found st) <= Z.max 0 (maxResults o) ->
  JS.len (found (visitCertificateName h domain o st sub)) <= Z.max 0 (maxResults o).
Proof.
  intros Hb. unfold visitCertificateName.
  destruct (bool_decide _); cbn [orb]; [exact Hb|].
  destruct (Z.geb_spec (JS.len (found st)) (maxResults o)); [exact Hb|].
  cbn [found]. unfold JS.len in *. rewrite length_app. cbn [length]. lia.
Qed.

Lemma certificatePhase_bound h domain o :
  JS.len (found (certificatePhase h domain o)) <= Z.max 0 (maxResults o).
Proof.
  unfold certificatePhase.
  assert (H0 : JS.len (found {| found := []; seenDomains := ∅; ctCount := 0 |})
               <= Z.max 0 (maxResults o))
    by (unfold JS.len; cbn [found length]; lia).
  revert H0. generalize {| found := []; seenDomains := ∅; ctCount := 0 |}.
  induction (certificateNames h domain) as [|sub names IH]; intros st Hst;
    [exact Hst|].
  cbn [fold_left]. apply IH, visit_bound, Hst.
Qed.

Lemma started_length domain slice :
  forall seen acc,
    (length (snd (fold_left (startProbe domain) slice (seen, acc)))
     <= length acc + length slice)%nat.
Proof.
  induction slice as [|sub slice IH]; intros seen acc; cbn [fold_left length].
  - cbn. lia.
  - unfold startProbe at 2. cbn [fst snd]. case_bool_decide.
    + specialize (IH seen acc). lia.
    + specialize (IH ({[sub +:+ "." +:+ domain]} ∪ seen) (acc ++ [sub])).
      rewrite length_app in IH. cbn [length] in IH. lia.
Qed.

Lemma startedProbes_length domain o st :
  Z.of_nat (length (startedProbes domain o st))
  <= Z.max 0 (maxResults o - JS.len (found st)).
Proof.
  unfold startedProbes.
  pose proof (started_length domain (wordlistSlice o st) (seenDomains st) []) as Hl.
  cbn [length] in Hl.
  assert (Hs : Z.of_nat (length (wordlistSlice o st))
               <= Z.max 0 (maxResults o - JS.len (found st))).
  { unfold wordlistSlice. destruct (_ && _); [|cbn; lia].
    rewrite length_take. lia. }
  lia.
Qed.

(** A probe that finishes pushes at most one entry: when no probe
    finishes twice, no more entries are pushed than probes were
    started. *)
Lemma pushed_length {T U} (g : T -> option U) (started : list T)
    (completion : list nat) :
  NoDup completion ->
  (length (omap (fun i => started !! i ≫= g) completion) <= length started)%nat.
Proof.
  intros Hnd.
  assert (Hle : (length (omap (fun i => started !! i ≫= g) completion)
                 <= length (filter (fun i => i < length started)%nat completion))%nat).
  { clear Hnd. induction completion as [|i completion IH]; [cbn; lia|].
    cbn [omap list_omap]. rewrite filter_cons.
    destruct (decide (i < length started)%nat) as [Hi|Hi].
    - destruct (started !! i ≫= g); cbn [length]; lia.
    - rewrite (lookup_ge_None_2 started i) by lia. cbn. exact IH. }
  assert (Hsub : filter (fun i => i < length started)%nat completion
                 ⊆+ seq 0 (length started)).
  { apply NoDup_submseteq; [now apply NoDup_filter|].
    intros i Hi. apply list_elem_of_filter in Hi as [Hi _].
    apply list_elem_of_In, in_seq. lia. }
  apply submseteq_length in Hsub. rewrite length_seq in Hsub. lia.
Qed.

(** X21: the limit holds.  When no word-list probe finishes twice,
    the result has at most [maxResults] entries, and none when
    [maxResults] is not positive. *)
Theorem enumeration_within_limit h completion domain o :
  finishOnce completion ->
  0 <= totalFound (enumerateSubdomains h completion domain o)
    <= Z.max 0 (maxResults o).
Proof.
  intros Hnd. unfold enumerateSubdomains. cbn [totalFound].
  set (st := certificatePhase h domain o).
  set (cmp := fun a b => localeCompare h (subdomain a) (subdomain b)).
  unfold JS.len. rewrite (Permutation_length (sortBy_Permutation cmp _)).
  rewrite length_app.
  pose proof (pushed_length (finishProbe h domain o) (startedProbes domain o st)
                            completion Hnd) as Hp.
  pose proof (startedProbes_length domain o st) as Hs.
  pose proof (certificatePhase_bound h domain o) as Hb. fold st in Hb.
  unfold JS.len in *. lia.
Qed.

Lemma enumeration_within_limit_witness :
  0 <= totalFound (enumerateSubdomains
                     (hostWith liveNet ["www.example.com"; "shop.example.com"])
                     inOrder "example.com" Routes.scanOptions)
    <= 50.
Proof.
  apply (enumeration_within_limit _ _ _ Routes.scanOptions).
  unfold finishOnce, inOrder. apply NoDup_seq.
Defined.

(** *** Distinct names *)

Lemma started_distinct domain slice :
  forall seen acc,
    NoDup (map (fun sub => sub +:+ "." +:+ domain) acc) ->
    (forall sub, In sub acc -> sub +:+ "." +:+ domain ∈ seen) ->
    NoDup (map (fun sub => sub +:+ "." +:+ domain)
               (snd (fold_left (startProbe domain) slice (seen, acc)))).
Proof.
  induction slice as [|sub slice IH]; intros seen acc Hnd Hseen; [exact Hnd|].
  cbn [fold_left]. unfold startProbe at 2. cbn [fst snd].
  case_bool_decide as Hin; [now apply IH|].
  apply IH.
  - rewrite map_app. cbn [map]. apply NoDup_app. split; [exact Hnd|]. split.
    + intros d Hd Hd'. apply list_elem_of_singleton in Hd'. subst d.
      apply list_elem_of_In, in_map_iff in Hd as (sub' & Heq & Hsub').
      apply Hin. rewrite <- Heq. now apply Hseen.
    + apply NoDup_singleton.
  - intros sub' Hsub'. apply in_app_iff in Hsub' as [Hsub'|[<-|[]]].
    + apply elem_of_union_r. now apply Hseen.
    + apply elem_of_union_l. now apply elem_of_singleton.
Qed.

Lemma pushed_distinct h domain o (started : list string) (completion : list nat) :
  NoDup completion ->
  NoDup (map (fun sub => sub +:+ "." +:+ domain) started) ->
  NoDup (map fullDomain
             (omap (fun i => started !! i ≫= finishProbe h domain o) completion)).
Proof.
  intros Hc Hs. induction completion as [|i completion IH]; [constructor|].
  apply NoDup_cons in Hc as [Hi Hc]. cbn [omap list_omap].
  destruct (started !! i) as [sub|] eqn:Ei; [|now apply IH]. cbn [mbind option_bind].
  destruct (finishProbe h domain o sub) as [e|] eqn:Ee; [|now apply IH].
  cbn [map]. apply NoDup_cons. split; [|now apply IH].
  intros Hin. apply list_elem_of_In, in_map_iff in Hin as (e' & Heq & He').
  apply list_elem_of_In, list_elem_of_omap in He' as (j & Hj & Hje').
  destruct (started !! j) as [sub'|] eqn:Ej; [|discriminate]. cbn in Hje'.
  apply finishProbe_entry in Ee as (_ & _ & Hfull & _).
  apply finishProbe_entry in Hje' as (_ & _ & Hfull' & _).
  assert (Hij : i = j).
  { apply (NoDup_lookup _ i j (sub +:+ "." +:+ domain) Hs).
    - now rewrite lookup_map, Ei.
    - rewrite lookup_map, Ej. cbn. f_equal. congruence. }
  subst j. contradiction.
Qed.

(** X22: no name is listed twice.  When no word-list probe finishes
    twice, the entries of the result carry pairwise different full
    names. *)
Theorem enumeration_names_distinct h completion domain o :
  finishOnce completion ->
  NoDup (map fullDomain (subdomains (enumerateSubdomains h completion domain o))).
Proof.
  intros Hnd. unfold enumerateSubdomains. cbn [subdomains].
  set (st := certificatePhase h domain o).
  set (cmp := fun a b => localeCompare h (subdomain a) (subdomain b)).
  rewrite (sortBy_Permutation cmp _). rewrite map_app.
  pose proof (certificatePhase_inv h domain o) as [_ Hseen Hfound]. fold st in Hseen, Hfound.
  assert (Hstarted : NoDup (map (fun sub => sub +:+ "." +:+ domain)
                                (startedProbes domain o st))).
  { unfold startedProbes. apply started_distinct; [constructor|]. intros sub []. }
  apply NoDup_app. split; [exact Hfound|]. split.
  - intros d Hd Hd'.
    apply list_elem_of_In, in_map_iff in Hd' as (e & Heq & He).
    apply list_elem_of_In, list_elem_of_omap in He as (i & _ & Hi).
    destruct (startedProbes domain o st !! i) as [sub|] eqn:Ei; [|discriminate].
    cbn in Hi. apply finishProbe_entry in Hi as (_ & _ & Hfull & _).
    pose proof (started_fresh domain (seenDomains st) (wordlistSlice o st)
                              (seenDomains st) [] (reflexivity _) (Forall_nil_2 _))
      as Hfresh.
    rewrite List.Forall_forall in Hfresh.
    apply (Hfresh sub).
    + apply list_elem_of_In. eapply list_elem_of_lookup_2. exact Ei.
    + apply Hseen. apply list_elem_of_In. congruence.
  - now apply pushed_distinct.
Qed.

Lemma enumeration_names_distinct_witness :
  NoDup (map fullDomain
             (subdomains (enumerateSubdomains
                            (hostWith liveNet ["www.example.com"; "shop.example.com"])
                            inOrder "example.com" defaultOptions))).
Proof.
  apply enumeration_names_distinct.
  unfold finishOnce, inOrder. apply NoDup_seq.
Defined.

(** *** The members of an entry *)

Lemma resolution_coherent h full :
  fst (checkSubdomainResolution h full) = true <->
  exists ip ips, snd (checkSubdomainResolution h full) = ip :: ips.
Proof.
  unfold checkSubdomainResolution.
  destruct (queryDoHResolver _ _ _ _ _) as [msg|response]; cbn [fst snd].
  - split; [discriminate|]. intros (ip & ips & H). discriminate H.
  - destruct (map data _) as [|ip ips].
    + split; [discriminate|]. intros (ip & ips & H). discriminate H.
    + split; [intros _; now exists ip, ips|]. intros _.
      unfold JS.len. cbn [length]. apply Z.gtb_lt. lia.
Qed.

Lemma certificate_coherent h full :
  fst (checkSSLCertificate h full) = true <-> snd (checkSSLCertificate h full) <> None.
Proof.
  unfold checkSSLCertificate.
  destruct (head h full) as [|[code|]]; cbn [fst snd];
    try (destruct (_ || _)); cbn [fst snd]; split; congruence.
Qed.

(** An entry is coherent when its members were set as the two loops
    set them. *)
Lemma built_coherent o src (ssl : option (bool * option SslDetails))
    (res : bool) (ips : option (list string)) label full :
  src = "Certificate Transparency" \/ src = "Common Subdomain List" ->
  (ssl <> None -> res = true /\ checkSSL o = true) ->
  (forall b d, ssl = Some (b, d) -> b = true <-> d <> None) ->
  (res = true <-> exists ip rest, ips = Some (ip :: rest)) ->
  (src = "Common Subdomain List" -> res = true) ->
  (checkResolution o = false -> src = "Certificate Transparency" ->
   res = false /\ ips = None) ->
  coherent o {| subdomain := label; fullDomain := full; source := src;
                hasSSL := from_option fst false ssl;
                sslDetails := ssl ≫= snd;
                resolves := res; ipAddresses := ips |}.
Proof.
  intros Hsrc Hssl Hdet Hres Hwl Hun.
  split; cbn [source hasSSL sslDetails resolves ipAddresses]; try assumption.
  - destruct ssl as [[b d]|]; cbn [from_option fst]; [|discriminate].
    intros _. now apply Hssl.
  - destruct ssl as [[b d]|]; cbn [from_option fst mbind option_bind snd].
    + now apply Hdet.
    + split; [discriminate|congruence].
Qed.

Lemma visit_coherent h domain o st sub :
  Forall (coherent o) (found st) ->
  Forall (coherent o) (found (visitCertificateName h domain o st sub)).
Proof.
  intros Hall. unfold visitCertificateName.
  destruct (bool_decide _ || _); [exact Hall|]. cbn [found].
  apply Forall_app. split; [exact Hall|]. constructor; [|constructor].
  pose proof (resolution_coherent h sub) as Hres.
  pose proof (certificate_coherent h sub) as Hcert.
  apply built_coherent.
  - now left.
  - destruct (checkResolution o), (checkSSL o); cbn [from_option andb];
      try congruence.
    destruct (fst (checkSubdomainResolution h sub)); [now split|congruence].
  - intros b d Hbd.
    destruct (checkSSL o && _); [|discriminate].
    injection Hbd as Hbd. rewrite (surjective_pairing (checkSSLCertificate h sub)) in Hbd.
    injection Hbd as <- <-. exact Hcert.
  - destruct (checkResolution o); cbn [from_option fmap option_fmap option_map].
    + split.
      * intros Hf. destruct Hres as [Hres _].
        destruct (Hres Hf) as (ip & ips & ->). now exists ip, ips.
      * intros (ip & ips & [= Hips]). apply Hres. now exists ip, ips.
    + split; [discriminate|]. intros (ip & ips & Hips). discriminate Hips.
  - discriminate.
  - intros -> _. now split.
Qed.

Lemma certificatePhase_coherent h domain o :
  Forall (coherent o) (found (certificatePhase h domain o)).
Proof.
  unfold certificatePhase.
  assert (H0 : Forall (coherent o)
                      (found {| found := []; seenDomains := ∅; ctCount := 0 |}))
    by constructor.
  revert H0. generalize {| found := []; seenDomains := ∅; ctCount := 0 |}.
  induction (certificateNames h domain) as [|sub names IH]; intros st Hst;
    [exact Hst|].
  cbn [fold_left]. apply IH, visit_coherent, Hst.
Qed.

Lemma finishProbe_coherent h domain o sub e :
  finishProbe h domain o sub = Some e -> coherent o e.
Proof.
  unfold finishProbe.
  pose proof (resolution_coherent h (sub +:+ "." +:+ domain)) as Hres.
  pose proof (certificate_coherent h (sub +:+ "." +:+ domain)) as Hcert.
  destruct (fst (checkSubdomainResolution h (sub +:+ "." +:+ domain))) eqn:Ef;
    [|discriminate].
  intros [= <-].
  destruct Hres as [Hres _]. destruct (Hres eq_refl) as (ip & ips & Hips).
  apply built_coherent.
  - now right.
  - destruct (checkSSL o); [now split|congruence].
  - intros b d Hbd. destruct (checkSSL o); [|discriminate].
    injection Hbd as Hbd.
    rewrite (surjective_pairing (checkSSLCertificate h _)) in Hbd.
    injection Hbd as <- <-. exact Hcert.
  - split; [intros _; rewrite Hips; now exists ip, ips|reflexivity].
  - reflexivity.
  - discriminate.
Qed.

(** X23: the members of every entry of a result agree.  The source
    is one of the two; an entry has SSL only if it resolves and SSL
    was to be checked, and exactly then it has SSL details; it
    resolves exactly when it lists at least one address; an entry
    of the word list always resolves; and without the resolution
    check an entry of the certificate log neither resolves nor lists
    addresses. *)
Theorem entries_coherent h completion domain o :
  Forall (coherent o) (subdomains (enumerateSubdomains h completion domain o)).
Proof.
  unfold enumerateSubdomains. cbn [subdomains].
  set (cmp := fun a b => localeCompare h (subdomain a) (subdomain b)).
  rewrite (sortBy_Permutation cmp _).
  apply Forall_app. split; [apply certificatePhase_coherent|].
  apply List.Forall_forall. intros e He.
  apply list_elem_of_In, list_elem_of_omap in He as (i & _ & Hi).
  destruct (startedProbes _ _ _ !! i) as [sub|]; [|discriminate]. cbn in Hi.
  now apply finishProbe_coherent in Hi.
Qed.

End EnumerationMore.

(** ** queryCertificateTransparency *)
Section LogProps.
Import SubdomainEnum CertificateLog EnumerationSpec Samples.

Lemma add_spec x seen :
  NoDup seen ->
  NoDup (add x seen) /\ forall n, n ∈ add x seen <-> n ∈ seen \/ n = x.
Proof.
  intros Hnd. unfold add. destruct (decide (x ∈ seen)) as [Hin|Hnin].
  - split; [exact Hnd|]. intros n. split; [tauto|]. intros [H| ->]; assumption.
  - split.
    + apply NoDup_app. split; [exact Hnd|]. split; [|apply NoDup_singleton].
      intros y Hy Hy'. apply list_elem_of_singleton in Hy'. now subst.
    + intros n. now rewrite elem_of_app, list_elem_of_singleton.
Qed.

Lemma addName_spec domain seen name :
  NoDup seen ->
  NoDup (addName domain seen name) /\
  forall n, n ∈ addName domain seen name <->
            n ∈ seen \/ (n = cleanName name /\ kept domain n).
Proof.
  intros Hnd. unfold addName, kept.
  destruct (isSubdomainName domain (cleanName name)) eqn:Es.
  - destruct (add_spec (cleanName name) seen Hnd) as [Hnd1 Hin1].
    destruct (String.eqb_spec (cleanName name) domain) as [He|Hne].
    + destruct (add_spec domain _ Hnd1) as [Hnd2 Hin2]. split; [exact Hnd2|].
      intros n. rewrite Hin2, Hin1. split.
      * intros [[H| ->]| ->]; [now left|right; split; [reflexivity|now left]|].
        right. split; [congruence|now right].
      * intros [H|[-> _]]; [now left; left|]. left. now right.
    + split; [exact Hnd1|]. intros n. rewrite Hin1. split.
      * intros [H| ->]; [now left|]. right. split; [reflexivity|now left].
      * intros [H|[-> _]]; [now left|now right].
  - destruct (String.eqb_spec (cleanName name) domain) as [He|Hne].
    + destruct (add_spec domain seen Hnd) as [Hnd2 Hin2]. split; [exact Hnd2|].
      intros n. rewrite Hin2. split.
      * intros [H| ->]; [now left|]. right. split; [congruence|now right].
      * intros [H|[-> _]]; [now left|]. right. exact He.
    + split; [exact Hnd|]. intros n. split; [tauto|].
      intros [H|[-> [H|H]]]; [exact H|congruence|congruence].
Qed.

Lemma addNames_spec domain names :
  forall seen,
    NoDup seen ->
    NoDup (fold_left (addName domain) names seen) /\
    forall n, n ∈ fold_left (addName domain) names seen <->
              n ∈ seen \/
              (kept domain n /\ exists raw, In raw names /\ cleanName raw = n).
Proof.
  induction names as [|name names IH]; intros seen Hnd; cbn [fold_left].
  - split; [exact Hnd|]. intros n. split; [tauto|].
    intros [H|[_ (raw & [] & _)]]. exact H.
  - destruct (addName_spec domain seen name Hnd) as [Hnd1 Hin1].
    destruct (IH _ Hnd1) as [Hnd2 Hin2]. split; [exact Hnd2|].
    intros n. rewrite Hin2, Hin1. split.
    + intros [[H|[-> Hk]]|[Hk (raw & Hraw & Hc)]].
      * now left.
      * right. split; [exact Hk|]. exists name. split; [now left|reflexivity].
      * right. split; [exact Hk|]. exists raw. split; [now right|exact Hc].
    + intros [H|[Hk (raw & [->|Hraw] & Hc)]].
      * now left; left.
      * left. right. split; [now symmetry|exact Hk].
      * right. split; [exact Hk|]. now exists raw.
Qed.

Lemma collectNames_spec domain certs :
  forall seen,
    NoDup seen ->
    NoDup (collectNames domain certs seen) /\
    forall n, n ∈ collectNames domain certs seen <->
              n ∈ seen \/
              (kept domain n /\
               exists value raw, In value (readCertificates certs) /\
                                 In raw (namesOf value) /\ cleanName raw = n).
Proof.
  induction certs as [|[value| |] certs IH]; intros seen Hnd;
    cbn [collectNames readCertificates].
  - split; [exact Hnd|]. intros n. split; [tauto|].
    intros [H|[_ (v & raw & [] & _)]]. exact H.
  - destruct (addNames_spec domain (namesOf value) seen Hnd) as [Hnd1 Hin1].
    destruct (IH _ Hnd1) as [Hnd2 Hin2]. split; [exact Hnd2|].
    intros n. rewrite Hin2, Hin1. split.
    + intros [[H|[Hk (raw & Hraw & Hc)]]|[Hk (v & raw & Hv & Hraw & Hc)]].
      * now left.
      * right. split; [exact Hk|]. exists value, raw. split; [now left|now split].
      * right. split; [exact Hk|]. exists v, raw. split; [now right|now split].
    + intros [H|[Hk (v & raw & [->|Hv] & Hraw & Hc)]].
      * now left; left.
      * left. right. split; [exact Hk|]. now exists raw.
      * right. split; [exact Hk|]. now exists v, raw.
  - apply IH, Hnd.
  - split; [exact Hnd|]. intros n. split; [tauto|].
    intros [H|[_ (v & raw & [] & _)]]. exact H.
Qed.

Lemma certificate_names_nodup outcome domain :
  NoDup (queryCertificateTransparency outcome domain).
Proof.
  destruct outcome as [|status|certs]; cbn [queryCertificateTransparency];
    try constructor.
  apply (collectNames_spec domain certs [] (NoDup_nil_2)).
Qed.

(** X24: the names [queryCertificateTransparency] returns.  They are
    pairwise different.  A name is returned exactly when it is the
    trimmed, lower-cased form of a line of the [name_value] of a
    certificate that was read, and it is either the domain itself or
    a non-empty name that does not start with [*] and ends with a
    dot and the domain.  A request that fails or is not OK gives no
    name. *)
Theorem certificate_names outcome domain :
  let names := queryCertificateTransparency outcome domain in
  NoDup names /\
  (forall n,
      In n names <->
      (n = domain \/
       (n <> EmptyString /\ JS.startsWith n "*" = false /\
        Text.endsWith n ("." +:+ domain) = true)) /\
      exists certs value raw,
        outcome = LogDelivered certs /\ In value (readCertificates certs) /\
        In raw (namesOf value) /\ cleanName raw = n) /\
  ((forall certs, outcome <> LogDelivered certs) -> names = []).
Proof.
  cbn zeta.
  assert (Hkept : forall n,
             kept domain n <->
             n = domain \/
             (n <> EmptyString /\ JS.startsWith n "*" = false /\
              Text.endsWith n ("." +:+ domain) = true)).
  { intros n. unfold kept, isSubdomainName. split.
    - intros [H| ->]; [|now left]. right.
      apply andb_true_iff in H as [H _]. apply andb_true_iff in H as [H He].
      apply andb_true_iff in H as [Hn Hs].
      apply negb_true_iff in Hn, Hs. apply String.eqb_neq in Hn. now repeat split.
    - intros [->|(Hn & Hs & He)]; [now right|].
      destruct (String.eqb_spec n domain) as [->|Hne]; [now right|]. left.
      apply String.eqb_neq in Hn. now rewrite Hn, Hs, He. }
  destruct outcome as [|status|certs]; cbn [queryCertificateTransparency].
  - split; [constructor|]. split; [|reflexivity].
    intros n. split; [intros []|]. intros (_ & certs & v & raw & H & _). discriminate H.
  - split; [constructor|]. split; [|reflexivity].
    intros n. split; [intros []|]. intros (_ & certs & v & raw & H & _). discriminate H.
  - destruct (collectNames_spec domain certs [] (NoDup_nil_2)) as [Hnd Hin].
    split; [exact Hnd|]. split.
    + intros n. rewrite <- list_elem_of_In, Hin, elem_of_nil, Hkept. split.
      * intros [[]|[Hk (v & raw & H)]]. split; [exact Hk|]. now exists certs, v, raw.
      * intros (Hk & certs' & v & raw & [= <-] & H). right. split; [exact Hk|].
        now exists v, raw.
    + intros H. now specialize (H certs).
Qed.

End LogProps.

(** ** The certificate log and the enumeration *)
Section LogEnumeration.
Import DnsResolver SubdomainEnum EnumerationInv CertificateLog EnumerationSpec.
Import Routes Inputs Samples LogSamples.

Lemma visit_names h domain o names :
  forall st,
    NoDup names ->
    (forall n, In n names -> n ∉ seenDomains st) ->
    map fullDomain (found (fold_left (visitCertificateName h domain o) names st))
    = map fullDomain (found st)
      ++ take (Z.to_nat (maxResults o - JS.len (found st))) names.
Proof.
  induction names as [|sub names IH]; intros st Hnd Hfresh; cbn [fold_left].
  - now rewrite take_nil, app_nil_r.
  - apply NoDup_cons in Hnd as [Hsub Hnd].
    unfold visitCertificateName at 2.
    rewrite bool_decide_eq_false_2 by (apply Hfresh; now left). cbn [orb].
    destruct (Z.geb_spec (JS.len (found st)) (maxResults o)) as [Hge|Hlt].
    + rewrite IH; [|exact Hnd|intros n Hn; apply Hfresh; now right].
      replace (Z.to_nat (maxResults o - JS.len (found st))) with 0%nat by lia.
      now rewrite !take_0.
    + rewrite IH; [|exact Hnd|].
      * cbn [found]. rewrite map_app. cbn [map fullDomain]. rewrite <- app_assoc.
        f_equal. cbn [app].
        match goal with
        | |- context [JS.len (found st ++ [?e])] =>
          replace (JS.len (found st ++ [e])) with (JS.len (found st) + 1)
            by (unfold JS.len; rewrite length_app; cbn [length]; lia)
        end.
        replace (Z.to_nat (maxResults o - JS.len (found st)))
          with (S (Z.to_nat (maxResults o - (JS.len (found st) + 1)))) by lia.
        reflexivity.
      * cbn [seenDomains]. intros n Hn Hin.
        apply elem_of_union in Hin as [Hin|Hin].
        -- apply elem_of_singleton in Hin. subst n. apply Hsub.
           now apply list_elem_of_In.
        -- apply (Hfresh n); [now right|exact Hin].
Qed.

Lemma certificatePhase_names h domain o :
  NoDup (certificateNames h domain) ->
  map fullDomain (found (certificatePhase h domain o))
  = take (Z.to_nat (maxResults o)) (certificateNames h domain).
Proof.
  intros Hnd. unfold certificatePhase. rewrite visit_names; [|exact Hnd|].
  - cbn [found map app]. unfold JS.len. cbn [length]. now rewrite Z.sub_0_r.
  - intros n _. cbn [seenDomains]. apply not_elem_of_empty.
Qed.

(** X25: the names of the certificate log become the first entries.
    On a host that reads the certificate names from the log, the
    entries whose source is the certificate log are those of the
    first [maxResults] names that [queryCertificateTransparency]
    returns, one for each, and [certificateTransparency] counts
    them. *)
Theorem log_names_become_entries h log completion domain o :
  readsLog h log ->
  let names := queryCertificateTransparency (log domain) domain in
  let r := enumerateSubdomains h completion domain o in
  certificateTransparency (sources r)
  = Z.min (JS.len names) (Z.max 0 (maxResults o)) /\
  map fullDomain (List.filter fromLog (subdomains r))
  ≡ₚ take (Z.to_nat (maxResults o)) names.
Proof.
  intros Hlog names r.
  assert (Hnd : NoDup (certificateNames h domain)).
  { rewrite Hlog. apply certificate_names_nodup. }
  pose proof (certificatePhase_names h domain o Hnd) as Hnames.
  rewrite Hlog in Hnames. fold names in Hnames.
  unfold r, enumerateSubdomains.
  cbn [sources certificateTransparency subdomains].
  set (st := certificatePhase h domain o) in *.
  set (cmp := fun a b => localeCompare h (subdomain a) (subdomain b)).
  split.
  - unfold st. rewrite certificatePhase_count. fold st.
    unfold JS.len. rewrite <- (length_map fullDomain (found st)), Hnames.
    rewrite length_take. lia.
  - rewrite (filter_Permutation _ _ _ (sortBy_Permutation cmp _)).
    rewrite List.filter_app.
    pose proof (certificatePhase_inv h domain o) as [Hsrc _ _]. fold st in Hsrc.
    pose proof (pushed_fromWordlist h domain o (startedProbes domain o st) completion)
      as Hpush.
    rewrite (filter_all fromLog (found st)), (filter_none fromLog _).
    + rewrite app_nil_r. now rewrite Hnames.
    + eapply Forall_impl; [exact Hpush|]. intros e He. unfold fromLog.
      now rewrite He.
    + eapply Forall_impl; [exact Hsrc|]. intros e He. unfold fromLog.
      now rewrite He.
Qed.

Lemma log_names_become_entries_witness :
  map fullDomain
      (List.filter fromLog
         (subdomains (enumerateSubdomains (logHost sampleLog) inOrder "example.com"
                                          (subdomainOptions None (Some "2")))))
  ≡ₚ [ "www.example.com"; "example.com" ].
Proof.
  apply (log_names_become_entries (logHost sampleLog) sampleLog inOrder "example.com"
           (subdomainOptions None (Some "2"))).
  intros domain. reflexivity.
Defined.

(** *** The limit parameter of the route *)

(** X26: the [limit] parameter of [GET /subdomains/:domain].  A
    decimal number n gives [maxResults] n, but 100 for 0 and 200 for
    more than 200; a parameter that is no string gives 100; and
    whatever the parameter, the limit is at most 200 and not 0. *)
Theorem limit_parameter (n : Z) (limitParam : param) :
  - 2 ^ 53 < n < 2 ^ 53 ->
  limitOf (Some (JS.Number_toString n)) = (if n =? 0 then 100 else Z.min n 200) /\
  limitOf None = 100 /\
  limitOf limitParam <= 200 /\ limitOf limitParam <> 0.
Proof.
  intros _. split; [|split; [reflexivity|]].
  - unfold limitOf.
    change (default "100" (Some (JS.Number_toString n)))
      with (JS.Number_toString n).
    destruct (parseInt_toString n) as [-> _]. unfold ZoneReport.numberOr.
    destruct (Z.eqb_spec n 0); [reflexivity|]. reflexivity.
  - unfold limitOf, ZoneReport.numberOr.
    destruct (Text.parseInt _) as [k|]; [destruct (Z.eqb_spec k 0)|]; lia.
Qed.

Lemma limit_parameter_witness :
  limitOf (Some "0") = 100 /\ limitOf None = 100 /\
  limitOf (Some "abc") <= 200 /\ limitOf (Some "abc") <> 0.
Proof.
  apply (limit_parameter 0 (Some "abc")). lia.
Defined.

(** X27: the subdomain route never returns more than 200 entries,
    and none for a negative limit.  (When no word-list probe
    finishes twice.) *)
Theorem subdomain_route_bounded h completion domain sslParam limitParam :
  finishOnce completion ->
  let r := enumerateSubdomains h completion domain
                               (subdomainOptions sslParam limitParam) in
  0 <= totalFound r <= 200 /\
  (limitOf limitParam < 0 -> subdomains r = []).
Proof.
  intros Hnd r.
  assert (Hb : 0 <= totalFound r <= Z.max 0 (limitOf limitParam)).
  { unfold r, enumerateSubdomains. cbn [totalFound].
    set (o := subdomainOptions sslParam limitParam).
    set (st := certificatePhase h domain o).
    set (cmp := fun a b => localeCompare h (subdomain a) (subdomain b)).
    unfold JS.len. rewrite (Permutation_length (sortBy_Permutation cmp _)).
    rewrite length_app.
    pose proof (pushed_length (finishProbe h domain o) (startedProbes domain o st)
                              completion Hnd) as Hp.
    pose proof (startedProbes_length domain o st) as Hs.
    pose proof (certificatePhase_bound h domain o) as Hc. fold st in Hc.
    change (maxResults o) with (limitOf limitParam) in *.
    unfold JS.len in *. lia. }
  assert (Hl : limitOf limitParam <= 200).
  { unfold limitOf. lia. }
  split; [lia|]. intros Hneg.
  assert (Hz : totalFound r = 0) by lia.
  unfold r, enumerateSubdomains in *. cbn [totalFound subdomains] in *.
  unfold JS.len in Hz. now destruct (JS.sortBy _ _).
Qed.

Lemma subdomain_route_bounded_witness :
  subdomains (enumerateSubdomains (logHost sampleLog) inOrder "example.com"
                                  (subdomainOptions None (Some "-5"))) = [].
Proof.
  apply (subdomain_route_bounded (logHost sampleLog) inOrder "example.com"
                                 None (Some "-5")).
  - unfold finishOnce, inOrder. apply NoDup_seq.
  - reflexivity.
Defined.

End LogEnumeration.

(** ** validateDomain: what an accepted domain looks like *)
Section DomainProps.
Import DomainValidator.

Lemma length_app_string (a b : string) :
  String.length (a +:+ b) = (String.length a + String.length b)%nat.
Proof.
  induction a as [|c a IH]; [reflexivity|].
  change (String c a +:+ b) with (String c (a +:+ b)). cbn [String.length].
  now rewrite IH.
Qed.

Lemma chars_app (a b : string) :
  list_ascii_of_string (a +:+ b)
  = list_ascii_of_string a ++ list_ascii_of_string b.
Proof.
  induction a as [|c a IH]; [reflexivity|].
  change (String c a +:+ b) with (String c (a +:+ b)). cbn [list_ascii_of_string].
  now rewrite IH.
Qed.

Lemma prefix_app_self (p b : string) : String.prefix p (p +:+ b) = true.
Proof.
  induction p as [|c p IH]; [now destruct b|].
  change (String c p +:+ b) with (String c (p +:+ b)). cbn [String.prefix].
  destruct (ascii_dec c c); [exact IH|congruence].
Qed.

Lemma includes_app (a p b : string) : JS.includes (a +:+ p +:+ b) p = true.
Proof.
  induction a as [|c a IH].
  - change (EmptyString +:+ p +:+ b) with (p +:+ b).
    destruct (p +:+ b) eqn:E; cbn [JS.includes]; rewrite <- E, prefix_app_self;
      reflexivity.
  - change (String c a +:+ p +:+ b) with (String c (a +:+ p +:+ b)).
    cbn [JS.includes]. rewrite IH. apply orb_true_r.
Qed.

(** The characters of the pieces of [s.split(sep)] are characters
    of [s] other than the separator. *)
Lemma splitFrom_chars (P : ascii -> Prop) (sep : ascii) (s : string) :
  forall cur,
    Forall P (list_ascii_of_string cur) ->
    Forall (fun c => c <> sep -> P c) (list_ascii_of_string s) ->
    Forall (fun piece => Forall P (list_ascii_of_string piece))
           (Text.splitFrom sep cur s).
Proof.
  induction s as [|c s IH]; intros cur Hcur Hs; cbn [Text.splitFrom].
  - now constructor.
  - cbn [list_ascii_of_string] in Hs. apply Forall_cons in Hs as [Hc Hs].
    destruct (Ascii.eqb_spec c sep) as [->|Hne].
    + constructor; [exact Hcur|]. apply IH; [constructor|exact Hs].
    + apply IH; [|exact Hs]. rewrite chars_app. apply Forall_app.
      split; [exact Hcur|]. cbn. constructor; [now apply Hc|constructor].
Qed.

Lemma validChars_spec (s : string) :
  validChars s = true ->
  Forall (fun c => isDomainChar c = true) (list_ascii_of_string s) /\
  exists c rest, s = String c rest /\ isAlnum c = true.
Proof.
  destruct s as [|c s]; [discriminate|]. cbn [validChars].
  intros H. apply andb_true_iff in H as [Hc Hs]. split; [|now exists c, s].
  cbn [list_ascii_of_string]. constructor.
  { unfold isDomainChar. now rewrite Hc. }
  clear c Hc. induction s as [|c s IH]; [discriminate|].
  cbn [middleThenLast] in Hs. cbn [list_ascii_of_string].
  destruct s as [|c' s].
  - constructor; [|constructor]. unfold isDomainChar. now rewrite Hs.
  - apply andb_true_iff in Hs as [Hc Hs]. constructor; [exact Hc|]. now apply IH.
Qed.

Lemma labelErrors_none (labels : list string) :
  labelErrors labels = [] ->
  Forall (fun label => JS.startsWith label "-" = false /\
                       Text.endsWith label "-" = false /\
                       (String.length label <= 63)%nat) labels.
Proof.
  induction labels as [|label labels IH]; [constructor|]. cbn [labelErrors].
  destruct (JS.startsWith label "-") eqn:Es; [discriminate|].
  destruct (Text.endsWith label "-") eqn:Ee; [discriminate|]. cbn [orb].
  destruct (Z.gtb_spec (Z.of_nat (String.length label)) 63) as [Hgt|Hle];
    [discriminate|].
  intros H. constructor; [|now apply IH]. split; [exact Es|]. split; [exact Ee|lia].
Qed.

Lemma concat_snoc (sep : string) (front : list string) (t : string) :
  front <> [] ->
  String.concat sep (front ++ [t]) = String.concat sep front +:+ sep +:+ t.
Proof.
  induction front as [|x front IH]; [congruence|]. intros _.
  destruct front as [|y front].
  - reflexivity.
  - change ((x :: y :: front) ++ [t]) with (x :: ((y :: front) ++ [t])).
    cbn [String.concat app]. cbn [String.concat app] in IH.
    rewrite IH by discriminate. now rewrite !app_assoc_string.
Qed.

Lemma last_two {T} (l : list T) :
  (2 <= length l)%nat -> exists front s t, l = front ++ [s; t].
Proof.
  intros Hlen. destruct (rev l) as [|t [|s rfront]] eqn:E.
  - apply (f_equal (@length T)) in E. rewrite length_rev in E. cbn in E. lia.
  - apply (f_equal (@length T)) in E. rewrite length_rev in E. cbn in E. lia.
  - exists (rev rfront), s, t. rewrite <- (rev_involutive l), E. cbn [rev].
    now rewrite <- app_assoc.
Qed.

Lemma fromEnd_last (front : list string) (s t : string) :
  fromEnd 1 (front ++ [s; t]) = t /\ fromEnd 2 (front ++ [s; t]) = s.
Proof.
  unfold fromEnd. rewrite length_app. cbn [length].
  replace (1 <=? length front + 2)%nat with true by (symmetry; apply Nat.leb_le; lia).
  replace (2 <=? length front + 2)%nat with true by (symmetry; apply Nat.leb_le; lia).
  replace (length front + 2 - 1)%nat with (length front + 1)%nat by lia.
  replace (length front + 2 - 2)%nat with (length front + 0)%nat by lia.
  rewrite !lookup_app_r by lia.
  replace (length front + 1 - length front)%nat with 1%nat by lia.
  replace (length front + 0 - length front)%nat with 0%nat by lia.
  split; reflexivity.
Qed.

Lemma len_nil {T} (l : list T) : (JS.len l =? 0) = true -> l = [].
Proof. unfold JS.len. destruct l; [reflexivity|]. cbn. discriminate. Qed.

Lemma domainChar_label (c : ascii) :
  isDomainChar c = true -> c <> "."%char -> isAlnum c = true \/ c = "-"%char.
Proof.
  unfold isDomainChar. intros H Hne.
  apply orb_true_iff in H as [H|H]; [|right; now apply Ascii.eqb_eq].
  apply orb_true_iff in H as [H|H]; [now left|].
  apply Ascii.eqb_eq in H. contradiction.
Qed.

(** X28: what [validateDomain] accepts.  A result that is valid
    names a domain of two labels, [sld.tld]: each label is not
    empty, made of lower-case letters, digits and hyphens, at most
    63 characters long, without a hyphen at either end; the TLD is
    not a number; and the domain has at most 253 characters. *)
Theorem accepted_domain input :
  isValid (validateDomain input) = true ->
  let r := validateDomain input in
  domain r = sld r +:+ "." +:+ tld r /\
  isLabel (sld r) /\ isLabel (tld r) /\
  isNumeric (tld r) = false /\
  (String.length (domain r) <= 253)%nat.
Proof.
  unfold validateDomain.
  destruct (rawInputOf input) as [[|c0 raw]|]; try discriminate.
  set (d := clean (String c0 raw)). cbn [isValid domain sld tld].
  intros Hvalid. apply len_nil in Hvalid.
  apply app_eq_nil in Hvalid as [H1 Hvalid].
  apply app_eq_nil in Hvalid as [H2 Hvalid].
  apply app_eq_nil in Hvalid as [H3 Hvalid].
  apply app_eq_nil in Hvalid as [H4 Hvalid].
  apply app_eq_nil in Hvalid as [H5 H6].
  (* the TLD is there, and there are two labels *)
  destruct (String.eqb_spec (fromEnd 1 (Text.split "." d)) EmptyString)
    as [|Htld]; [discriminate|].
  destruct (Z.ltb_spec (JS.len (Text.split "." d)) 2) as [|Hlen]; [discriminate|].
  destruct (last_two (Text.split "." d)) as (front & s & t & Hlabels).
  { unfold JS.len in Hlen. lia. }
  pose proof (join_split "." d) as Hjoin. unfold JS.join in Hjoin.
  rewrite Hlabels in *.
  destruct (fromEnd_last front s t) as [Ht Hs]. rewrite Ht, Hs in *.
  replace (JS.len (front ++ [s; t]) >=? 2) with true
    by (symmetry; apply Z.geb_le; exact Hlen).
  assert (Hshape : String.concat "." (front ++ [s; t])
                   = String.concat "." (front ++ [s]) +:+ "." +:+ t).
  { change (front ++ [s; t]) with (front ++ [s] ++ [t]).
    rewrite (app_assoc front [s] [t]). apply concat_snoc.
    destruct front; discriminate. }
  rewrite Hshape in Hjoin. clear Hshape.
  (* the domain is longer than one character, so the pattern matched *)
  assert (Hlong : (2 <= String.length d)%nat).
  { rewrite <- Hjoin, !length_app_string. cbn [String.length].
    destruct t; [congruence|]. cbn [String.length]. lia. }
  destruct (validChars d) eqn:Hchars;
    [|replace (Z.of_nat (String.length d) >? 1) with true in H2
        by (symmetry; apply Z.gtb_lt; lia); discriminate].
  apply validChars_spec in Hchars as [Hall (c & rest & Hd & Hc)].
  destruct (JS.includes d "..") eqn:Hdots; [discriminate|].
  destruct (isNumeric t) eqn:Hnum; [discriminate|].
  destruct (Z.gtb_spec (Z.of_nat (String.length d)) 253) as [|Hmax]; [discriminate|].
  apply labelErrors_none in H4.
  (* the characters of the labels *)
  assert (Hpieces :
            Forall (fun piece =>
                      Forall (fun c => isAlnum c = true \/ c = "-"%char)
                             (list_ascii_of_string piece))
                   (front ++ [s; t])).
  { rewrite <- Hlabels. apply splitFrom_chars; [constructor|].
    eapply Forall_impl; [exact Hall|]. intros x Hx Hne. now apply domainChar_label. }
  apply Forall_app in Hpieces as [_ Hpieces]. apply Forall_app in H4 as [_ H4].
  apply Forall_cons in Hpieces as [Hsc Hpieces].
  apply Forall_cons in Hpieces as [Htc _].
  apply Forall_cons in H4 as [(Hs1 & Hs2 & Hs3) H4].
  apply Forall_cons in H4 as [(Ht1 & Ht2 & Ht3) _].
  (* the second-level label is not empty *)
  assert (Hsld : s <> EmptyString).
  { intros ->. destruct front as [|x front].
    - cbn [app String.concat] in Hjoin.
      change (EmptyString +:+ "." +:+ t) with (String "." t) in Hjoin.
      rewrite <- Hjoin in Hd. injection Hd as <- _. discriminate Hc.
    - rewrite concat_snoc in Hjoin by discriminate.
      rewrite <- Hjoin in Hdots.
      rewrite app_empty_r in Hdots.
      rewrite app_assoc_string in Hdots.
      change ("." +:+ "." +:+ t) with (".." +:+ t) in Hdots.
      rewrite includes_app in Hdots. discriminate Hdots. }
  split; [reflexivity|]. split; [now repeat split|]. split; [now repeat split|].
  split; [reflexivity|].
  rewrite <- Hjoin in Hmax. rewrite !length_app_string in *.
  assert (Hs_le : (String.length s
                   <= String.length (String.concat "." (front ++ [s])))%nat).
  { destruct front as [|x front]; [cbn; lia|].
    rewrite concat_snoc by discriminate. rewrite !length_app_string. lia. }
  lia.
Qed.

Lemma accepted_domain_witness :
  domain (validateDomain (Str "https://WWW.Example.com:8080/path"))
  = "example" +:+ "." +:+ "com".
Proof.
  apply (accepted_domain (Str "https://WWW.Example.com:8080/path")).
  reflexivity.
Defined.

End DomainProps.

(** ** validateDomain: the names it accepts *)
Section AcceptProps.
Import DomainValidator.

Lemma chars_concat (P : ascii -> Prop) (sep : string) (labels : list string) :
  Forall P (list_ascii_of_string sep) ->
  Forall (fun label => Forall P (list_ascii_of_string label)) labels ->
  Forall P (list_ascii_of_string (String.concat sep labels)).
Proof.
  intros Hsep. induction 1 as [|x labels Hx Hrest IH]; [constructor|].
  destruct labels as [|y labels]; [exact Hx|].
  cbn [String.concat]. rewrite !chars_app.
  apply Forall_app. split; [exact Hx|]. apply Forall_app. now split.
Qed.

Lemma toLowerCase_fixed (s : string) :
  Forall (fun c => Text.lowerChar c = c) (list_ascii_of_string s) ->
  Text.toLowerCase s = s.
Proof.
  induction s as [|c s IH]; [reflexivity|]. cbn [list_ascii_of_string].
  intros H. apply Forall_cons in H as [Hc Hs].
  cbn [Text.toLowerCase]. now rewrite Hc, IH.
Qed.

Lemma trimStart_fixed (s : string) :
  Forall (fun c => Text.isWhiteSpace c = false) (list_ascii_of_string s) ->
  Text.trimStart s = s.
Proof.
  destruct s as [|c s]; [reflexivity|]. cbn [list_ascii_of_string].
  intros H. apply Forall_cons in H as [Hc _]. cbn [Text.trimStart]. now rewrite Hc.
Qed.

Lemma trimEnd_fixed (s : string) :
  Forall (fun c => Text.isWhiteSpace c = false) (list_ascii_of_string s) ->
  Text.trimEnd s = s.
Proof.
  induction s as [|c s IH]; [reflexivity|]. cbn [list_ascii_of_string].
  intros H. apply Forall_cons in H as [Hc Hs]. cbn [Text.trimEnd].
  rewrite (IH Hs), Hc. now destruct s.
Qed.

Lemma prefix_split (p s : string) :
  String.prefix p s = true -> s = p +:+ JS.skip (String.length p) s.
Proof.
  revert s. induction p as [|c p IH]; intros s H; [now destruct s|].
  destruct s as [|c' s]; [discriminate|]. cbn [String.prefix] in H.
  destruct (ascii_dec c c') as [->|]; [|discriminate].
  cbn [String.length JS.skip].
  change (String c' p +:+ JS.skip (String.length p) s)
    with (String c' (p +:+ JS.skip (String.length p) s)).
  f_equal. now apply IH.
Qed.

Lemma prefix_chars (p s : string) (c : ascii) :
  String.prefix p s = true ->
  In c (list_ascii_of_string p) -> In c (list_ascii_of_string s).
Proof.
  intros H Hc. rewrite (prefix_split p s H), chars_app. apply in_or_app. now left.
Qed.

(** A text without the separator is one piece. *)
Lemma splitFrom_piece (sep : ascii) (t : string) :
  forall cur rest,
    Forall (fun c => c <> sep) (list_ascii_of_string t) ->
    Text.splitFrom sep cur (t +:+ rest) = Text.splitFrom sep (cur +:+ t) rest.
Proof.
  induction t as [|c t IH]; intros cur rest Hsep.
  - now rewrite app_empty_r.
  - cbn [list_ascii_of_string] in Hsep. apply Forall_cons in Hsep as [Hc Ht].
    change (String c t +:+ rest) with (String c (t +:+ rest)).
    cbn [Text.splitFrom]. apply Ascii.eqb_neq in Hc. rewrite Hc.
    rewrite (IH _ _ Ht). now rewrite app_String.
Qed.

Lemma firstPiece_fixed (sep : ascii) (s : string) :
  Forall (fun c => c <> sep) (list_ascii_of_string s) ->
  firstPiece sep s = s.
Proof.
  intros H. unfold firstPiece, Text.split.
  rewrite <- (app_empty_r s) at 1. rewrite splitFrom_piece by exact H. reflexivity.
Qed.

(** [labels.join(sep).split(sep)] gives the labels back when none of
    them contains the separator. *)
Lemma split_joined (sep : ascii) (labels : list string) :
  forall label,
    Forall (fun l => Forall (fun c => c <> sep) (list_ascii_of_string l))
           (label :: labels) ->
    Text.split sep (String.concat (String sep EmptyString) (label :: labels))
    = label :: labels.
Proof.
  unfold Text.split.
  induction labels as [|next labels IH]; intros label Hall;
    apply Forall_cons in Hall as [Hl Hrest].
  - cbn [String.concat]. rewrite <- (app_empty_r label) at 1.
    now rewrite splitFrom_piece.
  - cbn [String.concat]. fold (String.concat (String sep EmptyString) (next :: labels)).
    rewrite splitFrom_piece by exact Hl.
    change (String sep EmptyString +:+ ?r) with (String sep r).
    cbn [Text.splitFrom]. rewrite Ascii.eqb_refl.
    change (EmptyString +:+ label) with label. f_equal. now apply IH.
Qed.

Lemma includes_split (s p : string) :
  JS.includes s p = true -> exists a b, s = a +:+ p +:+ b.
Proof.
  induction s as [|c s IH]; cbn [JS.includes]; intros H.
  - rewrite orb_false_r in H. exists EmptyString, (JS.skip (String.length p) EmptyString).
    now apply prefix_split.
  - apply orb_true_iff in H as [H|H].
    + exists EmptyString, (JS.skip (String.length p) (String c s)).
      now apply prefix_split.
    + destruct (IH H) as (a & b & ->). now exists (String c a), b.
Qed.

(** Two separators in a row leave an empty piece. *)
Lemma splitFrom_empty_piece (sep : ascii) (a b : string) :
  forall cur,
    In EmptyString (Text.splitFrom sep cur (a +:+ String sep (String sep b))).
Proof.
  induction a as [|c a IH]; intros cur.
  - change (EmptyString +:+ ?x) with x. cbn [Text.splitFrom].
    rewrite Ascii.eqb_refl. right. left. reflexivity.
  - change (String c a +:+ ?x) with (String c (a +:+ x)). cbn [Text.splitFrom].
    destruct (Ascii.eqb c sep); [right|]; apply IH.
Qed.

Lemma no_consecutive_dots (labels : list string) (label : string) :
  Forall (fun l => l <> EmptyString /\
                   Forall (fun c => c <> "."%char) (list_ascii_of_string l))
         (label :: labels) ->
  JS.includes (String.concat "." (label :: labels)) ".." = false.
Proof.
  intros Hall. destruct (JS.includes _ "..") eqn:E; [|reflexivity]. exfalso.
  apply includes_split in E as (a & b & E).
  assert (Hsplit : Text.split "." (String.concat "." (label :: labels))
                   = label :: labels).
  { apply split_joined. eapply Forall_impl; [exact Hall|]. now intros l [_ H]. }
  rewrite E in Hsplit.
  pose proof (splitFrom_empty_piece "." a b EmptyString) as Hin.
  change (".." +:+ b) with (String "." (String "." b)) in Hsplit.
  unfold Text.split in Hsplit. rewrite Hsplit in Hin.
  rewrite List.Forall_forall in Hall. now destruct (Hall _ Hin) as [Hne _].
Qed.

Lemma snoc_string (s : string) :
  s <> EmptyString -> exists init c, s = init +:+ String c EmptyString.
Proof.
  induction s as [|c s IH]; [congruence|]. intros _.
  destruct s as [|c' s].
  - now exists EmptyString, c.
  - destruct IH as (init & l & E); [discriminate|]. exists (String c init), l.
    change (String c init +:+ String l EmptyString)
      with (String c (init +:+ String l EmptyString)). now rewrite <- E.
Qed.

Lemma skip_app (a b : string) : JS.skip (String.length a) (a +:+ b) = b.
Proof.
  induction a as [|c a IH]; [now destruct b|].
  change (String c a +:+ b) with (String c (a +:+ b)). exact IH.
Qed.

Lemma endsWith_last (init : string) (c d : ascii) :
  Text.endsWith (init +:+ String c EmptyString) (String d EmptyString)
  = Ascii.eqb c d.
Proof.
  unfold Text.endsWith. rewrite length_app_string. cbn [String.length].
  replace (1 <=? String.length init + 1)%nat with true
    by (symmetry; apply Nat.leb_le; lia).
  replace (String.length init + 1 - 1)%nat with (String.length init) by lia.
  rewrite skip_app. cbn [andb String.eqb]. now destruct (Ascii.eqb c d).
Qed.

Lemma middleThenLast_snoc (mid : string) (c : ascii) :
  Forall (fun x => isDomainChar x = true) (list_ascii_of_string mid) ->
  isAlnum c = true ->
  middleThenLast (mid +:+ String c EmptyString) = true.
Proof.
  intros Hmid Hc. induction mid as [|x mid IH]; [exact Hc|].
  cbn [list_ascii_of_string] in Hmid. apply Forall_cons in Hmid as [Hx Hmid].
  change (String x mid +:+ String c EmptyString)
    with (String x (mid +:+ String c EmptyString)).
  specialize (IH Hmid).
  destruct (mid +:+ String c EmptyString) as [|y r] eqn:E.
  - destruct mid; discriminate E.
  - change (middleThenLast (String x (String y r)))
      with (isDomainChar x && middleThenLast (String y r)).
    now rewrite IH, Hx.
Qed.

(** The characters of a domain name are left alone by the cleaning
    chain. *)
Lemma domainChar_facts (c : ascii) :
  isDomainChar c = true ->
  Text.lowerChar c = c /\ Text.isWhiteSpace c = false /\
  c <> "/"%char /\ c <> "?"%char /\ c <> "#"%char /\ c <> ":"%char.
Proof.
  destruct c as [[] [] [] [] [] [] [] []]; intros H; vm_compute in H;
    try discriminate H; repeat split; try reflexivity; discriminate.
Qed.

Lemma labelChar_domainChar (c : ascii) :
  isAlnum c = true \/ c = "-"%char -> isDomainChar c = true /\ c <> "."%char.
Proof.
  intros [H| ->]; [|split; [reflexivity|discriminate]].
  unfold isDomainChar. rewrite H. split; [reflexivity|].
  intros ->. discriminate H.
Qed.

Lemma labelErrors_ok (labels : list string) :
  Forall isLabel labels -> labelErrors labels = [].
Proof.
  induction 1 as [|label labels (_ & _ & Hs & He & Hlen) _ IH]; [reflexivity|].
  cbn [labelErrors]. rewrite Hs, He. cbn [orb].
  destruct (Z.gtb_spec (Z.of_nat (String.length label)) 63); [lia|exact IH].
Qed.

Lemma first_char_alnum (label : string) :
  isLabel label -> exists c rest, label = String c rest /\ isAlnum c = true.
Proof.
  intros (Hne & Hchars & Hs & _). destruct label as [|c rest]; [congruence|].
  exists c, rest. split; [reflexivity|].
  cbn [list_ascii_of_string] in Hchars. apply Forall_cons in Hchars as [[Hc| ->] _];
    [exact Hc|]. unfold JS.startsWith in Hs. cbn [String.prefix] in Hs.
  destruct (ascii_dec "-" "-"); [|congruence]. destruct rest; discriminate Hs.
Qed.

Lemma last_char_alnum (label : string) :
  isLabel label ->
  exists init c, label = init +:+ String c EmptyString /\ isAlnum c = true.
Proof.
  intros (Hne & Hchars & _ & He & _).
  destruct (snoc_string label Hne) as (init & c & ->). exists init, c.
  split; [reflexivity|]. rewrite endsWith_last in He.
  rewrite chars_app in Hchars. apply Forall_app in Hchars as [_ Hc].
  cbn in Hc. apply Forall_cons in Hc as [[Hc| ->] _]; [exact Hc|]. cbv in He.
  discriminate He.
Qed.

(** The cleaning chain leaves a name of labels as it is, unless the
    name starts with the label www. *)
Lemma clean_fixed (label : string) (labels : list string) :
  Forall isLabel (label :: labels) ->
  label <> "www" ->
  let name := String.concat "." (label :: labels) in
  clean name = name /\ Text.split "." name = label :: labels /\
  Forall (fun c => isDomainChar c = true) (list_ascii_of_string name).
Proof.
  intros Hlabels Hwww name.
  assert (Hchars : Forall (fun l => Forall (fun c => isDomainChar c = true /\
                                                     c <> "."%char)
                                           (list_ascii_of_string l))
                          (label :: labels)).
  { eapply Forall_impl; [exact Hlabels|]. intros l (_ & Hl & _).
    eapply Forall_impl; [exact Hl|]. intros c. apply labelChar_domainChar. }
  assert (Hname : Forall (fun c => isDomainChar c = true) (list_ascii_of_string name)).
  { apply chars_concat; [repeat constructor|].
    eapply Forall_impl; [exact Hchars|]. intros l Hl.
    eapply Forall_impl; [exact Hl|]. now intros c [Hc _]. }
  assert (Hsplit : Text.split "." name = label :: labels).
  { apply split_joined. eapply Forall_impl; [exact Hchars|]. intros l Hl.
    eapply Forall_impl; [exact Hl|]. now intros c [_ Hc]. }
  split; [|split; [exact Hsplit|exact Hname]].
  assert (Hfacts : forall c, In c (list_ascii_of_string name) ->
                             Text.lowerChar c = c /\ Text.isWhiteSpace c = false /\
                             c <> "/"%char /\ c <> "?"%char /\ c <> "#"%char /\
                             c <> ":"%char).
  { intros c Hc. apply domainChar_facts. rewrite List.Forall_forall in Hname.
    now apply Hname. }
  unfold clean.
  rewrite toLowerCase_fixed
    by (apply List.Forall_forall; intros c Hc; now apply Hfacts).
  unfold Text.trim.
  rewrite trimStart_fixed, trimEnd_fixed
    by (apply List.Forall_forall; intros c Hc; now apply Hfacts).
  assert (Hnp : removeProtocol name = name).
  { unfold removeProtocol, JS.startsWith.
    destruct (String.prefix "https://" name) eqn:E1.
    { exfalso. apply (prefix_chars _ _ ":") in E1; [|cbn; tauto].
      now apply Hfacts in E1. }
    destruct (String.prefix "http://" name) eqn:E2; [|reflexivity].
    exfalso. apply (prefix_chars _ _ ":") in E2; [|cbn; tauto].
    now apply Hfacts in E2. }
  rewrite Hnp.
  assert (Hnw : removeWww name = name).
  { unfold removeWww, JS.startsWith.
    destruct (String.prefix "www." name) eqn:E; [|reflexivity]. exfalso.
    apply prefix_split in E. rewrite E in Hsplit.
    assert (Hstep : forall x, Text.split "." ("www." +:+ x)
                              = "www" :: Text.split "." x) by reflexivity.
    rewrite Hstep in Hsplit. congruence. }
  rewrite Hnw.
  rewrite (firstPiece_fixed "/" name), (firstPiece_fixed "?" name),
    (firstPiece_fixed "#" name), (firstPiece_fixed ":" name)
    by (apply List.Forall_forall; intros c Hc;
        destruct (Hfacts c Hc) as (? & ? & ? & ? & ? & ?); assumption).
  reflexivity.
Qed.

Lemma concat_last_two (front : list string) (s t : string) :
  String.concat "." (front ++ [s; t])
  = String.concat "." (front ++ [s]) +:+ "." +:+ t.
Proof.
  change (front ++ [s; t]) with (front ++ [s] ++ [t]).
  rewrite (app_assoc front [s] [t]). apply concat_snoc.
  destruct front; discriminate.
Qed.

Lemma concat_head (label : string) (labels : list string) (c : ascii) (rest : string) :
  label = String c rest ->
  exists rest', String.concat "." (label :: labels) = String c rest'.
Proof.
  intros ->. destruct labels as [|next labels]; [now exists rest|].
  cbn [String.concat].
  now exists (rest +:+ "." +:+ String.concat "." (next :: labels)).
Qed.

Lemma validChars_name (front : list string) (s t : string) :
  Forall isLabel (front ++ [s; t]) ->
  Forall (fun c => isDomainChar c = true)
         (list_ascii_of_string (String.concat "." (front ++ [s; t]))) ->
  validChars (String.concat "." (front ++ [s; t])) = true.
Proof.
  intros Hlabels Hname. rewrite concat_last_two in *.
  assert (Ht : isLabel t).
  { rewrite List.Forall_forall in Hlabels. apply Hlabels.
    apply in_or_app. right. right. now left. }
  assert (Hfirst : exists label rest, front ++ [s] = label :: rest /\ isLabel label).
  { rewrite List.Forall_forall in Hlabels.
    destruct front as [|x front]; [exists s, []|exists x, (front ++ [s])];
      (split; [reflexivity|]); apply Hlabels.
    - now left.
    - now left. }
  destruct Hfirst as (label & rest & Hfront & Hlabel).
  destruct (first_char_alnum label Hlabel) as (c & l' & El & Hc).
  destruct (last_char_alnum t Ht) as (init & cl & Et & Hcl).
  rewrite Hfront in *.
  destruct (concat_head label rest c l' El) as (rest' & Ehead).
  rewrite Ehead, Et in *.
  change (String c rest' +:+ "." +:+ init +:+ String cl EmptyString)
    with (String c (rest' +:+ "." +:+ init +:+ String cl EmptyString)) in *.
  cbn [validChars]. rewrite Hc. cbn [andb].
  replace (rest' +:+ "." +:+ init +:+ String cl EmptyString)
    with ((rest' +:+ "." +:+ init) +:+ String cl EmptyString) in *
    by now rewrite !app_assoc_string.
  apply middleThenLast_snoc; [|exact Hcl].
  cbn [list_ascii_of_string] in Hname. apply Forall_cons in Hname as [_ Hname].
  rewrite chars_app in Hname. now apply Forall_app in Hname as [Hname _].
Qed.

(** X29: the names [validateDomain] accepts.  A name of two labels
    or more (labels as above, joined by dots), of at most 253
    characters, whose last label is not a number and whose first
    label is not www, is accepted without an error; the domain of
    the result is made of its last two labels, and the labels before
    them are the subdomain. *)
Theorem well_formed_name_accepted front s t :
  Forall isLabel (front ++ [s; t]) ->
  isNumeric t = false ->
  (String.length (JS.join "." (front ++ [s; t])) <= 253)%nat ->
  hd s front <> "www" ->
  let r := validateDomain (Str (JS.join "." (front ++ [s; t]))) in
  errors r = [] /\ isValid r = true /\
  domain r = s +:+ "." +:+ t /\ sld r = s /\ tld r = t /\
  subdomain r = match front with
                | [] => None
                | _ => Some (JS.join "." front)
                end.
Proof.
  intros Hlabels Hnum Hlen Hwww. unfold JS.join in *.
  assert (Hcons : front ++ [s; t] = hd s front :: tl (front ++ [s; t])).
  { now destruct front. }
  pose proof Hlabels as Hlabels'. rewrite Hcons in Hlabels'.
  destruct (clean_fixed _ _ Hlabels' Hwww) as (Hclean & Hsplit & Hname).
  rewrite <- Hcons in Hclean, Hsplit, Hname.
  pose proof (validChars_name front s t Hlabels Hname) as Hvalid.
  assert (Hdots : JS.includes (String.concat "." (front ++ [s; t])) ".." = false).
  { rewrite Hcons. apply no_consecutive_dots. rewrite <- Hcons.
    eapply Forall_impl; [exact Hlabels|]. intros l (Hne & Hl & _).
    split; [exact Hne|]. eapply Forall_impl; [exact Hl|].
    intros c Hc. now apply labelChar_domainChar. }
  pose proof (labelErrors_ok _ Hlabels) as Hlab.
  destruct (fromEnd_last front s t) as [Htld Hsld].
  assert (Ht : t <> EmptyString).
  { rewrite List.Forall_forall in Hlabels.
    assert (Hin : In t (front ++ [s; t])) by (apply in_or_app; right; right; now left).
    now destruct (Hlabels t Hin). }
  set (name := String.concat "." (front ++ [s; t])) in *.
  unfold validateDomain. cbn [rawInputOf].
  destruct name as [|c0 raw] eqn:Ename; [discriminate Hvalid|].
  rewrite <- Ename in *. clear Ename.
  rewrite Hclean, Hsplit, Hvalid, Hdots, Hlab, Htld, Hsld, Hnum.
  replace (Z.of_nat (String.length name) >? 253) with false
    by (symmetry; rewrite Z.gtb_ltb; apply Z.ltb_ge; lia).
  apply String.eqb_neq in Ht. rewrite Ht.
  assert (Hcount : JS.len (front ++ [s; t]) = Z.of_nat (length front) + 2).
  { unfold JS.len. rewrite length_app. cbn [length]. lia. }
  rewrite Hcount.
  replace (Z.of_nat (length front) + 2 <? 2) with false
    by (symmetry; apply Z.ltb_ge; lia).
  replace (Z.of_nat (length front) + 2 >=? 2) with true
    by (symmetry; apply Z.geb_le; lia).
  cbn [negb andb app errors isValid domain sld tld subdomain].
  repeat (split; [reflexivity|]).
  rewrite length_app. cbn [length].
  replace (length front + 2 - 2)%nat with (length front) by lia.
  rewrite take_app_length.
  destruct front as [|x front]; [reflexivity|].
  replace (Z.of_nat (length (x :: front)) + 2 >? 2) with true; [reflexivity|].
  symmetry. apply Z.gtb_lt. cbn [length]. lia.
Qed.

Lemma well_formed_name_accepted_witness :
  let r := validateDomain (Str "api.staging.example.org") in
  errors r = [] /\ isValid r = true /\
  domain r = "example" +:+ "." +:+ "org" /\ sld r = "example" /\ tld r = "org" /\
  subdomain r = Some "api.staging".
Proof.
  apply (well_formed_name_accepted ["api"; "staging"] "example" "org").
  - repeat constructor; discriminate.
  - reflexivity.
  - vm_compute. lia.
  - discriminate.
Defined.

End AcceptProps.

